(** * Personal finance analyzer: the cleaning pipeline, the classifier and
      the statistics of [src/load_data.py], with the driver of [app.py]

    The Python code works on pandas data frames whose numeric cells are
    IEEE 754 binary64 numbers.  Numbers are modelled by Rocq's primitive
    [float] (the same binary64 format, with its NaN, infinities and signed
    zeros), text by [string], a data frame by its column labels and its
    rows. *)

From Stdlib Require Import ZArith List String Ascii Bool Lia Sorted Permutation.
From Stdlib Require Import Floats DecimalString.
Import ListNotations.

Set Warnings "-inexact-float".

Local Open Scope string_scope.
Local Open Scope list_scope.

(** ** Python text

    A Python [str] is modelled by [string]; the model covers ASCII text
    (characters above 127 are never white space and have no other case). *)

Module PyStr.
Local Open Scope string_scope.

Definition is_space (c : ascii) : bool :=
  let n := nat_of_ascii c in
  (Nat.leb 9 n && Nat.leb n 13) || (Nat.leb 28 n && Nat.leb n 32).

Definition lower_ascii (c : ascii) : ascii :=
  let n := nat_of_ascii c in
  if Nat.leb 65 n && Nat.leb n 90 then ascii_of_nat (n + 32) else c.

(** [s.lower()] *)
Fixpoint lower (s : string) : string :=
  match s with
  | EmptyString => EmptyString
  | String c s' => String (lower_ascii c) (lower s')
  end.

Fixpoint lstrip_by (space : ascii -> bool) (s : string) : string :=
  match s with
  | EmptyString => EmptyString
  | String c s' => if space c then lstrip_by space s' else s
  end.

Fixpoint rstrip_by (space : ascii -> bool) (s : string) : string :=
  match s with
  | EmptyString => EmptyString
  | String c s' =>
      match rstrip_by space s' with
      | EmptyString => if space c then EmptyString else String c EmptyString
      | r => String c r
      end
  end.

(** [s.strip()] *)
Definition strip (s : string) : string := rstrip_by is_space (lstrip_by is_space s).

(** [s.startswith(p)] *)
Fixpoint startswith (p s : string) : bool :=
  match p with
  | EmptyString => true
  | String a p' =>
      match s with
      | EmptyString => false
      | String b s' => Ascii.eqb a b && startswith p' s'
      end
  end.

(** [sub in s] *)
Fixpoint contains (sub s : string) : bool :=
  startswith sub s ||
  match s with
  | EmptyString => false
  | String _ s' => contains sub s'
  end.

(** [s.replace(old, new)] for a non-empty [old]: the occurrences are taken
    from the left and do not overlap; [skip] counts the characters of a
    matched occurrence that are still to be passed over. *)
Fixpoint replace_from (old new : string) (skip : nat) (s : string) : string :=
  match s with
  | EmptyString => EmptyString
  | String c s' =>
      match skip with
      | S k => replace_from old new k s'
      | O =>
          if startswith old s
          then new ++ replace_from old new (String.length old - 1) s'
          else String c (replace_from old new 0 s')
      end
  end.

Definition replace (old new s : string) : string := replace_from old new 0 s.

(** [sep.join(l)] *)
Fixpoint join (sep : string) (l : list string) : string :=
  match l with
  | [] => EmptyString
  | [s] => s
  | s :: rest => s ++ sep ++ join sep rest
  end.

(** [str(n)] for a non-negative integer. *)
Definition of_nat (n : nat) : string := NilEmpty.string_of_uint (Nat.to_uint n).

Definition eqb_in (s : string) (l : list string) : bool := existsb (String.eqb s) l.

End PyStr.

(** ** Python numbers: [float(s)], [int(s)], [str(x)]

    [float] and [int] applied to text, and [str] applied to a binary64
    number, as CPython computes them: the conversion from decimal text is
    correctly rounded (to nearest, ties to even), and the text of a number
    is the shortest decimal that reads back as the same number. *)

Module PyNum.
Local Open Scope string_scope.

Definition is_digit (c : ascii) : bool :=
  let n := nat_of_ascii c in Nat.leb 48 n && Nat.leb n 57.

(** The white space [float] and [int] skip around an ASCII text: that of
    C's [isspace], which has not the separators 28-31 of [str.strip]. *)
Definition is_c_space (c : ascii) : bool :=
  let n := nat_of_ascii c in (Nat.leb 9 n && Nat.leb n 13) || Nat.eqb n 32.

Definition strip_c (s : string) : string :=
  PyStr.rstrip_by is_c_space (PyStr.lstrip_by is_c_space s).

Definition digit_val (c : ascii) : Z := Z.of_nat (nat_of_ascii c - 48).

(** Underscores may only stand between two digits; they are removed.
    [prev] is the character read before ([None] at the start). *)
Fixpoint drop_underscores (prev : option ascii) (s : string) : option string :=
  match s with
  | EmptyString =>
      match prev with
      | Some "_"%char => None
      | _ => Some EmptyString
      end
  | String c s' =>
      if Ascii.eqb c "_" then
        match prev with
        | Some p => if is_digit p then drop_underscores (Some c) s' else None
        | None => None
        end
      else
        match prev with
        | Some "_"%char =>
            if is_digit c then option_map (String c) (drop_underscores (Some c) s') else None
        | _ => option_map (String c) (drop_underscores (Some c) s')
        end
  end.

(** The longest prefix of digits: its value after [acc], how many digits
    were read, and what follows. *)
Fixpoint take_digits (s : string) (acc : Z) (n : nat) : Z * nat * string :=
  match s with
  | String c s' =>
      if is_digit c then take_digits s' (10 * acc + digit_val c)%Z (S n) else (acc, n, s)
  | EmptyString => (acc, n, s)
  end.

Definition take_sign (s : string) : bool * string :=
  match s with
  | String "-"%char s' => (true, s')
  | String "+"%char s' => (false, s')
  | _ => (false, s)
  end.

(** The binary64 number nearest to [m * 10^e10] ([m > 0]), as a
    [spec_float]. *)
Definition sf_of_decimal (neg : bool) (m : positive) (e10 : Z) : spec_float :=
  if (0 <=? e10)%Z then binary_round prec emax neg (m * Z.to_pos (10 ^ e10))%positive 0
  else
    let '(q, e, l) := SFdiv_core_binary prec emax (Zpos m) 0 (10 ^ (- e10)) 0 in
    binary_round_aux prec emax neg q e l.

Definition of_decimal (neg : bool) (m : Z) (e10 : Z) : float :=
  match m with
  | Zpos p => SF2Prim (sf_of_decimal neg p e10)
  | _ => if neg then neg_zero else zero
  end.

(** The decimal literal [digits [. digits] [e [sign] digits]]; the exponent
    is only read when it has a digit.  Returns the digits as one integer,
    the power of ten and the number of characters of the mantissa. *)
Definition parse_decimal (s : string) : option (Z * Z * nat) :=
  let '(ip, ni, r1) := take_digits s 0 0 in
  let '(m, nf, r2) :=
    match r1 with
    | String "."%char r => take_digits r ip 0
    | _ => (ip, 0, r1)
    end in
  if Nat.eqb (ni + nf) 0 then None
  else
    match r2 with
    | EmptyString => Some (m, (- Z.of_nat nf)%Z, ni + nf)
    | String c r =>
        if Ascii.eqb c "e" || Ascii.eqb c "E" then
          let '(eneg, r3) := take_sign r in
          match take_digits r3 0 0 with
          | (_, O, _) => None
          | (ev, _, EmptyString) =>
              Some (m, ((if eneg then - ev else ev) - Z.of_nat nf)%Z, ni + nf)
          | _ => None
          end
        else None
    end.

(** [float(s)]; [None] stands for [ValueError]. *)
Definition float_of_string (s : string) : option float :=
  match drop_underscores None (strip_c s) with
  | None => None
  | Some t =>
      let '(neg, body) := take_sign t in
      let low := PyStr.lower body in
      if String.eqb low "inf" || String.eqb low "infinity"
      then Some (if neg then neg_infinity else infinity)
      else if String.eqb low "nan" then Some nan
      else
        match parse_decimal body with
        | None => None
        | Some (m, e10, len) =>
            if (m =? 0)%Z then Some (if neg then neg_zero else zero)
            else if (400 <? e10)%Z then Some (if neg then neg_infinity else infinity)
            else if (e10 + Z.of_nat len <? -400)%Z then Some (if neg then neg_zero else zero)
            else Some (of_decimal neg m e10)
        end
  end.

(** [int(s)]; [None] stands for [ValueError]. *)
Definition int_of_string (s : string) : option Z :=
  match drop_underscores None (strip_c s) with
  | None => None
  | Some t =>
      let '(neg, body) := take_sign t in
      match take_digits body 0 0 with
      | (_, O, _) => None
      | (v, _, EmptyString) => Some (if neg then - v else v)%Z
      | _ => None
      end
  end.

(** [int(x)]: the integer part, towards zero; [None] for NaN and the
    infinities. *)
Definition trunc (x : float) : option Z :=
  match Prim2SF x with
  | S754_zero _ => Some 0%Z
  | S754_finite s m e =>
      let a := match e with
               | Zneg k => (Zpos m / 2 ^ Zpos k)%Z
               | _ => (Zpos m * 2 ^ e)%Z
               end in
      Some (if s then - a else a)%Z
  | _ => None
  end.

Definition dec_string (n : Z) : string := NilEmpty.string_of_uint (N.to_uint (Z.to_N n)).

(** Position of the decimal point of [num/den > 0]: the [k] with
    [10^(k-1) <= num/den < 10^k]. *)
Fixpoint decpt_up (fuel : nat) (q : Z) (k : Z) : Z :=
  match fuel with
  | O => k
  | S f => if (q =? 0)%Z then k else decpt_up f (q / 10)%Z (k + 1)%Z
  end.

Fixpoint decpt_down (fuel : nat) (num den : Z) (k : Z) : Z :=
  match fuel with
  | O => k
  | S f => if (den <=? num)%Z then k else decpt_down f (10 * num)%Z den (k - 1)%Z
  end.

Definition decpt (num den : Z) : Z :=
  if (den <=? num)%Z then decpt_up 400 (num / den)%Z 0 else decpt_down 400 (10 * num)%Z den 0.

Definition sf_eqb (a : spec_float) (m : positive) (e : Z) : bool :=
  match a with
  | S754_finite _ m' e' => Pos.eqb m m' && Z.eqb e e'
  | _ => false
  end.

(** The shortest digit string that reads back as [m * 2^e]: for
    [n = 1, 2, ...] digits, the two [n]-digit decimals around the value are
    tried; when both read back, the nearer is taken. *)
Fixpoint shortest (fuel : nat) (n : Z) (m : positive) (e : Z) (num den k : Z) : Z * Z :=
  let s := (k - n)%Z in
  let lo := if (0 <=? s)%Z then (num / (den * 10 ^ s))%Z else (num * 10 ^ (- s) / den)%Z in
  let hi := (lo + 1)%Z in
  let ok c := sf_eqb (match c with Zpos p => sf_of_decimal false p s | _ => S754_nan end) m e in
  (* 2 * v against (lo + hi) * 10^s: which of the two is nearer; on a tie
     the even one *)
  let lo_nearer :=
    match (if (0 <=? s)%Z then (2 * num ?= (lo + hi) * 10 ^ s * den)%Z
           else (2 * num * 10 ^ (- s) ?= (lo + hi) * den)%Z) with
    | Lt => true
    | Eq => Z.even lo
    | Gt => false
    end in
  let pick :=
    match ok lo, ok hi with
    | true, true => Some (if lo_nearer then lo else hi)
    | true, false => Some lo
    | false, true => Some hi
    | false, false => None
    end in
  match pick, fuel with
  | Some c, _ => (c, s)
  | None, S f => shortest f (n + 1)%Z m e num den k
  | None, O => (lo, s)
  end.

Fixpoint strip_zeros_r (s : string) : string :=
  match s with
  | EmptyString => EmptyString
  | String c s' =>
      match strip_zeros_r s' with
      | EmptyString => if Ascii.eqb c "0" then EmptyString else String c EmptyString
      | r => String c r
      end
  end.

Fixpoint zeros (n : nat) : string :=
  match n with
  | O => EmptyString
  | S k => String "0" (zeros k)
  end.

(** Layout of [repr]: exponent form when the decimal point lies more than
    16 places to the right of the first digit, or 4 or more to its left. *)
Definition format_repr (digits : string) (pt : Z) : string :=
  let len := Z.of_nat (String.length digits) in
  if (pt <=? -4)%Z || (16 <? pt)%Z then
    let ex := (pt - 1)%Z in
    let es := dec_string (Z.abs ex) in
    let es := if Nat.ltb (String.length es) 2 then "0" ++ es else es in
    let mant :=
      match digits with
      | String d EmptyString => String d EmptyString
      | String d rest => String d ("." ++ rest)
      | EmptyString => EmptyString
      end in
    mant ++ "e" ++ (if (ex <? 0)%Z then "-" else "+") ++ es
  else if (pt <=? 0)%Z then "0." ++ zeros (Z.to_nat (- pt)) ++ digits
  else if (len <=? pt)%Z then digits ++ zeros (Z.to_nat (pt - len)) ++ ".0"
  else String.substring 0 (Z.to_nat pt) digits ++ "."
       ++ String.substring (Z.to_nat pt) (Z.to_nat (len - pt)) digits.

(** [str(x)] (the same text as [repr(x)]). *)
Definition str_of_float (x : float) : string :=
  match Prim2SF x with
  | S754_nan => "nan"
  | S754_infinity s => if s then "-inf" else "inf"
  | S754_zero s => if s then "-0.0" else "0.0"
  | S754_finite sg m e =>
      let num := match e with Zneg _ => Zpos m | _ => (Zpos m * 2 ^ e)%Z end in
      let den := match e with Zneg k => (2 ^ Zpos k)%Z | _ => 1%Z end in
      let k := decpt num den in
      let '(c, s) := shortest 17 1 m e num den k in
      let all := dec_string c in
      let pt := (s + Z.of_nat (String.length all))%Z in
      (if sg then "-" else "") ++ format_repr (strip_zeros_r all) pt
  end.

End PyNum.

(** ** Binary64 helpers *)

Module F64.

(** The sum of a numeric column is numpy's [ndarray.sum], which
    [Series.sum], [Series.mean] and [Series.std] call: its pairwise
    summation.  Fewer than 8 numbers are added one after the other.  Up to
    128 numbers are added in 8 interleaved partial sums ([r[j]] takes the
    numbers at the positions [j], [8 + j], [16 + j], ...), the partial sums
    are added in pairs, and the numbers behind the last full block of 8 are
    added one after the other.  A longer column is cut near its middle, at
    a multiple of 8, and the sums of the two parts are added. *)
Fixpoint add_each (r a : list float) : list float :=
  match r, a with
  | x :: r', y :: a' => (x + y)%float :: add_each r' a'
  | _, _ => []
  end.

(** The loop over the full blocks of 8 behind the first one: the partial
    sums and the numbers not yet added. *)
Fixpoint accumulate (blocks : nat) (r l : list float) : list float * list float :=
  match blocks with
  | O => (r, l)
  | S k => accumulate k (add_each r (firstn 8 l)) (skipn 8 l)
  end.

(** A column of 8 to 128 numbers. *)
Definition sum_block (l : list float) : float :=
  let '(r, rest) := accumulate (List.length l / 8 - 1) (firstn 8 l) (skipn 8 l) in
  match r with
  | [r0; r1; r2; r3; r4; r5; r6; r7] =>
      fold_left PrimFloat.add rest
        (((r0 + r1) + (r2 + r3)) + ((r4 + r5) + (r6 + r7)))%float
  | _ => nan
  end.

(** [fuel] bounds the number of cuts; the length of the column is
    enough.  The short loop starts from [-0.0], which leaves every first
    number as it is. *)
Fixpoint pairwise_sum (fuel : nat) (l : list float) : float :=
  let n := List.length l in
  if Nat.ltb n 8 then fold_left PrimFloat.add l neg_zero
  else if Nat.leb n 128 then sum_block l
  else
    match fuel with
    | O => sum_block l
    | S f =>
        let n2 := n / 2 - (n / 2) mod 8 in
        (pairwise_sum f (firstn n2 l) + pairwise_sum f (skipn n2 l))%float
    end.

(** The sum of nothing is [0.0]. *)
Definition fsum (l : list float) : float :=
  match l with
  | [] => 0%float
  | _ => pairwise_sum (List.length l) l
  end.

(** A row count as a binary64 number (exact below 2^53). *)
Definition of_nat (n : nat) : float := PrimFloat.of_uint63 (Uint63.of_Z (Z.of_nat n)).

Definition notnan (x : float) : bool := negb (PrimFloat.is_nan x).

(** pandas replaces the missing entries by [0.0] before it adds up. *)
Definition nan_to_zero (x : float) : float := if PrimFloat.is_nan x then 0%float else x.

Definition count (l : list float) : nat := List.length (filter notnan l).

(** [Series.mean()]: the sum of the present values over their number; NaN
    when nothing is present. *)
Definition mean (l : list float) : float :=
  let n := count l in
  if Nat.ltb 0 n then (fsum (map nan_to_zero l) / of_nat n)%float else nan.

(** [Series.var(ddof)], pandas' two-pass algorithm: with [count <= ddof] both
    the count and the divisor are NaN. *)
Definition var (ddof : nat) (l : list float) : float :=
  let n := count l in
  let cnt := if Nat.leb n ddof then nan else of_nat n in
  let d := if Nat.leb n ddof then nan else (of_nat n - of_nat ddof)%float in
  let avg := (fsum (map nan_to_zero l) / cnt)%float in
  let sqr := map (fun x => if PrimFloat.is_nan x then 0%float
                           else ((avg - x) * (avg - x))%float) l in
  (fsum sqr / d)%float.

(** [Series.std()], whose default is [ddof = 1]. *)
Definition std (l : list float) : float := PrimFloat.sqrt (var 1 l).

End F64.

(** ** Anomaly detector *)

(** [detect_anomalies(df, column="amount", threshold=3)] on the amount
    column. *)
Definition detect_anomalies (amounts : list float) (threshold : float) : list bool :=
  let mean := F64.mean amounts in
  let std := F64.std amounts in
  if (std =? 0)%float then map (fun _ => false) amounts
  else map (fun x => (threshold <? PrimFloat.abs ((x - mean) / std))%float) amounts.

Definition default_threshold : float := 3%float.

(** The two standard deviations of a set without missing amounts, from the
    mean [m]: the sample one divides by [n - 1], the population one by
    [n]. *)
Definition squared_deviations (l : list float) : list float :=
  map (fun a => ((F64.mean l - a) * (F64.mean l - a))%float) l.

Definition sample_std (l : list float) : float :=
  PrimFloat.sqrt (F64.fsum (squared_deviations l) / (F64.of_nat (List.length l) - 1))%float.

Definition population_std (l : list float) : float :=
  PrimFloat.sqrt (F64.fsum (squared_deviations l) / F64.of_nat (List.length l))%float.

(** The anomaly detector as the specification words it: the population
    standard deviation, and a flag when it is not zero and the z-score
    exceeds the threshold. *)
Definition spec_detect_anomalies (amounts : list float) (threshold : float) : list bool :=
  let mean := F64.mean amounts in
  let std := population_std amounts in
  map (fun x => negb (std =? 0)%float
                && (threshold <? PrimFloat.abs ((x - mean) / std))%float) amounts.

(** ** Cells, data frames and errors *)

(** A cell holds text or a binary64 number; a missing value is the number
    NaN, as in pandas. *)
Inductive cell : Type :=
  | CStr (s : string)
  | CNum (x : float).

Definition missing : cell := CNum nan.

(** [pd.isna(c)] and [pd.notna(c)] *)
Definition isna (c : cell) : bool :=
  match c with
  | CNum x => PrimFloat.is_nan x
  | CStr _ => false
  end.

Definition notna (c : cell) : bool := negb (isna c).

(** [str(c)] *)
Definition py_str (c : cell) : string :=
  match c with
  | CStr s => s
  | CNum x => PyNum.str_of_float x
  end.

(** The table the caller hands over: column labels, which a promoted
    header row makes arbitrary cells, and the rows under the default
    index [0, 1, 2, ...]. *)
Record DataFrame : Type := mkDataFrame {
  columns : list cell;
  rows : list (list cell)
}.

(** A table with text labels, kept column by column; [nrows] is [len(df)]. *)
Record Frame : Type := mkFrame {
  cols : list (string * list cell);
  nrows : nat
}.

Definition labels (f : Frame) : list string := map fst (cols f).

(** The exceptions [load_and_clean_expenses] and its caller can end with. *)
Inductive error : Type :=
  | NoCsvProvided
      (* ValueError("No CSV file provided") *)
  | DebitCreditError
      (* ValueError("Error processing debit/credit columns: ...") *)
  | DebitError
      (* ValueError("Error processing debit column: ...") *)
  | CreditError
      (* ValueError("Error processing credit column: ...") *)
  | MissingColumns (required available : list string)
      (* ValueError("CSV must contain columns like: {required}\n
                     Available columns: {available}") *)
  | PandasError
      (* an exception raised inside pandas that nothing catches *).

Inductive result (A : Type) : Type :=
  | Ok (a : A)
  | Err (e : error).

Arguments Ok {A} a.
Arguments Err {A} e.

Definition bind {A B : Type} (r : result A) (k : A -> result B) : result B :=
  match r with
  | Ok a => k a
  | Err e => Err e
  end.

Notation "x <- r ;; k" := (bind r (fun x => k))
  (at level 61, r at next level, right associativity).

(** ** Header normalizer *)

Definition header_keywords : list string :=
  ["trans"; "date"; "description"; "debit"; "credit"; "narration"].

(** [' '.join([str(val).lower() for val in row.values if pd.notna(val)])] *)
Definition row_str (row : list cell) : string :=
  PyStr.join " " (map (fun val => PyStr.lower (py_str val)) (filter notna row)).

Definition is_header_row (row : list cell) : bool :=
  existsb (fun keyword => PyStr.contains keyword (row_str row)) header_keywords.

(** The loop over [range(min(20, len(df)))]: the first header row among the
    next [n] rows, with the rows below it. *)
Fixpoint scan_header (n : nat) (rs : list (list cell)) : option (list cell * list (list cell)) :=
  match n, rs with
  | S n', row :: below =>
      if is_header_row row then Some (row, below) else scan_header n' below
  | _, _ => None
  end.

Definition detect_and_skip_header (df : DataFrame) : DataFrame :=
  match scan_header 20 (rows df) with
  | Some (row, below) => {| columns := row; rows := below |}
  | None => df
  end.

(** The header normalizer as the specification words it: the keyword list
    it names, the rest as in the code. *)
Definition spec_header_keywords : list string :=
  ["transaction"; "date"; "description"; "debit"; "credit"; "narration"].

Definition spec_is_header_row (row : list cell) : bool :=
  existsb (fun keyword => PyStr.contains keyword (row_str row)) spec_header_keywords.

Fixpoint spec_scan_header (n : nat) (rs : list (list cell)) : option (list cell * list (list cell)) :=
  match n, rs with
  | S n', row :: below =>
      if spec_is_header_row row then Some (row, below) else spec_scan_header n' below
  | _, _ => None
  end.

Definition spec_detect_and_skip_header (df : DataFrame) : DataFrame :=
  match spec_scan_header 20 (rows df) with
  | Some (row, below) => {| columns := row; rows := below |}
  | None => df
  end.

(** ** Column mapper: labels *)

Definition column_at (i : nat) (rs : list (list cell)) : list cell :=
  map (fun r => nth i r missing) rs.

(** [str(c).strip().lower()] *)
Definition normalize_label (c : cell) : string := PyStr.lower (PyStr.strip (py_str c)).

(** The frame with its labels standardised (lines 81-89). *)
Definition standardize_columns (df : DataFrame) : Frame :=
  {| cols := map (fun ic => (normalize_label (snd ic), column_at (fst ic) (rows df)))
                 (combine (seq 0 (List.length (columns df))) (columns df));
     nrows := List.length (rows df) |}.

(** [cols[cols.duplicated()]]: every occurrence after the first one. *)
Fixpoint duplicated (seen l : list string) : list string :=
  match l with
  | [] => []
  | x :: r =>
      if PyStr.eqb_in x seen then x :: duplicated seen r else duplicated (x :: seen) r
  end.

(** [.unique()]: the distinct values in the order of their first occurrence. *)
Fixpoint unique (seen l : list string) : list string :=
  match l with
  | [] => []
  | x :: r => if PyStr.eqb_in x seen then unique seen r else x :: unique (x :: seen) r
  end.

(** One round of the loop of line 93: the [i]-th occurrence of [dup] becomes
    [dup.i], the occurrence 0 stays. *)
Fixpoint number_dups (dup : string) (i : nat) (l : list string) : list string :=
  match l with
  | [] => []
  | x :: r =>
      if String.eqb x dup
      then (if Nat.eqb i 0 then dup else (dup ++ "." ++ PyStr.of_nat i)%string)
           :: number_dups dup (S i) r
      else x :: number_dups dup i r
  end.

Definition dedup_labels (l : list string) : list string :=
  fold_left (fun cs dup => number_dups dup 0 cs) (unique [] (duplicated [] l)) l.

Definition relabel (new : list string) (f : Frame) : Frame :=
  {| cols := combine new (map snd (cols f)); nrows := nrows f |}.

(** ** Column mapper: dropping columns *)

(** [df.dropna(axis=1, how='all')] *)
Definition drop_empty_columns (f : Frame) : Frame :=
  {| cols := filter (fun c => existsb notna (snd c)) (cols f); nrows := nrows f |}.

Definition is_unnamed (l : string) : bool := PyStr.contains "unnamed" (PyStr.lower l).

Definition count_label (l : string) (ls : list string) : nat :=
  List.length (filter (String.eqb l) ls).

(** [df[l]] for a label that occurs once. *)
Fixpoint get_column (l : string) (cs : list (string * list cell)) : list cell :=
  match cs with
  | [] => []
  | (l', c) :: r => if String.eqb l' l then c else get_column l r
  end.

Definition na_count (c : list cell) : nat := List.length (filter isna c).

(** The loop of lines 101-106.  With a repeated unnamed label [df[col]] is
    a frame, and the truth value of the comparison raises. *)
Fixpoint unnamed_to_drop (f : Frame) (ls : list string) : result (list string) :=
  match ls with
  | [] => Ok []
  | col :: r =>
      if is_unnamed col then
        if Nat.ltb 1 (count_label col (labels f)) then Err PandasError
        else
          rest <- unnamed_to_drop f r ;;
          Ok (if Nat.ltb (nrows f) (2 * na_count (get_column col (cols f)))
              then col :: rest else rest)
      else unnamed_to_drop f r
  end.

(** [df.drop(columns=ls)] *)
Definition drop_columns (ls : list string) (f : Frame) : Frame :=
  {| cols := filter (fun c => negb (PyStr.eqb_in (fst c) ls)) (cols f); nrows := nrows f |}.

(** [int(c)], as [astype(int)] converts a cell. *)
Definition cell_int (c : cell) : option Z :=
  match c with
  | CStr s => PyNum.int_of_string s
  | CNum x => PyNum.trunc x
  end.

Definition is_index (c : cell) (i : nat) : bool :=
  match cell_int c with
  | Some z => Z.eqb z (Z.of_nat i)
  | None => false
  end.

Fixpoint all_index (cs : list cell) (i : nat) : bool :=
  match cs with
  | [] => true
  | c :: r => is_index c i && all_index r (S i)
  end.

(** [df[first_col].dropna().astype(int).equals(pd.Series(range(n)))]: the
    present cells are the first [n] cells (so that the index of the
    selection is [0..n-1]) and they convert to [0, 1, ..., n-1]; a failed
    conversion is swallowed by the [except]. *)
Definition is_row_counter (c : list cell) : bool :=
  let present := filter notna c in
  forallb notna (firstn (List.length present) c) && all_index present 0.

(** Lines 111-120. *)
Definition drop_row_counter (f : Frame) : Frame :=
  match cols f with
  | (first_col, c) :: _ =>
      if is_unnamed first_col && is_row_counter c then drop_columns [first_col] f else f
  | [] => f
  end.

(** ** Column mapper: roles *)

(** The rule chain of lines 126-146; [None] leaves the label as it is. *)
Definition column_role (col : string) : option string :=
  let col_clean := PyStr.lower (PyStr.strip col) in
  let col_clean_simple :=
    PyStr.replace "?" "" (PyStr.replace ")" "" (PyStr.replace "(" "" col_clean)) in
  let has k := PyStr.contains k col_clean_simple in
  if has "desc" || has "narration" || has "details" || has "particular" then Some "description"
  else if (has "trans" && has "date") || has "transdate" then
    (if negb (has "value") then Some "date" else None)
  else if has "debit" && negb (has "credit") then Some "debit"
  else if has "credit" && negb (has "debit") then Some "credit"
  else None.

(** [df.rename(columns=mapping)] *)
Definition rename_columns (f : Frame) : Frame :=
  {| cols := map (fun c => (match column_role (fst c) with
                            | Some r => r
                            | None => fst c
                            end, snd c)) (cols f);
     nrows := nrows f |}.

(** ** Column mapper: amount reconciliation *)

(** [df[l] = values]: every column labelled [l] is replaced; a new column
    is appended when there is none. *)
Definition set_column (l : string) (v : list cell) (f : Frame) : Frame :=
  {| cols := if PyStr.eqb_in l (labels f)
             then map (fun c => if String.eqb (fst c) l then (fst c, v) else c) (cols f)
             else cols f ++ [(l, v)];
     nrows := nrows f |}.

Definition float_or_zero (s : string) : float :=
  match PyNum.float_of_string s with
  | Some x => x
  | None => 0%float
  end.

(** A cell of the debit or of the credit column when both are present
    (lines 158-172 and 177-191): [fillna('0')], [replace('--', '0')] on the
    whole cell, [astype(str)], then the loop body. *)
Definition parse_amount (c : cell) : float :=
  let filled := if isna c then CStr "0" else c in
  let replaced := match filled with
                  | CStr s => if String.eqb s "--" then CStr "0" else filled
                  | CNum _ => filled
                  end in
  let val := py_str replaced in
  let clean_val := PyStr.strip (PyStr.replace "--" "0" (PyStr.replace "," "" val)) in
  if String.eqb clean_val "" || String.eqb clean_val "--" then 0%float
  else float_or_zero clean_val.

(** The loop body of the debit-only path (lines 211-217), after
    [fillna('0')]. *)
Definition parse_debit_only (c : cell) : float :=
  let val := if isna c then CStr "0" else c in
  let val_str := PyStr.strip (PyStr.replace "--" "" (PyStr.replace "," "" (py_str val))) in
  if String.eqb val_str "" || String.eqb val_str "0" then 0%float
  else float_or_zero val_str.

(** The loop body of the credit-only path (lines 231-236), after
    [fillna('0').astype(str)]. *)
Definition parse_credit_only (c : cell) : float :=
  let val := py_str (if isna c then CStr "0" else c) in
  let clean_val := PyStr.strip (PyStr.replace "--" "0" (PyStr.replace "," "" val)) in
  if String.eqb clean_val "" then 0%float else float_or_zero clean_val.

Fixpoint map2 {A B C : Type} (f : A -> B -> C) (l1 : list A) (l2 : list B) : list C :=
  match l1, l2 with
  | a :: r1, b :: r2 => f a b :: map2 f r1 r2
  | _, _ => []
  end.

(** What a [for val in df[l]] loop runs over: the cells of the column, or,
    when the label is repeated and [df[l]] is a frame, its labels. *)
Definition iterate_column (l : string) (f : Frame) : list cell :=
  let k := count_label l (labels f) in
  if Nat.eqb k 1 then get_column l (cols f) else repeat (CStr l) k.

(** Lines 154-240.  The temporary columns of the first branch are not
    materialised: they are appended and dropped again before the branch
    ends.  With a repeated [debit] or [credit] label the first branch fails
    when it assigns a frame to a single column. *)
Definition reconcile_amount (f : Frame) : result Frame :=
  let has l := PyStr.eqb_in l (labels f) in
  if has "debit" && has "credit" then
    if Nat.eqb (count_label "debit" (labels f)) 1 && Nat.eqb (count_label "credit" (labels f)) 1
    then
      let debit_amount := map parse_amount (get_column "debit" (cols f)) in
      let credit_amount := map parse_amount (get_column "credit" (cols f)) in
      let amount := map2 (fun c d => CNum (c - d)%float) credit_amount debit_amount in
      Ok (drop_columns ["debit"; "credit"] (set_column "amount" amount f))
    else Err DebitCreditError
  else if has "debit" then
    let debit_values := map parse_debit_only (iterate_column "debit" f) in
    if Nat.eqb (List.length debit_values) (nrows f)
    then Ok (drop_columns ["debit"]
               (set_column "amount" (map (fun x => CNum (- x)%float) debit_values) f))
    else Err DebitError
  else if has "credit" then
    let credit_values := map parse_credit_only (iterate_column "credit" f) in
    if Nat.eqb (List.length credit_values) (nrows f)
    then Ok (drop_columns ["credit"] (set_column "amount" (map CNum credit_values) f))
    else Err CreditError
  else Ok f.

(** ** Column mapper: canonical table and row filters *)

(** A pandas [Timestamp]: nanoseconds since the epoch. *)
Definition Timestamp : Type := Z.

(** A row of the canonical table.  [date] is [None] for [NaT];
    [description] has one cell per column labelled [description] (several
    source columns can be mapped to that label). *)
Record Transaction : Type := mkTransaction {
  date : option Timestamp;
  description : list cell;
  amount : cell
}.

Definition required : list string := ["date"; "description"; "amount"].

Definition columns_named (l : string) (f : Frame) : list (list cell) :=
  map snd (filter (fun c => String.eqb (fst c) l) (cols f)).

(** Row [i] of [df[required]] once the date column is converted. *)
Definition canonical_row (dates : list (option Timestamp)) (f : Frame) (i : nat) : Transaction :=
  {| date := nth i dates None;
     description := map (fun c => nth i c missing) (columns_named "description" f);
     amount := nth i (get_column "amount" (cols f)) missing |}.

Definition is_some {A : Type} (o : option A) : bool :=
  match o with
  | Some _ => true
  | None => false
  end.

(** The rows [df.dropna(subset=["date", "amount", "description"])] keeps. *)
Definition row_complete (t : Transaction) : bool :=
  is_some (date t) && notna (amount t) && forallb notna (description t).

(** [c != 0]: text never equals a number. *)
Definition cell_ne_zero (c : cell) : bool :=
  match c with
  | CNum x => negb (x =? 0)%float
  | CStr _ => true
  end.

Section Cleaning.

(** [pd.read_csv(path)] and [pd.to_datetime(column, errors="coerce")] belong
    to pandas; the second returns one entry per cell, [None] where the cell
    does not parse. *)
Variable read_csv_path : string -> result DataFrame.
Variable to_datetime : list cell -> list (option Timestamp).

(** Lines 65-152: from the input to the table with mapped labels. *)
Definition map_columns (df : DataFrame) (skip_header_detection : bool) : result Frame :=
  let df := if skip_header_detection then df else detect_and_skip_header df in
  let f := standardize_columns df in
  let f := relabel (dedup_labels (labels f)) f in
  let f := drop_empty_columns f in
  cols_to_drop <- unnamed_to_drop f (labels f) ;;
  let f := drop_columns cols_to_drop f in
  let f := drop_row_counter f in
  Ok (rename_columns f).

(** Lines 242-264 on the table with its amount reconciled.  [to_datetime]
    refuses a frame, which is what [df["date"]] is when the label is
    repeated. *)
Definition select_and_filter (f : Frame) : result (list Transaction) :=
  if forallb (fun c => PyStr.eqb_in c (labels f)) required then
    match columns_named "date" f with
    | [d] =>
        let table := map (canonical_row (to_datetime d) f) (seq 0 (nrows f)) in
        Ok (filter (fun t => cell_ne_zero (amount t)) (filter row_complete table))
    | _ => Err PandasError
    end
  else Err (MissingColumns required (labels f)).

(** Lines 65-70. *)
Definition load_input (file_path : option string) (df_override : option DataFrame)
    : result DataFrame :=
  match df_override with
  | Some df => Ok df
  | None =>
      match file_path with
      | None => Err NoCsvProvided
      | Some path => read_csv_path path
      end
  end.

Definition load_and_clean_expenses (file_path : option string) (df_override : option DataFrame)
    (skip_header_detection : bool) : result (list Transaction) :=
  df <- load_input file_path df_override ;;
  mapped <- map_columns df skip_header_detection ;;
  reconciled <- reconcile_amount mapped ;;
  select_and_filter reconciled.

End Cleaning.

(** ** Transaction classifier *)

Definition CATEGORIES : list (string * list string) :=
  [ ("Food & Dining", ["restaurant"; "shawarma"; "kfc"; "mcdonald"; "eat"; "shoprite";
                       "ubereats"; "food"; "cafe"; "pizza"; "chicken"; "burger"]);
    ("Transport", ["uber"; "bolt"; "taxi"; "fuel"; "gas"; "bus"; "transport"; "fare"]);
    ("Utilities", ["electricity"; "water"; "internet"; "dstv"; "mtn"; "data"; "airtime";
                   "nepa"; "phcn"; "ikedc"; "ekedc"]);
    ("Shopping", ["amazon"; "jumia"; "mall"; "shop"; "konga"; "store"; "market"]);
    ("Income", ["salary"; "payroll"; "interest earned"; "bonus"; "credit"; "deposit";
                "transfer in"; "earned"]);
    ("Savings", ["owealth"; "auto-save"; "auto save"; "withdrawal(transaction payment)";
                 "save"; "investment"; "balance"]);
    ("Entertainment", ["netflix"; "dstv"; "cinema"; "movie"; "game"; "spotify"]);
    ("Healthcare", ["hospital"; "pharmacy"; "doctor"; "clinic"; "medical"; "health"]);
    ("Other", []) ].

Section Classifier.

(** [fuzz.partial_ratio] of rapidfuzz: a score between 0 and 100. *)
Variable partial_ratio : string -> string -> float.

(** The body of the inner loop: the running [(best_cat, best_score)]. *)
Definition try_keyword (desc cat : string) (best : string * float) (kw : string) : string * float :=
  let score := partial_ratio (PyStr.lower kw) desc in
  if (snd best <? score)%float && (70 <? score)%float then (cat, score) else best.

Definition try_category (desc : string) (best : string * float) (entry : string * list string)
    : string * float :=
  if String.eqb (fst entry) "Other" then best
  else fold_left (try_keyword desc (fst entry)) (snd entry) best.

Definition best_match (catalog : list (string * list string)) (desc : string) : string * float :=
  fold_left (try_category desc) catalog ("Other", 0%float).

Definition categorize_transaction (description : cell) : string :=
  fst (best_match CATEGORIES (PyStr.lower (py_str description))).

End Classifier.

(** The (category, keyword) pairs in the order the loops visit them. *)
Definition scored_pairs (catalog : list (string * list string)) : list (string * string) :=
  flat_map (fun entry => if String.eqb (fst entry) "Other" then []
                         else map (fun kw => (fst entry, kw)) (snd entry)) catalog.

(** ** Aggregator *)

Record NetFlow : Type := mkNetFlow {
  income : float;
  expenses : float;
  net : float;
  savings_rate : float
}.

Definition calculate_net_flow (amounts : list float) : NetFlow :=
  let income := F64.fsum (filter (fun a => (0 <? a)%float) amounts) in
  let expenses := PrimFloat.abs (F64.fsum (filter (fun a => (a <? 0)%float) amounts)) in
  let net := (income - expenses)%float in
  {| income := income;
     expenses := expenses;
     net := net;
     savings_rate := if (0 <? income)%float then (net / income * 100)%float else 0%float |}.

Record CategoryStat : Type := mkCategoryStat {
  stat_category : string;
  Total : float;
  Average : float;
  Transactions : nat
}.

(** Round half to even to an integer ([numpy.rint]): below 2^52 adding and
    removing 2^52 rounds to the unit, above every number is an integer. *)
Definition rint (x : float) : float :=
  if PrimFloat.is_nan x then x
  else if (PrimFloat.abs x <? 0x1p52)%float then
    let r := (PrimFloat.abs x + 0x1p52 - 0x1p52)%float in
    if PrimFloat.get_sign x then (- r)%float else r
  else x.

(** [round(2)] of numpy: scale, round to an integer, scale back. *)
Definition round2 (x : float) : float := (rint (x * 100) / 100)%float.

Fixpoint insert_key (k : string) (l : list string) : list string :=
  match l with
  | [] => [k]
  | k' :: r => if String.leb k k' then k :: l else k' :: insert_key k r
  end.

(** The group keys: the distinct categories in increasing order. *)
Definition group_keys (ks : list string) : list string :=
  fold_right insert_key [] (unique [] ks).

Definition group_amounts (k : string) (df : list (string * float)) : list float :=
  map snd (filter (fun r => String.eqb (fst r) k) df).

Section CategoryStats.

(** The grouped [sum] and [mean] of pandas over the amounts of one group
    (they skip missing amounts and add with a running compensation), and
    [sort_values('Total', ascending=False)], whose default sorting
    algorithm decides the order of rows of equal total: the three belong
    to the library. *)
Variable group_sum : list float -> float.
Variable group_mean : list float -> float.
Variable sort_values : list CategoryStat -> list CategoryStat.

(** [sum], [mean] and [count] of a group, rounded by [round(2)]. *)
Definition aggregate (df : list (string * float)) (k : string) : CategoryStat :=
  let g := group_amounts k df in
  {| stat_category := k;
     Total := round2 (group_sum g);
     Average := round2 (group_mean g);
     Transactions := F64.count g |}.

(** [df] is given by its [category] and [amount] columns. *)
Definition calculate_category_stats (df : list (string * float)) : list CategoryStat :=
  sort_values (map (aggregate df) (group_keys (map fst df))).

End CategoryStats.

(** ** The pipeline of [app.py] *)

(** The uploaded file: its bytes and the position of the next read. *)
Record UploadedFile : Type := mkUploadedFile {
  content : string;
  position : nat
}.

(** A row of the table [process_data] returns. *)
Record Annotated : Type := mkAnnotated {
  transaction : Transaction;
  category : string;
  is_anomaly : bool;
  month : string
}.

(** The amounts as numbers; a text amount makes [mean()] raise. *)
Fixpoint numeric_amounts (cs : list cell) : option (list float) :=
  match cs with
  | [] => Some []
  | CNum x :: r => option_map (cons x) (numeric_amounts r)
  | CStr _ :: _ => None
  end.

Section Pipeline.

(** [read_csv] is [pd.read_csv(file, skiprows=range(0, n), header=0)]
    applied to the bytes that follow the position of the file, and
    [pd.read_csv(file)] is its case [n = 0]; [read_csv_path] reads from a
    path, which [process_data] never asks for.  [period_month] is
    [.dt.to_period('M').astype(str)]. *)
Variable read_csv : string -> nat -> result DataFrame.
Variable read_csv_path : string -> result DataFrame.
Variable to_datetime : list cell -> list (option Timestamp).
Variable partial_ratio : string -> string -> float.
Variable period_month : option Timestamp -> string.

Definition seek (f : UploadedFile) (pos : nat) : UploadedFile :=
  {| content := content f; position := pos |}.

(** Reading consumes the file from its position to its end. *)
Definition read_file (f : UploadedFile) (skiprows : nat) : result DataFrame * UploadedFile :=
  (read_csv (String.substring (position f) (String.length (content f) - position f) (content f))
            skiprows,
   seek f (String.length (content f))).

(** [df_raw.iloc[:, 1:]] *)
Definition drop_first_column (df : DataFrame) : DataFrame :=
  {| columns := tl (columns df); rows := map (@tl cell) (rows df) |}.

(** Lines 299-301: the three added columns.  With several description
    columns [apply] works column-wise and the assignment of its result
    raises. *)
Definition annotate (df_clean : list Transaction) : result (list Annotated) :=
  match df_clean with
  | [] => Ok []
  | first :: _ =>
      if Nat.eqb (List.length (description first)) 1 then
        match numeric_amounts (map amount df_clean) with
        | Some amounts =>
            let flags := detect_anomalies amounts default_threshold in
            Ok (map2 (fun t flag =>
                        {| transaction := t;
                           category := categorize_transaction partial_ratio
                                         (hd missing (description t));
                           is_anomaly := flag;
                           month := period_month (date t) |})
                     df_clean flags)
        | None => Err PandasError
        end
      else Err PandasError
  end.

Definition process_data (file : UploadedFile) (header_row_idx : option nat) (manual_mode : bool)
    : result (list Annotated) * UploadedFile :=
  let '(df_raw, file) :=
    match manual_mode, header_row_idx with
    | true, Some idx =>
        let '(r, file) := read_file (seek file 0) idx in
        (df <- r ;;
         match columns df with
         | first :: _ =>
             Ok (if PyStr.contains "unnamed" (PyStr.lower (py_str first))
                 then drop_first_column df else df)
         | [] => Err PandasError
         end, file)
    | _, _ => read_file (seek file 0) 0
    end in
  (df <- df_raw ;;
   df_clean <- load_and_clean_expenses read_csv_path to_datetime
                 None (Some df) manual_mode ;;
   annotate df_clean, file).

End Pipeline.

(** ** Notions the statements use *)

(** The sign a finite spec_float carries; [None] for NaN. *)
Definition sf_sign (x : spec_float) : option bool :=
  match x with
  | S754_zero s | S754_infinity s | S754_finite s _ _ => Some s
  | S754_nan => None
  end.

(** Positive and negative numbers, infinities included. *)
Definition sf_pos (x : spec_float) : Prop :=
  match x with
  | S754_infinity false | S754_finite false _ _ => True
  | _ => False
  end.

Definition sf_neg (x : spec_float) : Prop :=
  match x with
  | S754_infinity true | S754_finite true _ _ => True
  | _ => False
  end.

(** Zero of either sign or positive: what [0 <= x] means. *)
Definition sf_nonneg (x : spec_float) : Prop :=
  match x with
  | S754_zero _ | S754_infinity false | S754_finite false _ _ => True
  | _ => False
  end.

Definition sf_nonpos (x : spec_float) : Prop :=
  match x with
  | S754_zero _ | S754_infinity true | S754_finite true _ _ => True
  | _ => False
  end.

(** The place of a number in the order of binary64, as a triple compared
    from the left: the class (infinities outermost, both zeros in the
    middle), then exponent and mantissa, negated for negative numbers.  NaN
    has no place; its triple is never used. *)
Definition sf_key (x : spec_float) : Z * Z * Z :=
  match x with
  | S754_nan | S754_zero _ => (0, 0, 0)
  | S754_infinity false => (2, 0, 0)
  | S754_infinity true => (-2, 0, 0)
  | S754_finite false m e => (1, e, Zpos m)
  | S754_finite true m e => (-1, - e, Zneg m)
  end%Z.

Definition key_lt (a b : Z * Z * Z) : Prop :=
  let '(a1, a2, a3) := a in
  let '(b1, b2, b3) := b in
  (a1 < b1 \/ (a1 = b1 /\ (a2 < b2 \/ (a2 = b2 /\ a3 < b3))))%Z.

Definition key_le (a b : Z * Z * Z) : Prop :=
  let '(a1, a2, a3) := a in
  let '(b1, b2, b3) := b in
  (a1 < b1 \/ (a1 = b1 /\ (a2 < b2 \/ (a2 = b2 /\ a3 <= b3))))%Z.

Definition fkey (x : float) : Z * Z * Z := sf_key (Prim2SF x).

(** Numbers that are [+0.0] or NaN, and numbers that are a zero or NaN. *)
Definition pzero_or_nan (y : float) : Prop :=
  Prim2SF y = S754_zero false \/ Prim2SF y = S754_nan.

Definition zero_or_nan (y : float) : Prop :=
  (exists s, Prim2SF y = S754_zero s) \/ Prim2SF y = S754_nan.

(** ** Bounds on binary64 numbers

    [dle m1 e1 m2 e2] says that [m1 * 2^e1] is at most [m2 * 2^e2], for
    integers [m1] and [m2] and exponents of either sign: both sides are
    counted in units of the smaller power of two. *)
Definition dle (m1 e1 m2 e2 : Z) : Prop :=
  (m1 * 2 ^ (e1 - Z.min e1 e2) <= m2 * 2 ^ (e2 - Z.min e1 e2))%Z.

(** The second step of [binary_round_aux]: a mantissa that the rounding
    moved up to [2^53] is renormalised, and the result is packed. *)
Definition finish (sx : bool) (m e : Z) : spec_float :=
  let '(mrs, e') := shr_fexp prec emax m e loc_Exact in
  match shr_m mrs with
  | Z0 => S754_zero sx
  | Zpos p => if (e' <=? emax - prec)%Z then S754_finite sx p e' else S754_infinity sx
  | Zneg _ => S754_nan
  end.

(** [f] is [+inf] or a positive number that is at least [mb * 2^eb]. *)
Definition sf_ge (f : spec_float) (mb eb : Z) : Prop :=
  match f with
  | S754_infinity false => True
  | S754_finite false m e => dle mb eb (Zpos m) e
  | _ => False
  end.

(** [f] is NaN, a zero, or a positive number that is at most 2. *)
Definition sf_le2 (f : spec_float) : Prop :=
  match f with
  | S754_nan | S754_zero _ => True
  | S754_finite false m e => dle (Zpos m) e 1 1
  | _ => False
  end.

(** Row [a] may stand before row [b]: the total of [b] is not larger. *)
Definition total_ge (a b : CategoryStat) : Prop := (Total b <=? Total a)%float = true.

(** What every sorting algorithm gives [sort_values('Total',
    ascending=False)]: the same rows, those with a total first, in
    decreasing order of the totals, those without behind them. *)
Definition sorts_by_total (sort_values : list CategoryStat -> list CategoryStat) : Prop :=
  forall l,
    Permutation (sort_values l) l
    /\ exists present absent,
         sort_values l = present ++ absent
         /\ StronglySorted total_ge present
         /\ Forall (fun r => F64.notnan (Total r) = true) present
         /\ Forall (fun r => PrimFloat.is_nan (Total r) = true) absent.

(** [v] is a binary64 sum of the numbers of [l], each taken once: the
    numbers are added in some order and with some bracketing, every
    addition rounded.  The sum of nothing is [0.0]. *)
Inductive float_sum : list float -> float -> Prop :=
  | float_sum_nil : float_sum [] 0%float
  | float_sum_one (x : float) : float_sum [x] x
  | float_sum_add (l1 l2 : list float) (a b : float) :
      float_sum l1 a -> float_sum l2 b -> float_sum (l1 ++ l2) (a + b)%float
  | float_sum_perm (l l' : list float) (a : float) :
      Permutation l l' -> float_sum l a -> float_sum l' a.

(** The text of a cell once the commas are gone. *)
Definition amount_of_text (t : string) : float :=
  let clean_val := PyStr.strip (PyStr.replace "--" "0" t) in
  if String.eqb clean_val "" || String.eqb clean_val "--" then 0%float
  else float_or_zero clean_val.

(** Does the text have a full stop?  A label numbered by [number_dups] has
    one, the label [amount] has none. *)
Fixpoint has_dot (s : string) : bool :=
  match s with
  | EmptyString => false
  | String c s' => Ascii.eqb c "." || has_dot s'
  end.

Section ClassifierNotions.

Variable partial_ratio : string -> string -> float.
Variable desc : string.

(** The score of a pair against the case-folded description [desc]. *)
Definition pair_score (p : string * string) : float := partial_ratio (PyStr.lower (snd p)) desc.

(** One turn of the inner loop on the pair [p]. *)
Definition try_pair (best : string * float) (p : string * string) : string * float :=
  try_keyword partial_ratio desc (fst p) best (snd p).

(** What the loops have established after the pairs [seen]: no pair scores
    above 70 and the result is still "Other", or the result is the first
    pair of the highest score. *)
Definition scan_state (seen : list (string * string)) (best : string * float) : Prop :=
  ((forall p, In p seen -> (70 <? pair_score p)%float = false) /\ best = ("Other", 0%float))
  \/ exists i p,
       nth_error seen i = Some p /\ best = (fst p, pair_score p)
       /\ (70 <? pair_score p)%float = true
       /\ (forall q, In q seen -> (pair_score q <=? pair_score p)%float = true)
       /\ (forall j q, j < i -> nth_error seen j = Some q ->
             (pair_score q <? pair_score p)%float = true).

End ClassifierNotions.

(** ** Sample inputs and stand-ins for the library calls *)

(** A stand-in for the fuzzy score, enough to run the classifier: 100 when
    the keyword occurs in the description, 0 otherwise. *)
Definition substring_ratio (kw desc : string) : float :=
  if PyStr.contains kw desc then 100%float else 0%float.

(** Six rows of bank metadata above the header row of a statement. *)
Definition statement_with_preamble : DataFrame :=
  {| columns := [CStr "Unnamed: 0"; CStr "Unnamed: 1"; CStr "Unnamed: 2"; CStr "Unnamed: 3"];
     rows := [ [CStr "Wallet Account"; missing; missing; missing];
               [CStr "Name"; CStr "ADA OBI"; missing; missing];
               [missing; missing; missing; missing];
               [CStr "Opening Balance"; CNum 1500; missing; missing];
               [CStr "Closing Balance"; CNum 900; missing; missing];
               [missing; missing; missing; missing];
               [CStr "Trans. Date"; CStr "Description"; CStr "Debit"; CStr "Credit"];
               [CStr "01 Jan 2024"; CStr "Uber Trip Lagos"; CStr "1,000.00"; CStr "--"];
               [CStr "02 Jan 2024"; CStr "Salary"; CStr "--"; CStr "2,500"] ] |}.

(** A table whose first row mentions transfers and whose second row is the
    header. *)
Definition transfers_above_header : DataFrame :=
  {| columns := [CStr "Unnamed: 0"; CStr "Unnamed: 1"];
     rows := [ [CStr "Transfers"; missing];
               [CStr "Date"; CStr "Narration"];
               [CStr "01 Jan 2024"; CStr "Salary"] ] |}.

(** The three rows of the specification's example, after the labels are
    mapped. *)
Definition debit_credit_example : Frame :=
  {| cols := [ ("date", [CStr "01 Jan 2024"; CStr "02 Jan 2024"; CStr "03 Jan 2024"]);
               ("description", [CStr "Uber Trip Lagos"; CStr "Salary"; CStr "Bonus"]);
               ("debit", [CStr "1000"; CStr "0"; CStr "--"]);
               ("credit", [CStr "0"; CStr "1000"; CStr "2,500"]) ];
     nrows := 3 |}.

(** A stand-in for [pd.to_datetime], enough to run the pipeline: a text
    [YYYY-MM-DD] parses to the number [YYYYMMDD], nothing else parses. *)
Definition iso_day (c : cell) : option Timestamp :=
  match c with
  | CStr s => PyNum.int_of_string (PyStr.replace "-" "" s)
  | CNum _ => None
  end.

Definition iso_to_datetime (d : list cell) : list (option Timestamp) := map iso_day d.

(** No file is read from a path in the runs below. *)
Definition no_csv (path : string) : result DataFrame := Err PandasError.

(** A statement with no date column. *)
Definition statement_without_date : DataFrame :=
  {| columns := [CStr "Description"; CStr "Debit"; CStr "Credit"];
     rows := [ [CStr "Uber Trip Lagos"; CStr "1,000.00"; CStr "--"];
               [CStr "Salary"; CStr "--"; CStr "2,500"] ] |}.

(** A statement whose amount column is text: pandas reads the whole column
    as text as soon as one amount has a thousands separator. *)
Definition text_amount_statement : DataFrame :=
  {| columns := [CStr "Trans Date"; CStr "Description"; CStr "Amount"];
     rows := [ [CStr "2024-01-01"; CStr "Opening"; CStr "0"];
               [CStr "2024-01-02"; CStr "Salary"; CStr "1,000"] ] |}.

(** Ten amounts around 20 and one of 130: 3.0015 population standard
    deviations from the mean, 2.86 sample standard deviations. *)
Definition near_threshold_amounts : list float :=
  [9; 9; 9; 9; 9; 31; 31; 31; 31; 31; 130]%float.

(** Three equal amounts of 0.1 (the nearest binary64 number). *)
Definition three_tenths : list float :=
  [0x1.999999999999ap-4; 0x1.999999999999ap-4; 0x1.999999999999ap-4]%float.

(** 99 equal amounts of about 8.6e-147: the mean pandas computes is off by
    three units in the last place, and the squares of the deviations fall
    among the subnormal numbers. *)
Definition tiny_equal_amounts : list float :=
  repeat 0x1.b8d226fe97027p-486%float 99.

(** Stand-ins for the grouped sum and mean, enough to run the statistics:
    the present amounts added one after the other, and that sum over their
    number. *)
Definition plain_sum (g : list float) : float :=
  fold_left PrimFloat.add (filter F64.notnan g) 0%float.

Definition plain_mean (g : list float) : float :=
  if Nat.ltb 0 (F64.count g) then (plain_sum g / F64.of_nat (F64.count g))%float else nan.

(** A stand-in for [sort_values('Total', ascending=False)]: an insertion
    sort that keeps rows of equal total in their former order and puts
    missing totals last. *)
Fixpoint insert_desc (x : CategoryStat) (l : list CategoryStat) : list CategoryStat :=
  match l with
  | [] => [x]
  | y :: r => if (Total x <? Total y)%float then y :: insert_desc x r else x :: l
  end.

Definition insertion_sort_desc (l : list CategoryStat) : list CategoryStat :=
  fold_right insert_desc [] (filter (fun r => F64.notnan (Total r)) l)
  ++ filter (fun r => PrimFloat.is_nan (Total r)) l.


(** The example of the specification. *)
Definition three_categories : list (string * float) :=
  [("Income", 50000); ("Food", -12000); ("Transport", -8000)]%float.

(** A statement with its header in the first row of the table, a stand-in
    for [pd.read_csv] that returns it for any bytes but none, and a stand-in
    for the month of a date. *)
Definition iso_statement : DataFrame :=
  {| columns := [CStr "Unnamed: 0"; CStr "Unnamed: 1"; CStr "Unnamed: 2"; CStr "Unnamed: 3"];
     rows := [ [CStr "Trans. Date"; CStr "Description"; CStr "Debit"; CStr "Credit"];
               [CStr "2024-01-01"; CStr "Uber Trip Lagos"; CStr "1,000.00"; CStr "--"];
               [CStr "2024-01-02"; CStr "Salary"; CStr "--"; CStr "2,500"];
               [CStr "2024-01-03"; CStr "Reversal"; CStr "--"; CStr "--"] ] |}.

Definition sample_read_csv (bytes : string) (skiprows : nat) : result DataFrame :=
  if String.eqb bytes "" then Err PandasError
  else Ok {| columns := columns iso_statement; rows := skipn skiprows (rows iso_statement) |}.

Definition sample_month (d : option Timestamp) : string :=
  match d with
  | Some t => PyNum.dec_string (t / 100)
  | None => "NaT"
  end.

(** ** Aggregator: monthly statistics *)

(** A row of the table [calculate_monthly_stats] returns: the index label
    and the columns [Total], [Average] and [Count]. *)
Module Monthly.

Record Stat : Type := mkStat {
  year_month : string;
  Total : float;
  Average : float;
  Count : nat
}.

End Monthly.

(** Insertion into an increasing list of distinct period ordinals. *)
Fixpoint insert_period (k : Z) (l : list Z) : list Z :=
  match l with
  | [] => [k]
  | k' :: r =>
      if (k <? k')%Z then k :: l
      else if (k =? k')%Z then l
      else k' :: insert_period k r
  end.

(** The group keys of [groupby('year_month')]: the distinct periods in
    increasing order. *)
Definition period_keys (ks : list Z) : list Z := fold_right insert_period [] ks.

Section MonthlyStats.

(** [to_period] is [.dt.to_period('M')] on a date that is not [NaT], as the
    ordinal of the month (pandas counts the months since January 1970), and
    [period_str] is the text of a period ([astype(str)]).  [group_sum] and
    [group_mean] are the grouped [sum] and [mean] of pandas over the amounts
    of one group. *)
Variable to_period : Timestamp -> Z.
Variable period_str : Z -> string.
Variable group_sum : list float -> float.
Variable group_mean : list float -> float.

(** The periods of the rows; a row without a date has none, and [groupby]
    leaves it out. *)
Definition row_periods (df : list (option Timestamp * float)) : list Z :=
  flat_map (fun r => match fst r with
                     | Some t => [to_period t]
                     | None => []
                     end) df.

Definition in_period (k : Z) (r : option Timestamp * float) : bool :=
  match fst r with
  | Some t => Z.eqb (to_period t) k
  | None => false
  end.

Definition period_amounts (k : Z) (df : list (option Timestamp * float)) : list float :=
  map snd (filter (in_period k) df).

(** [df] is given by its [date] and [amount] columns. *)
Definition calculate_monthly_stats (df : list (option Timestamp * float)) : list Monthly.Stat :=
  map (fun k =>
         let g := period_amounts k df in
         {| Monthly.year_month := period_str k;
            Monthly.Total := round2 (group_sum g);
            Monthly.Average := round2 (group_mean g);
            Monthly.Count := F64.count g |})
      (period_keys (row_periods df)).

End MonthlyStats.

(** ** The key statistics of [app.py] *)

Section KeyStats.

(** [group_sum] is the grouped [sum] of pandas over the amounts of one
    category. *)
Variable group_sum : list float -> float.




End KeyStats.

(** ** The budget tracker of [app.py] *)






Section Budget.

(** [period_month] is [.to_period('M')] followed by [str], and
    [minus_one_month] is [ts - pd.DateOffset(months=1)]. *)
Variable period_month : option Timestamp -> string.
Variable minus_one_month : option Timestamp -> option Timestamp.



End Budget.




(** ** Further notions the statements use *)

(** Every column of the frame has one cell per row. *)
Definition well_formed (f : Frame) : Prop :=
  Forall (fun c => List.length (snd c) = nrows f) (cols f).

Fixpoint all_chars (p : ascii -> bool) (s : string) : bool :=
  match s with
  | EmptyString => true
  | String c s' => p c && all_chars p s'
  end.

(** The characters of the text of a number ([str] of a float), and the
    blank that [join] puts between two of them. *)
Definition number_char (c : ascii) : bool :=
  PyNum.is_digit c || existsb (Ascii.eqb c) [" "; "."; "-"; "+"; "e"; "i"; "n"; "f"; "a"]%char.

(** * Facts about binary64 arithmetic

    Everything below is derived from the specification of the primitive
    operations ([FloatAxioms]) over [spec_float]. *)

Module F64Facts.

Lemma is_nan_spec (x : float) : PrimFloat.is_nan x = true <-> Prim2SF x = S754_nan.
Proof.
  unfold Prim2SF. destruct (PrimFloat.is_nan x); split; intro H; try reflexivity; try discriminate.
  destruct (is_zero x); [discriminate|].
  destruct (is_infinity x); [discriminate|].
  destruct (Z.frexp x) as [r e].
  destruct (shr_fexp prec emax _ _ _) as [m e'].
  destruct (shr_m m); discriminate.
Qed.

Lemma notnan_spec (x : float) : F64.notnan x = true <-> Prim2SF x <> S754_nan.
Proof.
  unfold F64.notnan. rewrite negb_true_iff, <- is_nan_spec.
  destruct (PrimFloat.is_nan x); split; congruence.
Qed.

Lemma div_nan_r (x : float) : (x / nan)%float = nan.
Proof.
  apply Prim2SF_inj. rewrite div_spec.
  change (Prim2SF nan) with S754_nan.
  destruct (Prim2SF x); reflexivity.
Qed.

Lemma ltb_nan_r (x : float) : (x <? nan)%float = false.
Proof.
  rewrite ltb_spec. change (Prim2SF nan) with S754_nan.
  destruct (Prim2SF x); reflexivity.
Qed.

(** *** Signs of rounded results *)

Lemma shr_1_nonneg (mrs : shr_record) : (0 <= shr_m mrs)%Z -> (0 <= shr_m (shr_1 mrs))%Z.
Proof.
  destruct mrs as [m r s]. simpl. intro H.
  destruct m as [|p|p]; [simpl; lia | destruct p; simpl; lia | lia].
Qed.

Lemma iter_shr_1_nonneg (p : positive) :
  forall mrs, (0 <= shr_m mrs)%Z -> (0 <= shr_m (iter_pos shr_1 p mrs))%Z.
Proof.
  induction p as [p IH|p IH|]; intros mrs H; simpl.
  - apply IH, IH, shr_1_nonneg, H.
  - apply IH, IH, H.
  - apply shr_1_nonneg, H.
Qed.

Lemma shr_fexp_nonneg (m e : Z) (l : location) :
  (0 <= m)%Z -> (0 <= shr_m (fst (shr_fexp prec emax m e l)))%Z.
Proof.
  intro H. unfold shr_fexp, shr.
  assert (H0 : (0 <= shr_m (shr_record_of_loc m l))%Z).
  { destruct l as [|[]]; simpl; exact H. }
  destruct (fexp prec emax (Zdigits2 m + e) - e)%Z; simpl; auto.
  apply iter_shr_1_nonneg, H0.
Qed.

Lemma round_nearest_even_nonneg (m : Z) (l : location) :
  (0 <= m)%Z -> (0 <= round_nearest_even m l)%Z.
Proof.
  intro H. destruct l as [|[]]; simpl; try lia.
  destruct (Z.even m); lia.
Qed.

Lemma binary_round_aux_sign (sx : bool) (mx ex : Z) (lx : location) :
  (0 <= mx)%Z -> sf_sign (binary_round_aux prec emax sx mx ex lx) = Some sx.
Proof.
  intro H. unfold binary_round_aux.
  pose proof (shr_fexp_nonneg mx ex lx H) as H1.
  destruct (shr_fexp prec emax mx ex lx) as [mrs' e']. simpl in H1.
  pose proof (shr_fexp_nonneg _ e' loc_Exact
                (round_nearest_even_nonneg _ (loc_of_shr_record mrs') H1)) as H2.
  destruct (shr_fexp prec emax (round_nearest_even _ _) e' loc_Exact) as [mrs'' e''].
  simpl in H2. destruct (shr_m mrs'') as [|p|p]; try reflexivity.
  - destruct (e'' <=? emax - prec)%Z; reflexivity.
  - lia.
Qed.

Lemma binary_round_sign (sx : bool) (mx : positive) (ex : Z) :
  sf_sign (binary_round prec emax sx mx ex) = Some sx.
Proof.
  unfold binary_round. destruct (shl_align mx ex _) as [mz ez].
  apply binary_round_aux_sign. lia.
Qed.

(** *** Positive and negative numbers under addition *)

Lemma sign_false_nonneg (x : spec_float) : sf_sign x = Some false -> sf_nonneg x.
Proof. destruct x as [s|s| |s m e]; simpl; intro H; inversion H; subst; exact I. Qed.

Lemma sign_true_nonpos (x : spec_float) : sf_sign x = Some true -> sf_nonpos x.
Proof. destruct x as [s|s| |s m e]; simpl; intro H; inversion H; subst; exact I. Qed.

Lemma SFadd_nonneg_pos (x y : spec_float) :
  sf_nonneg x -> sf_pos y -> sf_nonneg (SF64add x y).
Proof.
  destruct x as [sx|[]| |[] mx ex]; destruct y as [sy|[]| |[] my ey];
    simpl; try contradiction; try (intros; exact I).
  intros _ _. apply sign_false_nonneg.
  unfold SF64add, SFadd, binary_normalize. simpl cond_Zopp.
  apply binary_round_sign.
Qed.

Lemma SFadd_nonpos_neg (x y : spec_float) :
  sf_nonpos x -> sf_neg y -> sf_nonpos (SF64add x y).
Proof.
  destruct x as [sx|[]| |[] mx ex]; destruct y as [sy|[]| |[] my ey];
    simpl; try contradiction; try (intros; exact I).
  intros _ _. apply sign_true_nonpos.
  unfold SF64add, SFadd, binary_normalize. simpl cond_Zopp.
  apply binary_round_sign.
Qed.









(** *** The sum of a column is a sum of its numbers *)

Lemma add_neg_zero_l (x : float) : (neg_zero + x)%float = x.
Proof.
  apply Prim2SF_inj. rewrite add_spec.
  change (Prim2SF neg_zero) with (S754_zero true).
  destruct (Prim2SF x) as [[]|[]| |[] m e]; reflexivity.
Qed.

Lemma float_sum_fold (l : list float) :
  forall l0 acc,
    float_sum l0 acc -> float_sum (l0 ++ l) (fold_left PrimFloat.add l acc).
Proof.
  induction l as [|x l IH]; intros l0 acc H; cbn [fold_left].
  - rewrite app_nil_r. exact H.
  - replace (l0 ++ x :: l) with ((l0 ++ [x]) ++ l) by (rewrite <- app_assoc; reflexivity).
    apply IH. apply float_sum_add; [exact H|apply float_sum_one].
Qed.

Lemma float_sum_short (l : list float) :
  l <> [] -> float_sum l (fold_left PrimFloat.add l neg_zero).
Proof.
  destruct l as [|x l]; [congruence|]. intros _.
  cbn [fold_left]. rewrite add_neg_zero_l.
  apply (float_sum_fold l [x] x), float_sum_one.
Qed.

Lemma add_each_length (r : list float) :
  forall a, List.length a = List.length r ->
            List.length (F64.add_each r a) = List.length r.
Proof.
  induction r as [|x r IH]; intros [|y a] H; try discriminate; [reflexivity|].
  cbn [F64.add_each List.length]. rewrite IH; [reflexivity|]. injection H as H. exact H.
Qed.

(** The partial sums [r] are sums of the lists [parts]. *)
Lemma add_each_sums (parts : list (list float)) (r : list float) :
  Forall2 float_sum parts r ->
  forall a, List.length a = List.length r ->
    exists parts',
      Forall2 float_sum parts' (F64.add_each r a)
      /\ Permutation (List.concat parts') (List.concat parts ++ a).
Proof.
  induction 1 as [|p x parts r Hp _ IH]; intros a Ha.
  - destruct a; [|discriminate]. exists []. split; [constructor|reflexivity].
  - destruct a as [|y a]; [discriminate|]. injection Ha as Ha.
    destruct (IH a Ha) as (parts' & H1 & H2).
    exists ((p ++ [y]) :: parts'). cbn [F64.add_each List.concat]. split.
    + constructor; [|exact H1]. apply float_sum_add; [exact Hp|apply float_sum_one].
    + rewrite H2, <- !app_assoc. apply Permutation_app_head.
      cbn [app]. apply Permutation_middle.
Qed.

Lemma accumulate_sums (blocks : nat) :
  forall (parts : list (list float)) (r l : list float),
    Forall2 float_sum parts r -> List.length r = 8 -> 8 * blocks <= List.length l ->
    exists parts',
      Forall2 float_sum parts' (fst (F64.accumulate blocks r l))
      /\ List.length (fst (F64.accumulate blocks r l)) = 8
      /\ Permutation (List.concat parts' ++ snd (F64.accumulate blocks r l))
           (List.concat parts ++ l).
Proof.
  induction blocks as [|k IH]; intros parts r l Hp Hr Hl; cbn [F64.accumulate fst snd].
  - exists parts. split; [exact Hp|]. split; [exact Hr|reflexivity].
  - assert (H8 : List.length (firstn 8 l) = 8) by (rewrite length_firstn; lia).
    destruct (add_each_sums parts r Hp (firstn 8 l)) as (parts1 & H1 & H2);
      [congruence|].
    assert (Hr1 : List.length (F64.add_each r (firstn 8 l)) = 8)
      by (rewrite add_each_length; congruence).
    destruct (IH parts1 _ (skipn 8 l) H1 Hr1) as (parts' & H3 & H5 & H4);
      [rewrite length_skipn; lia|].
    exists parts'. split; [exact H3|]. split; [exact H5|].
    rewrite H4, H2, <- app_assoc, firstn_skipn. reflexivity.
Qed.

Lemma singletons_sums (r : list float) : Forall2 float_sum (map (fun a => [a]) r) r.
Proof. induction r as [|x r IH]; constructor; [apply float_sum_one|exact IH]. Qed.

Lemma concat_singletons (r : list float) : List.concat (map (fun a => [a]) r) = r.
Proof. induction r as [|x r IH]; [reflexivity|]. cbn [map List.concat app]. rewrite IH. reflexivity. Qed.

Lemma sum_block_sum (l : list float) :
  8 <= List.length l -> float_sum l (F64.sum_block l).
Proof.
  intros Hn. unfold F64.sum_block.
  assert (H8 : List.length (firstn 8 l) = 8) by (rewrite length_firstn; lia).
  destruct (accumulate_sums (List.length l / 8 - 1) _ (firstn 8 l) (skipn 8 l)
              (singletons_sums _) H8) as (parts & Hp & Hlen & Hperm).
  { rewrite length_skipn. pose proof (Nat.Div0.mul_div_le (List.length l) 8). lia. }
  destruct (F64.accumulate (List.length l / 8 - 1) (firstn 8 l) (skipn 8 l)) as [r rest].
  cbn [fst snd] in *.
  rewrite concat_singletons, firstn_skipn in Hperm.
  destruct r as [|r0 [|r1 [|r2 [|r3 [|r4 [|r5 [|r6 [|r7 [|r8 r]]]]]]]]]; try discriminate.
  repeat match goal with
         | H : Forall2 _ _ (_ :: _) |- _ => inversion H; subst; clear H
         | H : Forall2 _ _ [] |- _ => inversion H; subst; clear H
         end.
  eapply float_sum_perm; [|apply float_sum_fold;
    repeat first [apply float_sum_add | eassumption]].
  rewrite <- Hperm. cbn [List.concat]. rewrite app_nil_r, <- !app_assoc. reflexivity.
Qed.

Lemma pairwise_sum_sum (fuel : nat) :
  forall l, l <> [] -> float_sum l (F64.pairwise_sum fuel l).
Proof.
  induction fuel as [|f IH]; intros l Hl; cbn [F64.pairwise_sum].
  - destruct (Nat.ltb_spec (List.length l) 8); [apply float_sum_short, Hl|].
    destruct (Nat.leb (List.length l) 128); apply sum_block_sum; assumption.
  - destruct (Nat.ltb_spec (List.length l) 8); [apply float_sum_short, Hl|].
    destruct (Nat.leb_spec (List.length l) 128); [apply sum_block_sum; assumption|].
    set (n2 := List.length l / 2 - (List.length l / 2) mod 8).
    assert (Hn2 : 0 < n2 < List.length l).
    { unfold n2. pose proof (Nat.mod_upper_bound (List.length l / 2) 8).
      pose proof (Nat.Div0.mul_div_le (List.length l) 2).
      assert (64 <= List.length l / 2)
        by (apply (Nat.div_le_lower_bound (List.length l) 2 64); lia).
      lia. }
    rewrite <- (firstn_skipn n2 l) at 1.
    apply float_sum_add; apply IH; intros E; apply (f_equal (@List.length float)) in E;
      [rewrite length_firstn in E|rewrite length_skipn in E]; cbn [List.length] in E; lia.
Qed.

Lemma fsum_float_sum (l : list float) : float_sum l (F64.fsum l).
Proof.
  unfold F64.fsum. destruct l as [|x l]; [apply float_sum_nil|].
  apply pairwise_sum_sum. discriminate.
Qed.





(** *** The order of the numbers

    Every number but NaN gets a key, and the comparisons of binary64 are
    the lexicographic order of the keys. *)

Ltac key_cases :=
  repeat match goal with
  | |- context [Z.compare ?a ?b] => destruct (Z.compare_spec a b)
  | |- context [Pos.compare_cont Eq ?a ?b] =>
      change (Pos.compare_cont Eq a b) with (Pos.compare a b);
      destruct (Pos.compare_spec a b)
  end.

Ltac key_solve :=
  unfold key_le, key_lt; simpl;
  split; intro;
  first [ reflexivity | discriminate | lia | exfalso; lia ].

Ltac key_arith :=
  repeat match goal with
  | a : (Z * Z * Z)%type |- _ => destruct a as [[? ?] ?]
  end;
  unfold key_le, key_lt in *; lia.

Lemma SFltb_key (x y : spec_float) :
  x <> S754_nan -> y <> S754_nan ->
  (SFltb x y = true <-> key_lt (sf_key x) (sf_key y)).
Proof.
  intros Hx Hy. unfold SFltb, SFcompare.
  destruct x as [sx|[]| |[] mx ex]; destruct y as [sy|[]| |[] my ey];
    try congruence; simpl; key_cases; subst; key_solve.
Qed.

Lemma SFleb_key (x y : spec_float) :
  x <> S754_nan -> y <> S754_nan ->
  (SFleb x y = true <-> key_le (sf_key x) (sf_key y)).
Proof.
  intros Hx Hy. unfold SFleb, SFcompare.
  destruct x as [sx|[]| |[] mx ex]; destruct y as [sy|[]| |[] my ey];
    try congruence; simpl; key_cases; subst; key_solve.
Qed.

Lemma ltb_key (a b : float) :
  F64.notnan a = true -> F64.notnan b = true ->
  ((a <? b)%float = true <-> key_lt (fkey a) (fkey b)).
Proof.
  intros Ha Hb. rewrite ltb_spec. apply SFltb_key; apply notnan_spec; assumption.
Qed.

Lemma leb_key (a b : float) :
  F64.notnan a = true -> F64.notnan b = true ->
  ((a <=? b)%float = true <-> key_le (fkey a) (fkey b)).
Proof.
  intros Ha Hb. rewrite leb_spec. apply SFleb_key; apply notnan_spec; assumption.
Qed.

Lemma key_total (a b : Z * Z * Z) : key_lt a b \/ key_le b a.
Proof. key_arith. Qed.

Lemma key_lt_le (a b : Z * Z * Z) : key_lt a b -> key_le a b.
Proof. key_arith. Qed.

Lemma key_le_refl (a : Z * Z * Z) : key_le a a.
Proof. key_arith. Qed.

Lemma key_le_trans (a b c : Z * Z * Z) : key_le a b -> key_le b c -> key_le a c.
Proof. key_arith. Qed.

Lemma key_le_lt_trans (a b c : Z * Z * Z) : key_le a b -> key_lt b c -> key_lt a c.
Proof. key_arith. Qed.

Lemma key_lt_le_trans (a b c : Z * Z * Z) : key_lt a b -> key_le b c -> key_lt a c.
Proof. key_arith. Qed.

Lemma ltb_notnan (a b : float) :
  (a <? b)%float = true -> F64.notnan a = true /\ F64.notnan b = true.
Proof.
  rewrite ltb_spec, !notnan_spec. unfold SFltb, SFcompare.
  destruct (Prim2SF a) as [sx|[]| |[] mx ex]; destruct (Prim2SF b) as [sy|[]| |[] my ey];
    intro H; try discriminate; split; discriminate.
Qed.

Lemma ltb_false_leb (a b : float) :
  F64.notnan a = true -> F64.notnan b = true ->
  (a <? b)%float = false -> (b <=? a)%float = true.
Proof.
  intros Ha Hb H. apply leb_key; auto.
  destruct (key_total (fkey a) (fkey b)) as [Hlt|Hle]; [|exact Hle].
  apply ltb_key in Hlt; auto. congruence.
Qed.

Lemma leb_notnan (a b : float) :
  (a <=? b)%float = true -> F64.notnan a = true /\ F64.notnan b = true.
Proof.
  rewrite leb_spec, !notnan_spec. unfold SFleb, SFcompare.
  destruct (Prim2SF a) as [sx|[]| |[] mx ex]; destruct (Prim2SF b) as [sy|[]| |[] my ey];
    intro H; try discriminate; split; discriminate.
Qed.

Lemma leb_refl (a : float) : F64.notnan a = true -> (a <=? a)%float = true.
Proof. intro H. apply leb_key; auto. apply key_le_refl. Qed.

Lemma ltb_leb (a b : float) : (a <? b)%float = true -> (a <=? b)%float = true.
Proof.
  intro H. destruct (ltb_notnan _ _ H) as [Ha Hb].
  apply leb_key; auto. apply key_lt_le. apply ltb_key; auto.
Qed.

Lemma ltb_trans (a b c : float) :
  (a <? b)%float = true -> (b <? c)%float = true -> (a <? c)%float = true.
Proof.
  intros H1 H2. destruct (ltb_notnan _ _ H1) as [Ha Hb]. destruct (ltb_notnan _ _ H2) as [_ Hc].
  apply ltb_key; auto. apply ltb_key in H1; auto. apply ltb_key in H2; auto.
  eapply key_lt_le_trans; [exact H1|]. apply key_lt_le, H2.
Qed.

Lemma leb_ltb_trans (a b c : float) :
  (a <=? b)%float = true -> (b <? c)%float = true -> (a <? c)%float = true.
Proof.
  intros H1 H2. destruct (leb_notnan _ _ H1) as [Ha Hb]. destruct (ltb_notnan _ _ H2) as [_ Hc].
  apply ltb_key; auto. apply leb_key in H1; auto. apply ltb_key in H2; auto.
  eapply key_le_lt_trans; eassumption.
Qed.

Lemma leb_trans (a b c : float) :
  (a <=? b)%float = true -> (b <=? c)%float = true -> (a <=? c)%float = true.
Proof.
  intros H1 H2. destruct (leb_notnan _ _ H1) as [Ha Hb]. destruct (leb_notnan _ _ H2) as [_ Hc].
  apply leb_key; auto. apply leb_key in H1; auto. apply leb_key in H2; auto.
  eapply key_le_trans; eassumption.
Qed.

End F64Facts.

Import F64Facts.

(** * Rounding to binary64

    Bounds on the results of the binary64 operations, derived from their
    specification over [spec_float]: what an operation returns is the exact
    result cut to the grid of the format and moved up by at most one unit,
    so it does not cross a binary64 number that bounds the exact result. *)

Module Rounding.
Local Open Scope Z_scope.

(** ** Powers of two and the order of the numbers [m * 2^e] *)

Lemma pow2_pos (k : Z) : 0 <= k -> 0 < 2 ^ k.
Proof. intro H. apply Z.pow_pos_nonneg; lia. Qed.

Lemma pow2_sub (a c k : Z) : c <= k -> k <= a -> 2 ^ (a - c) = 2 ^ (a - k) * 2 ^ (k - c).
Proof. intros H1 H2. rewrite <- Z.pow_add_r by lia. f_equal. lia. Qed.

(** The order does not depend on the unit [2^c] both sides are counted in. *)
Lemma dle_iff (c m1 e1 m2 e2 : Z) :
  c <= e1 -> c <= e2 ->
  (dle m1 e1 m2 e2 <-> m1 * 2 ^ (e1 - c) <= m2 * 2 ^ (e2 - c)).
Proof.
  intros H1 H2. unfold dle. set (k := Z.min e1 e2).
  assert (Hk : c <= k) by (unfold k; lia).
  rewrite (pow2_sub e1 c k), (pow2_sub e2 c k) by (unfold k; lia).
  rewrite !Z.mul_assoc.
  pose proof (pow2_pos (k - c) ltac:(lia)) as Hp.
  split; intro H.
  - apply Z.mul_le_mono_nonneg_r; lia.
  - apply Z.mul_le_mono_pos_r in H; lia.
Qed.

(** ** The number of bits of a mantissa *)

Lemma digits2_pos_bounds (p : positive) :
  2 ^ (Zpos (digits2_pos p) - 1) <= Zpos p < 2 ^ Zpos (digits2_pos p).
Proof.
  induction p as [p IH|p IH|]; cbn [digits2_pos].
  - rewrite Pos2Z.inj_succ. replace (Z.succ (Zpos (digits2_pos p)) - 1) with (Z.succ (Zpos (digits2_pos p) - 1)) by lia.
    rewrite !Z.pow_succ_r by lia. lia.
  - rewrite Pos2Z.inj_succ. replace (Z.succ (Zpos (digits2_pos p)) - 1) with (Z.succ (Zpos (digits2_pos p) - 1)) by lia.
    rewrite !Z.pow_succ_r by lia. lia.
  - simpl. lia.
Qed.

Lemma Zdigits2_bounds (m : Z) :
  0 < m -> 2 ^ (Zdigits2 m - 1) <= m < 2 ^ Zdigits2 m.
Proof. destruct m as [|p|p]; try lia. intros _. apply digits2_pos_bounds. Qed.

Lemma Zdigits2_pos (m : Z) : 0 < m -> 0 < Zdigits2 m.
Proof. destruct m; simpl; lia. Qed.

Lemma Zdigits2_unique (m k : Z) :
  0 < m -> 2 ^ (k - 1) <= m < 2 ^ k -> Zdigits2 m = k.
Proof.
  intros Hm [H1 H2]. pose proof (Zdigits2_bounds m Hm) as [H3 H4].
  pose proof (Zdigits2_pos m Hm) as Hd.
  assert (Hk : 0 < k).
  { destruct (Z_lt_le_dec 0 k) as [|Hk]; [assumption|].
    rewrite (Z.pow_neg_r 2 k) in H2 by (destruct (Z.eq_dec k 0); [subst; simpl in H2; lia | lia]). lia. }
  assert (Zdigits2 m - 1 < k).
  { apply (Z.pow_lt_mono_r_iff 2); lia. }
  assert (k - 1 < Zdigits2 m).
  { apply (Z.pow_lt_mono_r_iff 2); lia. }
  lia.
Qed.

(** ** The steps of rounding

    Shifting the mantissa to the right is division by a power of two. *)
Lemma shr_1_m (mrs : shr_record) :
  0 <= shr_m mrs -> shr_m (shr_1 mrs) = shr_m mrs / 2.
Proof.
  destruct mrs as [m r s]. cbn [shr_m]. intro H.
  destruct m as [|[p|p|]|p]; cbn [shr_1 shr_m]; try lia.
  - reflexivity.
  - rewrite (Pos2Z.inj_xI p). apply (Z.div_unique _ _ _ 1); lia.
  - rewrite (Pos2Z.inj_xO p). apply (Z.div_unique _ _ _ 0); lia.
  - reflexivity.
Qed.

Lemma shr_1_nonneg' (mrs : shr_record) : 0 <= shr_m mrs -> 0 <= shr_m (shr_1 mrs).
Proof. intro H. rewrite shr_1_m by exact H. apply Z.div_pos; lia. Qed.

Lemma iter_pos_shr_m (p : positive) (mrs : shr_record) :
  0 <= shr_m mrs ->
  shr_m (iter_pos shr_1 p mrs) = shr_m mrs / 2 ^ Zpos p.
Proof.
  revert mrs. induction p as [p IH|p IH|]; intros mrs H; cbn [iter_pos].
  - assert (H1 : 0 <= shr_m (shr_1 mrs)) by (apply shr_1_nonneg'; exact H).
    assert (H2 : 0 <= shr_m (iter_pos shr_1 p (shr_1 mrs))).
    { rewrite IH by exact H1. apply Z.div_pos; [lia|apply pow2_pos; lia]. }
    rewrite IH by exact H2. rewrite IH by exact H1. rewrite shr_1_m by exact H.
    rewrite !Z.div_div by (try lia; apply pow2_pos; lia).
    f_equal. rewrite (Pos2Z.inj_xI p).
    replace (2 * Zpos p + 1) with (1 + Zpos p + Zpos p) by lia.
    rewrite !Z.pow_add_r by lia. simpl (2 ^ 1). lia.
  - assert (H2 : 0 <= shr_m (iter_pos shr_1 p mrs)).
    { rewrite IH by exact H. apply Z.div_pos; [lia|apply pow2_pos; lia]. }
    rewrite IH by exact H2. rewrite IH by exact H.
    rewrite !Z.div_div by (try lia; apply pow2_pos; lia).
    f_equal. rewrite (Pos2Z.inj_xO p).
    replace (2 * Zpos p) with (Zpos p + Zpos p) by lia.
    rewrite !Z.pow_add_r by lia. lia.
  - rewrite shr_1_m by exact H. reflexivity.
Qed.

Lemma shr_record_of_loc_m (m : Z) (l : location) : shr_m (shr_record_of_loc m l) = m.
Proof. destruct l as [|[]]; reflexivity. Qed.

Lemma fexp_eq (e : Z) : fexp prec emax e = Z.max (e - 53) (-1074).
Proof. reflexivity. Qed.

(** The first step of rounding: the mantissa on the grid of the result. *)
Lemma shr_fexp_m (m e : Z) (l : location) :
  0 <= m ->
  let e' := Z.max e (fexp prec emax (Zdigits2 m + e)) in
  shr_m (fst (shr_fexp prec emax m e l)) = m / 2 ^ (e' - e)
  /\ snd (shr_fexp prec emax m e l) = e'.
Proof.
  intros Hm e'. unfold shr_fexp, shr.
  destruct (fexp prec emax (Zdigits2 m + e) - e) as [|p|p] eqn:E; cbn [fst snd].
  - replace (e' - e) with 0 by (unfold e'; lia). rewrite shr_record_of_loc_m.
    simpl. rewrite Z.div_1_r. split; [reflexivity|unfold e'; lia].
  - rewrite iter_pos_shr_m by (rewrite shr_record_of_loc_m; exact Hm).
    rewrite shr_record_of_loc_m.
    replace (e' - e) with (Zpos p) by (unfold e'; lia). split; [reflexivity|unfold e'; lia].
  - replace (e' - e) with 0 by (unfold e'; lia). rewrite shr_record_of_loc_m.
    simpl. rewrite Z.div_1_r. split; [reflexivity|unfold e'; lia].
Qed.

Lemma shr_fexp_exact (m e : Z) :
  fexp prec emax (Zdigits2 m + e) <= e ->
  shr_fexp prec emax m e loc_Exact = ({| shr_m := m; shr_r := false; shr_s := false |}, e).
Proof.
  intro H. unfold shr_fexp, shr.
  destruct (fexp prec emax (Zdigits2 m + e) - e) as [|p|p] eqn:E; try reflexivity. lia.
Qed.

Lemma round_nearest_even_bounds (m : Z) (l : location) :
  m <= round_nearest_even m l <= m + 1.
Proof. destruct l as [|[]]; cbn [round_nearest_even]; try lia. destruct (Z.even m); lia. Qed.

(** ** The shape of a rounded number *)

Lemma pow2_le (a b : Z) : 0 <= a -> a <= b -> 2 ^ a <= 2 ^ b.
Proof. intros. apply Z.pow_le_mono_r; lia. Qed.

Lemma pow2_lt (a b : Z) : 0 <= a -> a < b -> 2 ^ a < 2 ^ b.
Proof. intros. apply Z.pow_lt_mono_r; lia. Qed.

Lemma binary_round_aux_finish (sx : bool) (mx ex : Z) (lx : location) :
  binary_round_aux prec emax sx mx ex lx
  = finish sx (round_nearest_even (shr_m (fst (shr_fexp prec emax mx ex lx)))
                 (loc_of_shr_record (fst (shr_fexp prec emax mx ex lx))))
      (snd (shr_fexp prec emax mx ex lx)).
Proof.
  unfold binary_round_aux, finish.
  destruct (shr_fexp prec emax mx ex lx) as [mrs e']. reflexivity.
Qed.

Lemma finish_cases (sx : bool) (m e : Z) :
  0 <= m <= 2 ^ 53 -> -1074 <= e ->
  (m = 0 /\ finish sx m e = S754_zero sx)
  \/ exists m' e', e <= e' <= e + 1 /\ (e' = e \/ m = 2 ^ 53)
       /\ Zpos m' * 2 ^ (e' - e) = m
       /\ finish sx m e = if (e' <=? 971)%Z then S754_finite sx m' e' else S754_infinity sx.
Proof.
  intros [Hm0 Hm] He.
  destruct (Z.eq_dec m 0) as [->|Hnz].
  - left. split; [reflexivity|]. unfold finish.
    rewrite shr_fexp_exact; [reflexivity|]. rewrite fexp_eq. simpl Zdigits2. lia.
  - right. destruct (Z.eq_dec m (2 ^ 53)) as [->|Hne].
    + exists (2 ^ 52)%positive, (e + 1). split; [lia|]. split; [right; reflexivity|]. split.
      { replace (e + 1 - e) with 1 by lia. reflexivity. }
      unfold finish.
      pose proof (shr_fexp_m (2 ^ 53) e loc_Exact ltac:(lia)) as [H1 H2].
      destruct (shr_fexp prec emax (2 ^ 53) e loc_Exact) as [mrs e'].
      cbn [fst snd] in H1, H2.
      change (Zdigits2 (2 ^ 53)) with 54 in H1, H2. rewrite fexp_eq in H1, H2.
      replace (Z.max e (Z.max (54 + e - 53) (-1074))) with (e + 1) in H1, H2 by lia.
      replace (e + 1 - e) with 1 in H1 by lia.
      rewrite H1, H2. reflexivity.
    + assert (Hpos : 0 < m) by lia.
      pose proof (Zdigits2_bounds m Hpos) as [Hd1 Hd2].
      pose proof (Zdigits2_pos m Hpos) as Hd.
      assert (Hd53 : Zdigits2 m <= 53).
      { assert (Zdigits2 m - 1 < 53); [|lia].
        apply (Z.pow_lt_mono_r_iff 2); lia. }
      destruct m as [|p|p]; try lia.
      exists p, e. split; [lia|]. split; [left; reflexivity|]. split.
      { rewrite Z.sub_diag. simpl. lia. }
      unfold finish. rewrite shr_fexp_exact; [reflexivity|].
      rewrite fexp_eq. lia.
Qed.

(** The shape of a rounded number: the mantissa is cut to the grid of the
    result, moved up by at most one, and a carry is renormalised. *)
Lemma binary_round_aux_cases (sx : bool) (mx ex : Z) (lx : location) :
  0 <= mx ->
  let e' := Z.max ex (fexp prec emax (Zdigits2 mx + ex)) in
  let m1 := mx / 2 ^ (e' - ex) in
  exists m2, m1 <= m2 <= m1 + 1
    /\ ((m2 = 0 /\ binary_round_aux prec emax sx mx ex lx = S754_zero sx)
        \/ exists m3 e'', e' <= e'' <= e' + 1 /\ (e'' = e' \/ m2 = 2 ^ 53)
             /\ Zpos m3 * 2 ^ (e'' - e') = m2
             /\ binary_round_aux prec emax sx mx ex lx
                = if (e'' <=? 971)%Z then S754_finite sx m3 e'' else S754_infinity sx).
Proof.
  intros Hm e' m1. rewrite binary_round_aux_finish.
  pose proof (shr_fexp_m mx ex lx Hm) as [H1 H2]. fold e' in H1, H2. fold m1 in H1.
  rewrite H1, H2.
  set (m2 := round_nearest_even m1 (loc_of_shr_record (fst (shr_fexp prec emax mx ex lx)))).
  pose proof (round_nearest_even_bounds m1
                (loc_of_shr_record (fst (shr_fexp prec emax mx ex lx)))) as Hb.
  fold m2 in Hb. exists m2. split; [exact Hb|].
  assert (He' : -1074 <= e') by (unfold e'; rewrite fexp_eq; lia).
  assert (Hm1 : 0 <= m1 < 2 ^ 53).
  { unfold m1. split.
    - apply Z.div_pos; [lia|apply pow2_pos; unfold e'; lia].
    - destruct (Z.eq_dec mx 0) as [->|Hnz].
      + rewrite Z.div_0_l; [lia|]. pose proof (pow2_pos (e' - ex) ltac:(unfold e'; lia)). lia.
      + apply Z.div_lt_upper_bound; [apply pow2_pos; unfold e'; lia|].
        pose proof (Zdigits2_bounds mx ltac:(lia)) as [_ Hd].
        pose proof (Zdigits2_pos mx ltac:(lia)) as Hdp.
        rewrite <- Z.pow_add_r by (unfold e'; lia).
        eapply Z.lt_le_trans; [exact Hd|].
        apply pow2_le; [lia|]. unfold e'. rewrite fexp_eq. lia. }
  apply finish_cases; lia.
Qed.

(** A mantissa that is on the grid already is not rounded. *)
Lemma binary_round_aux_exact (sx : bool) (m : positive) (e : Z) :
  fexp prec emax (Zdigits2 (Zpos m) + e) <= e -> e <= 971 ->
  binary_round_aux prec emax sx (Zpos m) e loc_Exact = S754_finite sx m e.
Proof.
  intros H He. unfold binary_round_aux. rewrite shr_fexp_exact by exact H.
  cbn [shr_m loc_of_shr_record round_nearest_even].
  rewrite shr_fexp_exact by exact H. cbn [shr_m].
  change (emax - prec) with 971. destruct (Z.leb_spec e 971); [reflexivity|lia].
Qed.

(** Rounding is monotone against a binary64 number below: a number that is
    at least [mb * 2^eb] is rounded to at least that. *)
Lemma round_lower (sx : bool) (mx ex : Z) (lx : location) (mb eb : Z) :
  0 < mx -> 0 < mb < 2 ^ 53 -> -1074 <= eb -> dle mb eb mx ex ->
  binary_round_aux prec emax sx mx ex lx = S754_infinity sx
  \/ exists m e, binary_round_aux prec emax sx mx ex lx = S754_finite sx m e
                 /\ dle mb eb (Zpos m) e.
Proof.
  intros Hmx Hmb Heb Hle.
  pose proof (binary_round_aux_cases sx mx ex lx ltac:(lia)) as H. cbv zeta in H.
  set (e' := Z.max ex (fexp prec emax (Zdigits2 mx + ex))) in *.
  set (m1 := mx / 2 ^ (e' - ex)) in *.
  destruct H as (m2 & Hm2 & Hres).
  set (c := Z.min eb ex).
  assert (Hcb : c <= eb) by (unfold c; lia).
  assert (Hcx : c <= ex) by (unfold c; lia).
  apply (proj1 (dle_iff c mb eb mx ex Hcb Hcx)) in Hle.
  assert (Hcm : c = eb \/ c = ex) by (unfold c; lia).
  clearbody c.
  assert (He' : ex <= e') by (unfold e'; lia).
  pose proof (pow2_pos (e' - c) ltac:(lia)) as HG.
  pose proof (pow2_pos (eb - c) ltac:(lia)) as HB.
  pose proof (pow2_pos (e' - ex) ltac:(lia)) as HS.
  assert (Hkey : mb * 2 ^ (eb - c) <= m1 * 2 ^ (e' - c)).
  { destruct (Z.eq_dec e' ex) as [Heq|Hne].
    - unfold m1. rewrite Heq, Z.sub_diag. simpl (2 ^ 0). rewrite Z.div_1_r.
      rewrite Heq in *. exact Hle.
    - assert (Hfe : e' = fexp prec emax (Zdigits2 mx + ex)) by (unfold e' in *; lia).
      rewrite fexp_eq in Hfe.
      destruct (Z_le_gt_dec e' eb) as [Hge|Hlt].
      + assert (Hc : c = ex) by lia. subst c.
        rewrite Z.sub_diag in Hle. simpl (2 ^ 0) in Hle. rewrite Z.mul_1_r in Hle.
        rewrite (pow2_sub eb ex e') in * by lia.
        rewrite Z.mul_assoc in *.
        apply Z.mul_le_mono_nonneg_r; [lia|].
        unfold m1. apply Z.div_le_lower_bound; lia.
      + pose proof (Zdigits2_bounds mx Hmx) as [Hd _].
        assert (Hm1 : 2 ^ 52 <= m1).
        { unfold m1. apply Z.div_le_lower_bound; [lia|].
          rewrite <- Z.pow_add_r by lia.
          eapply Z.le_trans; [|exact Hd]. apply pow2_le; lia. }
        assert (2 ^ 53 * 2 ^ (eb - c) <= 2 ^ 52 * 2 ^ (e' - c)).
        { rewrite <- !Z.pow_add_r by lia. apply pow2_le; lia. }
        assert (mb * 2 ^ (eb - c) <= 2 ^ 53 * 2 ^ (eb - c)) by (apply Z.mul_le_mono_nonneg_r; lia).
        assert (2 ^ 52 * 2 ^ (e' - c) <= m1 * 2 ^ (e' - c)) by (apply Z.mul_le_mono_nonneg_r; lia).
        lia. }
  assert (Hm2le : m1 * 2 ^ (e' - c) <= m2 * 2 ^ (e' - c)) by (apply Z.mul_le_mono_nonneg_r; lia).
  assert (Hpos : 0 < mb * 2 ^ (eb - c)) by (apply Z.mul_pos_pos; lia).
  destruct Hres as [[H0 _]|(m3 & e'' & He'' & Hcarry & Hm3 & Hr)].
  - rewrite H0 in Hm2le. lia.
  - rewrite Hr. destruct (e'' <=? 971)%Z; [right|left; reflexivity].
    exists m3, e''. split; [reflexivity|].
    apply (proj2 (dle_iff c mb eb (Zpos m3) e'' Hcb ltac:(lia))).
    rewrite (pow2_sub e'' c e') by lia.
    rewrite Z.mul_assoc, Hm3. lia.
Qed.

(** Rounding is monotone against a binary64 number above: a number that
    lies below [mb * 2^eb] is rounded to at most that. *)
Lemma round_upper (sx : bool) (mx ex : Z) (lx : location) (mb eb : Z) :
  0 <= mx -> 0 < mb < 2 ^ 53 -> -1074 <= eb <= 971 -> ex < 971 ->
  dle (mx + 1) ex mb eb ->
  binary_round_aux prec emax sx mx ex lx = S754_zero sx
  \/ exists m e, binary_round_aux prec emax sx mx ex lx = S754_finite sx m e
                 /\ dle (Zpos m) e mb eb.
Proof.
  intros Hmx Hmb Heb Hex Hle.
  pose proof (binary_round_aux_cases sx mx ex lx Hmx) as H. cbv zeta in H.
  set (e' := Z.max ex (fexp prec emax (Zdigits2 mx + ex))) in *.
  set (m1 := mx / 2 ^ (e' - ex)) in *.
  destruct H as (m2 & Hm2 & Hres).
  set (c := Z.min eb ex).
  assert (Hcb : c <= eb) by (unfold c; lia).
  assert (Hcx : c <= ex) by (unfold c; lia).
  apply (proj1 (dle_iff c (mx + 1) ex mb eb Hcx Hcb)) in Hle.
  assert (Hcm : c = eb \/ c = ex) by (unfold c; lia).
  clearbody c.
  assert (He' : ex <= e') by (unfold e'; lia).
  pose proof (pow2_pos (e' - c) ltac:(lia)) as HG.
  pose proof (pow2_pos (eb - c) ltac:(lia)) as HB.
  pose proof (pow2_pos (ex - c) ltac:(lia)) as HX.
  pose proof (pow2_pos (e' - ex) ltac:(lia)) as HS.
  assert (Hkey : (m1 + 1) * 2 ^ (e' - c) <= mb * 2 ^ (eb - c)
                 /\ (e' = ex \/ e' = -1074 \/ 2 ^ 52 <= m1)).
  { destruct (Z.eq_dec e' ex) as [Heq|Hne].
    - unfold m1. rewrite Heq, Z.sub_diag. simpl (2 ^ 0). rewrite Z.div_1_r.
      rewrite Heq in *. split; [exact Hle|left; reflexivity].
    - assert (Hfe : e' = fexp prec emax (Zdigits2 mx + ex)) by (unfold e' in *; lia).
      rewrite fexp_eq in Hfe.
      assert (Hnorm : e' = -1074 \/ 2 ^ 52 <= m1).
      { destruct (Z.eq_dec e' (-1074)) as [|Hn]; [left; assumption|right].
        assert (Hmx' : 0 < mx).
        { destruct (Z.eq_dec mx 0) as [->|]; [simpl in Hfe; lia|lia]. }
        pose proof (Zdigits2_bounds mx Hmx') as [Hd _].
        unfold m1. apply Z.div_le_lower_bound; [lia|].
        rewrite <- Z.pow_add_r by lia.
        eapply Z.le_trans; [|exact Hd]. apply pow2_le; lia. }
      split; [|right; exact Hnorm].
      destruct (Z_le_gt_dec e' eb) as [Hge|Hlt].
      + assert (Hc : c = ex) by lia. subst c.
        rewrite Z.sub_diag in Hle. simpl (2 ^ 0) in Hle. rewrite Z.mul_1_r in Hle.
        rewrite (pow2_sub eb ex e') in * by lia.
        rewrite Z.mul_assoc in *.
        apply Z.mul_le_mono_nonneg_r; [lia|].
        assert (m1 < mb * 2 ^ (eb - e')); [|lia].
        unfold m1. apply Z.div_lt_upper_bound; lia.
      + exfalso. destruct Hnorm as [Hn|Hn]; [lia|].
        assert (Hlow : 2 ^ (e' - ex) * m1 <= mx).
        { unfold m1. apply Z.mul_div_le. lia. }
        assert (2 ^ 53 * 2 ^ (eb - c) <= 2 ^ 52 * 2 ^ (e' - c)).
        { rewrite <- !Z.pow_add_r by lia. apply pow2_le; lia. }
        assert (mb * 2 ^ (eb - c) < 2 ^ 53 * 2 ^ (eb - c)) by (apply Z.mul_lt_mono_pos_r; lia).
        assert (2 ^ 52 * 2 ^ (e' - c) <= m1 * 2 ^ (e' - c)) by (apply Z.mul_le_mono_nonneg_r; lia).
        assert (m1 * 2 ^ (e' - c) <= mx * 2 ^ (ex - c)).
        { rewrite (pow2_sub e' c ex) by lia.
          rewrite Z.mul_assoc. apply Z.mul_le_mono_nonneg_r; lia. }
        lia. }
  destruct Hkey as [Hkey Hnorm].
  assert (Hm2le : m2 * 2 ^ (e' - c) <= (m1 + 1) * 2 ^ (e' - c)) by (apply Z.mul_le_mono_nonneg_r; lia).
  destruct Hres as [[H0 Hr]|(m3 & e'' & He'' & Hcarry & Hm3 & Hr)]; [left; exact Hr|right].
  rewrite Hr.
  assert (Hval : Zpos m3 * 2 ^ (e'' - c) <= mb * 2 ^ (eb - c)).
  { rewrite (pow2_sub e'' c e') by lia.
    rewrite Z.mul_assoc, Hm3. lia. }
  assert (Hfin : e'' <= 971).
  { destruct Hnorm as [Hn|[Hn|Hn]]; [lia|lia|].
    destruct (Z_le_gt_dec e'' eb) as [|Hgt]; [lia|exfalso].
    assert (Hlt : mb * 2 ^ (eb - c) < 2 ^ 53 * 2 ^ (eb - c)) by (apply Z.mul_lt_mono_pos_r; lia).
    rewrite (pow2_sub e'' c e') in Hval by lia.
    rewrite Z.mul_assoc, Hm3 in Hval.
    destruct Hcarry as [Hc|Hc].
    - assert (2 ^ 53 * 2 ^ (eb - c) <= 2 ^ 52 * 2 ^ (e' - c)).
      { rewrite <- !Z.pow_add_r by lia. apply pow2_le; lia. }
      assert (2 ^ 52 * 2 ^ (e' - c) <= m2 * 2 ^ (e' - c)) by (apply Z.mul_le_mono_nonneg_r; lia).
      lia.
    - rewrite Hc in Hval.
      assert (2 ^ 53 * 2 ^ (eb - c) <= 2 ^ 53 * 2 ^ (e' - c)).
      { apply Z.mul_le_mono_nonneg_l; [lia|]. apply pow2_le; lia. }
      lia. }
  destruct (Z.leb_spec e'' 971); [|lia].
  exists m3, e''. split; [reflexivity|].
  apply (proj2 (dle_iff c (Zpos m3) e'' mb eb ltac:(lia) Hcb)). exact Hval.
Qed.

(** ** The order against the number of bits *)

Lemma dle_trans (m1 e1 m2 e2 m3 e3 : Z) :
  dle m1 e1 m2 e2 -> dle m2 e2 m3 e3 -> dle m1 e1 m3 e3.
Proof.
  intros H1 H2. set (c := Z.min e1 (Z.min e2 e3)).
  assert (Hc1 : c <= e1) by (unfold c; lia).
  assert (Hc2 : c <= e2) by (unfold c; lia).
  assert (Hc3 : c <= e3) by (unfold c; lia).
  apply (proj1 (dle_iff c m1 e1 m2 e2 Hc1 Hc2)) in H1.
  apply (proj1 (dle_iff c m2 e2 m3 e3 Hc2 Hc3)) in H2.
  apply (proj2 (dle_iff c m1 e1 m3 e3 Hc1 Hc3)). lia.
Qed.

Lemma dle_digits_lower (m e : Z) : 0 < m -> dle 1 (Zdigits2 m + e - 1) m e.
Proof.
  intro H. pose proof (Zdigits2_bounds m H) as [Hd _].
  pose proof (Zdigits2_pos m H) as Hp.
  apply (proj2 (dle_iff e 1 (Zdigits2 m + e - 1) m e ltac:(lia) ltac:(lia))).
  replace (Zdigits2 m + e - 1 - e) with (Zdigits2 m - 1) by lia.
  rewrite Z.sub_diag. simpl (2 ^ 0). lia.
Qed.

Lemma dle_digits_upper (m e : Z) : 0 < m -> dle (m + 1) e 1 (Zdigits2 m + e).
Proof.
  intro H. pose proof (Zdigits2_bounds m H) as [_ Hd].
  pose proof (Zdigits2_pos m H) as Hp.
  apply (proj2 (dle_iff e (m + 1) e 1 (Zdigits2 m + e) ltac:(lia) ltac:(lia))).
  replace (Zdigits2 m + e - e) with (Zdigits2 m) by lia.
  rewrite Z.sub_diag. simpl (2 ^ 0). lia.
Qed.

Lemma dle_pow_mono (a b : Z) : a <= b -> dle 1 a 1 b.
Proof.
  intro H. apply (proj2 (dle_iff a 1 a 1 b ltac:(lia) H)).
  rewrite Z.sub_diag. simpl (2 ^ 0). pose proof (pow2_pos (b - a) ltac:(lia)). lia.
Qed.

Lemma dle_mag_lt (k m e : Z) : 0 < m -> dle 1 k m e -> k < Zdigits2 m + e.
Proof.
  intros Hm H. pose proof (Zdigits2_bounds m Hm) as [_ Hd].
  pose proof (Zdigits2_pos m Hm) as Hp.
  destruct (Z_lt_le_dec k (Zdigits2 m + e)) as [|Hge]; [assumption|exfalso].
  apply (proj1 (dle_iff e 1 k m e ltac:(lia) ltac:(lia))) in H.
  rewrite Z.sub_diag in H. simpl (2 ^ 0) in H.
  pose proof (pow2_le (Zdigits2 m) (k - e) ltac:(lia) ltac:(lia)). lia.
Qed.

Lemma dle_mag_le (k m e : Z) : 0 < m -> dle (m + 1) e 1 k -> Zdigits2 m + e <= k.
Proof.
  intros Hm H. pose proof (Zdigits2_bounds m Hm) as [Hd _].
  pose proof (Zdigits2_pos m Hm) as Hp.
  destruct (Z_le_gt_dec (Zdigits2 m + e) k) as [|Hgt]; [assumption|exfalso].
  set (c := Z.min e k).
  assert (Hce : c <= e) by (unfold c; lia).
  assert (Hck : c <= k) by (unfold c; lia).
  clearbody c.
  apply (proj1 (dle_iff c (m + 1) e 1 k Hce Hck)) in H.
  pose proof (pow2_pos (e - c) ltac:(lia)) as He.
  assert (2 ^ (Zdigits2 m - 1) * 2 ^ (e - c) <= m * 2 ^ (e - c))
    by (apply Z.mul_le_mono_nonneg_r; lia).
  rewrite <- Z.pow_add_r in H0 by lia.
  pose proof (pow2_le (k - c) (Zdigits2 m - 1 + (e - c)) ltac:(lia) ltac:(lia)). lia.
Qed.

(** ** Division and square root before rounding *)

(** The mantissa and the exponent the division hands to the rounding. *)
Lemma SFdiv_core_binary_eq (m1 e1 m2 e2 : Z) :
  let e' := Z.min (fexp prec emax (Zdigits2 m1 + e1 - (Zdigits2 m2 + e2))) (e1 - e2) in
  exists l, SFdiv_core_binary prec emax m1 e1 m2 e2
            = (m1 * 2 ^ (e1 - e2 - e') / m2, e', l).
Proof.
  intro e'. unfold SFdiv_core_binary. fold e'.
  assert (Hs : 0 <= e1 - e2 - e') by (unfold e'; lia).
  assert (Hm : match e1 - e2 - e' with
               | Z0 => m1 | Zpos _ => Z.shiftl m1 (e1 - e2 - e') | Zneg _ => 0
               end = m1 * 2 ^ (e1 - e2 - e')).
  { destruct (e1 - e2 - e') as [|p|p] eqn:E.
    - simpl. lia.
    - apply Z.shiftl_mul_pow2. lia.
    - lia. }
  rewrite Hm. unfold Z.div.
  destruct (Z.div_eucl (m1 * 2 ^ (e1 - e2 - e')) m2) as [q r].
  eexists. reflexivity.
Qed.

(** A quotient that is at least [2^k] leaves the division as a mantissa on
    a grid with value at least [2^k]. *)
Lemma SFdiv_core_lower (m1 e1 m2 e2 k : Z) :
  0 < m1 -> 0 < m2 -> -1074 <= k -> dle m2 (e2 + k) m1 e1 ->
  exists q e' l, SFdiv_core_binary prec emax m1 e1 m2 e2 = (q, e', l)
                 /\ 0 < q /\ dle 1 k q e'.
Proof.
  intros H1 H2 Hk Hle.
  destruct (SFdiv_core_binary_eq m1 e1 m2 e2) as [l Hcore]. cbv zeta in Hcore.
  set (e' := Z.min (fexp prec emax (Zdigits2 m1 + e1 - (Zdigits2 m2 + e2))) (e1 - e2)) in *.
  exists (m1 * 2 ^ (e1 - e2 - e') / m2), e', l. split; [exact Hcore|].
  assert (Hs : 0 <= e1 - e2 - e') by (unfold e'; lia).
  destruct (Z_le_gt_dec e' k) as [Hek|Hek].
  - assert (Hq : 2 ^ (k - e') <= m1 * 2 ^ (e1 - e2 - e') / m2).
    { apply Z.div_le_lower_bound; [lia|].
      apply (proj1 (dle_iff (e2 + e') m2 (e2 + k) m1 e1 ltac:(lia) ltac:(lia))) in Hle.
      replace (e2 + k - (e2 + e')) with (k - e') in Hle by lia.
      replace (e1 - (e2 + e')) with (e1 - e2 - e') in Hle by lia. lia. }
    pose proof (pow2_pos (k - e') ltac:(lia)). split; [lia|].
    apply (proj2 (dle_iff e' 1 k _ e' ltac:(lia) ltac:(lia))).
    rewrite Z.sub_diag. simpl (2 ^ 0). lia.
  - assert (Hq : 1 <= m1 * 2 ^ (e1 - e2 - e') / m2).
    { apply Z.div_le_lower_bound; [lia|].
      pose proof (Zdigits2_bounds m1 H1) as [Hd1 _].
      pose proof (Zdigits2_bounds m2 H2) as [_ Hd2].
      pose proof (Zdigits2_pos m1 H1). pose proof (Zdigits2_pos m2 H2).
      assert (He' : e' <= Zdigits2 m1 + e1 - (Zdigits2 m2 + e2) - 53).
      { unfold e' in *. rewrite fexp_eq in *. lia. }
      pose proof (pow2_pos (e1 - e2 - e') Hs).
      assert (2 ^ (Zdigits2 m1 - 1) * 2 ^ (e1 - e2 - e') <= m1 * 2 ^ (e1 - e2 - e'))
        by (apply Z.mul_le_mono_nonneg_r; lia).
      rewrite <- Z.pow_add_r in H4 by lia.
      pose proof (pow2_le (Zdigits2 m2) (Zdigits2 m1 - 1 + (e1 - e2 - e')) ltac:(lia) ltac:(lia)).
      lia. }
    split; [lia|].
    apply (proj2 (dle_iff k 1 k _ e' ltac:(lia) ltac:(lia))).
    rewrite Z.sub_diag. simpl (2 ^ 0).
    pose proof (pow2_pos (e' - k) ltac:(lia)). nia.
Qed.

(** A quotient below 2 leaves the division as a mantissa on a fine grid
    with value below 2. *)
Lemma SFdiv_core_upper (m1 e1 m2 e2 k : Z) :
  0 < m1 -> 0 < m2 -> dle (m1 + 1) e1 1 (k + 1) -> dle 1 k m2 e2 ->
  exists q e' l, SFdiv_core_binary prec emax m1 e1 m2 e2 = (q, e', l)
                 /\ 0 <= q /\ e' < 971 /\ dle (q + 1) e' 1 1.
Proof.
  intros H1 H2 Hn Hd.
  destruct (SFdiv_core_binary_eq m1 e1 m2 e2) as [l Hcore]. cbv zeta in Hcore.
  set (e' := Z.min (fexp prec emax (Zdigits2 m1 + e1 - (Zdigits2 m2 + e2))) (e1 - e2)) in *.
  exists (m1 * 2 ^ (e1 - e2 - e') / m2), e', l. split; [exact Hcore|].
  assert (Hs : 0 <= e1 - e2 - e') by (unfold e'; lia).
  pose proof (pow2_pos (e1 - e2 - e') Hs) as Hps.
  pose proof (dle_mag_le _ _ _ H1 Hn) as Hmag1.
  pose proof (dle_mag_lt _ _ _ H2 Hd) as Hmag2.
  assert (He' : e' <= -53) by (unfold e'; rewrite fexp_eq; lia).
  split; [apply Z.div_pos; nia|]. split; [lia|].
  apply (proj2 (dle_iff e' _ e' 1 1 ltac:(lia) ltac:(lia))).
  rewrite Z.sub_diag. simpl (2 ^ 0). rewrite Z.mul_1_r, Z.mul_1_l.
  assert (m1 * 2 ^ (e1 - e2 - e') / m2 < 2 ^ (1 - e')); [|lia].
  apply Z.div_lt_upper_bound; [lia|].
  set (c := Z.min (e2 + e') (Z.min e1 k)).
  assert (Hc1 : c <= e2 + e') by (unfold c; lia).
  assert (Hc2 : c <= e1) by (unfold c; lia).
  assert (Hc3 : c <= k) by (unfold c; lia).
  clearbody c.
  apply (proj1 (dle_iff c (m1 + 1) e1 1 (k + 1) Hc2 ltac:(lia))) in Hn.
  apply (proj1 (dle_iff c 1 k m2 e2 Hc3 ltac:(lia))) in Hd.
  pose proof (pow2_pos (e2 + e' - c) ltac:(lia)) as Hpc.
  apply (Z.mul_lt_mono_pos_r (2 ^ (e2 + e' - c))); [exact Hpc|].
  rewrite <- !Z.mul_assoc, <- !Z.pow_add_r by lia.
  replace (e1 - e2 - e' + (e2 + e' - c)) with (e1 - c) by lia.
  replace (1 - e' + (e2 + e' - c)) with (1 + (e2 - c)) by lia.
  replace (k + 1 - c) with (1 + (k - c)) in Hn by lia.
  rewrite Z.pow_add_r in Hn by lia. rewrite Z.pow_add_r by lia.
  simpl (2 ^ 1) in *.
  pose proof (pow2_pos (e1 - c) ltac:(lia)). nia.
Qed.

Lemma SFsqrt_core_binary_eq (m e : Z) :
  let e' := Z.min (fexp prec emax (Z.div2 (Zdigits2 m + e + 1))) (Z.div2 e) in
  exists l, SFsqrt_core_binary prec emax m e = (Z.sqrt (m * 2 ^ (e - 2 * e')), e', l).
Proof.
  intro e'. unfold SFsqrt_core_binary. fold e'.
  assert (Hs : 0 <= e - 2 * e').
  { unfold e'. rewrite (Z.div2_div e). pose proof (Z.mul_div_le e 2 ltac:(lia)). lia. }
  assert (Hm : match e - 2 * e' with
               | Z0 => m | Zpos _ => Z.shiftl m (e - 2 * e') | Zneg _ => 0
               end = m * 2 ^ (e - 2 * e')).
  { destruct (e - 2 * e') as [|p|p] eqn:E.
    - simpl. lia.
    - apply Z.shiftl_mul_pow2. lia.
    - lia. }
  rewrite Hm. rewrite <- (Z.sqrtrem_sqrt (m * 2 ^ (e - 2 * e'))).
  destruct (Z.sqrtrem (m * 2 ^ (e - 2 * e'))) as [q r].
  eexists. reflexivity.
Qed.

(** The square root of a number that is at least [2^(2k)] is handed to the
    rounding with value at least [2^k]. *)
Lemma SFsqrt_core_lower (m e k : Z) :
  0 < m -> dle 1 (2 * k) m e ->
  exists q e' l, SFsqrt_core_binary prec emax m e = (q, e', l)
                 /\ 0 < q /\ dle 1 k q e'.
Proof.
  intros Hm Hle.
  destruct (SFsqrt_core_binary_eq m e) as [l Hcore]. cbv zeta in Hcore.
  set (e' := Z.min (fexp prec emax (Z.div2 (Zdigits2 m + e + 1))) (Z.div2 e)) in *.
  exists (Z.sqrt (m * 2 ^ (e - 2 * e'))), e', l. split; [exact Hcore|].
  assert (Hs : 0 <= e - 2 * e').
  { unfold e'. rewrite (Z.div2_div e). pose proof (Z.mul_div_le e 2 ltac:(lia)). lia. }
  pose proof (pow2_pos (e - 2 * e') Hs) as Hps.
  assert (Hm' : 0 < m * 2 ^ (e - 2 * e')) by (apply Z.mul_pos_pos; lia).
  destruct (Z_le_gt_dec e' k) as [Hek|Hek].
  - pose proof (pow2_pos (k - e') ltac:(lia)) as Hpk.
    assert (Hq : 2 ^ (k - e') <= Z.sqrt (m * 2 ^ (e - 2 * e'))).
    { apply Z.sqrt_le_square; [lia|lia|].
      rewrite <- Z.pow_add_r by lia.
      apply (proj1 (dle_iff (2 * e') 1 (2 * k) m e ltac:(lia) ltac:(lia))) in Hle.
      replace (k - e' + (k - e')) with (2 * k - 2 * e') by lia. lia. }
    split; [lia|].
    apply (proj2 (dle_iff e' 1 k _ e' ltac:(lia) ltac:(lia))).
    rewrite Z.sub_diag. simpl (2 ^ 0). lia.
  - assert (Hq : 1 <= Z.sqrt (m * 2 ^ (e - 2 * e'))).
    { apply Z.sqrt_le_square; lia. }
    split; [lia|].
    apply (proj2 (dle_iff k 1 k _ e' ltac:(lia) ltac:(lia))).
    rewrite Z.sub_diag. simpl (2 ^ 0).
    pose proof (pow2_pos (e' - k) ltac:(lia)). nia.
Qed.

(** ** Alignment, addition and subtraction *)

(** Aligning a mantissa to a smaller exponent multiplies it by a power of
    two. *)
Lemma iter_xO (m d : positive) : Zpos (Pos.iter xO m d) = Zpos m * 2 ^ Zpos d.
Proof.
  induction d as [|d IH] using Pos.peano_ind.
  - simpl. lia.
  - rewrite Pos.iter_succ, Pos2Z.inj_xO, IH, Pos2Z.inj_succ, Z.pow_succ_r by lia. lia.
Qed.

Lemma shl_align_spec (mx : positive) (ex e : Z) :
  snd (shl_align mx ex e) = Z.min ex e
  /\ Zpos (fst (shl_align mx ex e)) = Zpos mx * 2 ^ (ex - Z.min ex e).
Proof.
  unfold shl_align. destruct (e - ex) as [|p|p] eqn:E; cbn [fst snd].
  - split; [lia|]. replace (ex - Z.min ex e) with 0 by lia. simpl; lia.
  - split; [lia|]. replace (ex - Z.min ex e) with 0 by lia. simpl; lia.
  - split; [lia|]. rewrite iter_xO. f_equal. f_equal. lia.
Qed.

Lemma binary_round_eq (sx : bool) (mx : positive) (ex : Z) :
  exists mz ez,
    binary_round prec emax sx mx ex = binary_round_aux prec emax sx (Zpos mz) ez loc_Exact
    /\ ez = Z.min ex (fexp prec emax (Zdigits2 (Zpos mx) + ex))
    /\ Zpos mz = Zpos mx * 2 ^ (ex - ez).
Proof.
  unfold binary_round.
  pose proof (shl_align_spec mx ex (fexp prec emax (Zpos (digits2_pos mx) + ex))) as [H1 H2].
  destruct (shl_align mx ex (fexp prec emax (Zpos (digits2_pos mx) + ex))) as [mz ez].
  cbn [fst snd] in H1, H2. exists mz, ez. split; [reflexivity|].
  cbn [Zdigits2]. split; [exact H1|]. rewrite H2, H1. reflexivity.
Qed.

Lemma dle_shift_l (m e e' : Z) : e' <= e -> dle m e (m * 2 ^ (e - e')) e'.
Proof.
  intro H. apply (proj2 (dle_iff e' m e _ e' H ltac:(lia))).
  rewrite Z.sub_diag. simpl (2 ^ 0). lia.
Qed.

Lemma dle_shift_r (m e e' : Z) : e' <= e -> dle (m * 2 ^ (e - e')) e' m e.
Proof.
  intro H. apply (proj2 (dle_iff e' _ e' m e ltac:(lia) H)).
  rewrite Z.sub_diag. simpl (2 ^ 0). lia.
Qed.

Lemma binary_round_lower (sx : bool) (mx : positive) (ex mb eb : Z) :
  0 < mb < 2 ^ 53 -> -1074 <= eb -> dle mb eb (Zpos mx) ex ->
  binary_round prec emax sx mx ex = S754_infinity sx
  \/ exists m e, binary_round prec emax sx mx ex = S754_finite sx m e
                 /\ dle mb eb (Zpos m) e.
Proof.
  intros Hmb Heb Hle.
  destruct (binary_round_eq sx mx ex) as (mz & ez & Hr & Hez & Hmz).
  rewrite Hr. apply round_lower; try lia.
  eapply dle_trans; [exact Hle|]. rewrite Hmz. apply dle_shift_l. lia.
Qed.

Lemma binary_round_upper (sx : bool) (mx : positive) (ex mb eb : Z) :
  0 < mb < 2 ^ 53 -> -1074 <= eb <= 971 -> ex < 971 ->
  dle (Zpos mx + 1) ex mb eb ->
  binary_round prec emax sx mx ex = S754_zero sx
  \/ exists m e, binary_round prec emax sx mx ex = S754_finite sx m e
                 /\ dle (Zpos m) e mb eb.
Proof.
  intros Hmb Heb Hex Hle.
  destruct (binary_round_eq sx mx ex) as (mz & ez & Hr & Hez & Hmz).
  rewrite Hr. apply round_upper; try lia.
  eapply dle_trans; [|exact Hle]. rewrite Hmz.
  apply (proj2 (dle_iff ez _ ez _ ex ltac:(lia) ltac:(lia))).
  rewrite Z.sub_diag. simpl (2 ^ 0).
  pose proof (pow2_pos (ex - ez) ltac:(lia)). lia.
Qed.

(** A mantissa of at most 53 bits is not rounded. *)
Lemma binary_round_small (sx : bool) (mx : positive) (ex : Z) :
  Zdigits2 (Zpos mx) <= 53 -> -1074 <= ex <= 971 ->
  exists mz ez, binary_round prec emax sx mx ex = S754_finite sx mz ez
                /\ ez <= ex /\ Zpos mz = Zpos mx * 2 ^ (ex - ez).
Proof.
  intros Hd Hex.
  destruct (binary_round_eq sx mx ex) as (mz & ez & Hr & Hez & Hmz).
  exists mz, ez. rewrite Hr. rewrite fexp_eq in Hez.
  pose proof (Zdigits2_pos (Zpos mx) ltac:(lia)) as Hp.
  pose proof (Zdigits2_bounds (Zpos mx) ltac:(lia)) as [Hb1 Hb2].
  split; [|split; [lia|exact Hmz]].
  apply binary_round_aux_exact; [|lia].
  assert (Hdz : Zdigits2 (Zpos mz) = Zdigits2 (Zpos mx) + (ex - ez)).
  { apply Zdigits2_unique; [lia|]. rewrite Hmz.
    pose proof (pow2_pos (ex - ez) ltac:(lia)).
    replace (Zdigits2 (Zpos mx) + (ex - ez) - 1) with (Zdigits2 (Zpos mx) - 1 + (ex - ez)) by lia.
    rewrite !Z.pow_add_r by lia. split.
    - apply Z.mul_le_mono_nonneg_r; lia.
    - apply Z.mul_lt_mono_pos_r; lia. }
  rewrite Hdz, fexp_eq. lia.
Qed.

(** The sum of a number that is at least [j1 * 2^eb] and one that is at
    least [j2 * 2^eb] is at least [(j1 + j2) * 2^eb]. *)
Lemma SFadd_ge (x y : spec_float) (j1 j2 eb : Z) :
  0 < j1 -> 0 < j2 -> j1 + j2 < 2 ^ 53 -> -1074 <= eb ->
  sf_ge x j1 eb -> sf_ge y j2 eb -> sf_ge (SF64add x y) (j1 + j2) eb.
Proof.
  intros H1 H2 Hj Heb.
  destruct x as [sx|[]| |[] mx ex]; destruct y as [sy|[]| |[] my ey];
    cbn [sf_ge]; try contradiction; try (intros; exact I).
  intros Hx Hy. unfold SF64add, SFadd. cbn [cond_Zopp].
  pose proof (shl_align_spec mx ex (Z.min ex ey)) as [Ha1 Ha2].
  pose proof (shl_align_spec my ey (Z.min ex ey)) as [Hb1 Hb2].
  set (ez := Z.min ex ey) in *.
  replace (Z.min ex ez) with ez in * by (unfold ez; lia).
  replace (Z.min ey ez) with ez in * by (unfold ez; lia).
  set (a := fst (shl_align mx ex ez)) in *.
  set (b := fst (shl_align my ey ez)) in *.
  change (Zpos a + Zpos b) with (Zpos (a + b)). cbn [binary_normalize].
  assert (Hle : dle (j1 + j2) eb (Zpos (a + b)) ez).
  { assert (Hx' : dle j1 eb (Zpos a) ez).
    { eapply dle_trans; [exact Hx|]. rewrite Ha2. apply dle_shift_l. unfold ez; lia. }
    assert (Hy' : dle j2 eb (Zpos b) ez).
    { eapply dle_trans; [exact Hy|]. rewrite Hb2. apply dle_shift_l. unfold ez; lia. }
    set (c := Z.min eb ez).
    assert (Hc1 : c <= eb) by (unfold c; lia).
    assert (Hc2 : c <= ez) by (unfold c; lia).
    apply (proj1 (dle_iff c _ _ _ _ Hc1 Hc2)) in Hx'.
    apply (proj1 (dle_iff c _ _ _ _ Hc1 Hc2)) in Hy'.
    apply (proj2 (dle_iff c _ _ _ _ Hc1 Hc2)).
    rewrite Pos2Z.inj_add. lia. }
  destruct (binary_round_lower false (a + b) ez (j1 + j2) eb ltac:(lia) Heb Hle)
    as [Hr|(m & e & Hr & Hm)]; rewrite Hr; cbn [sf_ge]; [exact I|exact Hm].
Qed.

Lemma SFabs_binary_round_aux (sx : bool) (m e : Z) (l : location) :
  SFabs (binary_round_aux prec emax sx m e l) = SFabs (binary_round_aux prec emax false m e l).
Proof.
  unfold binary_round_aux.
  destruct (shr_fexp prec emax m e l) as [mrs e'].
  destruct (shr_fexp prec emax _ e' loc_Exact) as [mrs' e''].
  destruct (shr_m mrs'); try reflexivity.
  destruct (e'' <=? emax - prec); reflexivity.
Qed.

Lemma SFabs_binary_round (sx : bool) (m : positive) (e : Z) :
  SFabs (binary_round prec emax sx m e) = SFabs (binary_round prec emax false m e).
Proof.
  unfold binary_round. destruct (shl_align m e _) as [mz ez].
  apply SFabs_binary_round_aux.
Qed.

Lemma SFabs_binary_normalize_opp (m e : Z) :
  SFabs (binary_normalize prec emax (- m) e false) = SFabs (binary_normalize prec emax m e false).
Proof.
  destruct m as [|p|p]; cbn [Z.opp binary_normalize]; [reflexivity| |].
  - apply SFabs_binary_round.
  - symmetry. apply SFabs_binary_round.
Qed.

(** [|x - y|] and [|y - x|] are the same number. *)
Lemma SFabs_sub_comm (x y : spec_float) : SFabs (SF64sub x y) = SFabs (SF64sub y x).
Proof.
  destruct x as [[]|[]| |sx mx ex]; destruct y as [[]|[]| |sy my ey]; try reflexivity.
  unfold SF64sub, SFsub. rewrite (Z.min_comm ey ex).
  rewrite <- SFabs_binary_normalize_opp. f_equal. f_equal. lia.
Qed.

(** ** Sums, row counts and the divisor of the sample variance *)

(** The sum of nothing is [0.0] in every order of addition. *)
Lemma float_sum_nil_inv (v : float) : float_sum [] v -> v = 0%float.
Proof.
  intro H. remember (@nil float) as l eqn:E.
  induction H as [|x|l1 l2 a b H1 IH1 H2 IH2|l l' a Hp H IH].
  - reflexivity.
  - discriminate.
  - destruct (app_eq_nil _ _ E) as [E1 E2].
    rewrite IH1, IH2 by assumption. reflexivity.
  - subst l'. apply Permutation_sym, Permutation_nil in Hp. apply IH. exact Hp.
Qed.

Lemma add_zero_l_ge (b : float) (j eb : Z) :
  sf_ge (Prim2SF b) j eb -> (0 + b)%float = b.
Proof.
  intro H. apply Prim2SF_inj. rewrite add_spec. change (Prim2SF 0) with (S754_zero false).
  destruct (Prim2SF b) as [s|[]| |[] m e]; cbn [sf_ge] in H; try contradiction; reflexivity.
Qed.

Lemma add_zero_r_ge (a : float) (j eb : Z) :
  sf_ge (Prim2SF a) j eb -> (a + 0)%float = a.
Proof.
  intro H. apply Prim2SF_inj. rewrite add_spec. change (Prim2SF 0) with (S754_zero false).
  destruct (Prim2SF a) as [s|[]| |[] m e]; cbn [sf_ge] in H; try contradiction; reflexivity.
Qed.

(** A sum of [n] numbers that are each at least [2^eb] is at least
    [n * 2^eb], in whatever order the numbers are added: no addition rounds
    below a multiple of [2^eb] that has at most 53 bits. *)
Lemma float_sum_lower (eb : Z) (l : list float) (v : float) :
  float_sum l v -> -1074 <= eb ->
  (forall x, In x l -> sf_ge (Prim2SF x) 1 eb) ->
  l <> [] -> Z.of_nat (List.length l) < 2 ^ 53 ->
  sf_ge (Prim2SF v) (Z.of_nat (List.length l)) eb.
Proof.
  intros H Heb. induction H as [|x|l1 l2 a b H1 IH1 H2 IH2|l l' a Hp H IH]; intros Hl Hne Hlen.
  - contradiction.
  - apply Hl. left. reflexivity.
  - rewrite length_app, Nat2Z.inj_add in *.
    assert (Hl1 : forall x, In x l1 -> sf_ge (Prim2SF x) 1 eb)
      by (intros x Hx; apply Hl, in_or_app; auto).
    assert (Hl2 : forall x, In x l2 -> sf_ge (Prim2SF x) 1 eb)
      by (intros x Hx; apply Hl, in_or_app; auto).
    destruct l1 as [|x1 l1].
    + apply float_sum_nil_inv in H1. subst a. cbn [List.length Z.of_nat Z.add] in *.
      assert (Hb : sf_ge (Prim2SF b) (Z.of_nat (List.length l2)) eb).
      { apply IH2; [exact Hl2|exact Hne|lia]. }
      rewrite (add_zero_l_ge b _ _ Hb). exact Hb.
    + destruct l2 as [|x2 l2].
      * apply float_sum_nil_inv in H2. subst b.
        assert (Ha : sf_ge (Prim2SF a) (Z.of_nat (List.length (x1 :: l1))) eb).
        { apply IH1; [exact Hl1|discriminate|cbn [List.length] in *; lia]. }
        rewrite (add_zero_r_ge a _ _ Ha). cbn [List.length] in *.
        replace (Z.of_nat (S (Datatypes.length l1)) + Z.of_nat 0) with (Z.of_nat (S (Datatypes.length l1))) by lia.
        exact Ha.
      * rewrite add_spec. apply SFadd_ge; try (cbn [List.length] in *; lia).
        -- apply IH1; [exact Hl1|discriminate|cbn [List.length] in *; lia].
        -- apply IH2; [exact Hl2|discriminate|cbn [List.length] in *; lia].
  - rewrite <- (Permutation_length Hp) in *. apply IH; [|  |exact Hlen].
    + intros x Hx. apply Hl. exact (Permutation_in _ Hp Hx).
    + intro E. subst l. apply Permutation_nil in Hp. contradiction.
Qed.

Lemma add_pinf (a b : float) :
  Prim2SF a = S754_infinity false -> Prim2SF b = S754_infinity false ->
  Prim2SF (a + b) = S754_infinity false.
Proof. intros Ha Hb. rewrite add_spec, Ha, Hb. reflexivity. Qed.

(** A sum of numbers that are all [+inf] is [+inf]. *)
Lemma float_sum_pinf (l : list float) (v : float) :
  float_sum l v -> (forall x, In x l -> Prim2SF x = S754_infinity false) ->
  l <> [] -> Prim2SF v = S754_infinity false.
Proof.
  intros H. induction H as [|x|l1 l2 a b H1 IH1 H2 IH2|l l' a Hp H IH]; intros Hl Hne.
  - contradiction.
  - apply Hl. left. reflexivity.
  - assert (Hl1 : forall x, In x l1 -> Prim2SF x = S754_infinity false)
      by (intros x Hx; apply Hl, in_or_app; auto).
    assert (Hl2 : forall x, In x l2 -> Prim2SF x = S754_infinity false)
      by (intros x Hx; apply Hl, in_or_app; auto).
    destruct l1 as [|x1 l1].
    + apply float_sum_nil_inv in H1. subst a.
      rewrite add_spec, (IH2 Hl2 Hne). reflexivity.
    + destruct l2 as [|x2 l2].
      * apply float_sum_nil_inv in H2. subst b.
        rewrite add_spec, (IH1 Hl1 ltac:(discriminate)). reflexivity.
      * apply add_pinf; [apply IH1|apply IH2]; try assumption; discriminate.
  - apply IH.
    + intros x Hx. apply Hl. exact (Permutation_in _ Hp Hx).
    + intro E. subst l. apply Permutation_nil in Hp. contradiction.
Qed.

(** A row count below [2^53] is converted exactly. *)
Lemma of_nat_spec (n : nat) :
  0 < Z.of_nat n < 2 ^ 53 ->
  exists m e, Prim2SF (F64.of_nat n) = S754_finite false m e
              /\ e <= 0 /\ Zpos m = Z.of_nat n * 2 ^ (0 - e).
Proof.
  intros [H0 H]. unfold F64.of_nat.
  rewrite of_uint63_spec, Uint63.of_Z_spec.
  assert (Hw : 2 ^ 53 < Uint63Axioms.wB) by reflexivity.
  rewrite Z.mod_small by (split; [exact (Z.lt_le_incl _ _ H0)|exact (Z.lt_trans _ _ _ H Hw)]).
  clear Hw.
  destruct (Z.of_nat n) as [|p|p] eqn:E; try lia.
  cbn [binary_normalize].
  apply binary_round_small; [|lia].
  pose proof (Zdigits2_bounds (Zpos p) ltac:(lia)) as [Hd _].
  pose proof (Zdigits2_pos (Zpos p) ltac:(lia)).
  assert (Zdigits2 (Zpos p) - 1 < 53); [|lia].
  apply (Z.pow_lt_mono_r_iff 2); lia.
Qed.

(** The divisor of the sample variance, [n - 1], is a positive number that
    is at most [n]. *)
Lemma sample_divisor_spec (n : nat) :
  2 <= Z.of_nat n < 2 ^ 53 ->
  exists m e, Prim2SF (F64.of_nat n - 1) = S754_finite false m e
              /\ dle (Zpos m) e (Z.of_nat n) 0.
Proof.
  intros Hn. destruct (of_nat_spec n ltac:(lia)) as (m & e & Hm & He & Hv).
  rewrite sub_spec, Hm.
  change (Prim2SF 1) with (S754_finite false 4503599627370496 (-52)).
  unfold SF64sub, SFsub. cbn [cond_Zopp].
  pose proof (shl_align_spec m e (Z.min e (-52))) as [_ Ha].
  pose proof (shl_align_spec 4503599627370496 (-52) (Z.min e (-52))) as [_ Hb].
  set (ez := Z.min e (-52)) in *.
  replace (Z.min e ez) with ez in * by (unfold ez; lia).
  replace (Z.min (-52) ez) with ez in * by (unfold ez; lia).
  set (a := fst (shl_align m e ez)) in *.
  set (b := fst (shl_align 4503599627370496 (-52) ez)) in *.
  assert (Hez : ez <= -52) by (unfold ez; lia).
  assert (Hez' : ez <= e) by (unfold ez; lia). clearbody ez a b.
  assert (Ha' : Zpos a = Z.of_nat n * 2 ^ (0 - ez)).
  { rewrite Ha, Hv, <- Z.mul_assoc, <- Z.pow_add_r by lia. do 2 f_equal. lia. }
  assert (Hb' : Zpos b = 2 ^ (0 - ez)).
  { rewrite Hb. change (Zpos 4503599627370496) with (2 ^ 52).
    rewrite <- Z.pow_add_r by lia. f_equal. lia. }
  pose proof (pow2_pos (0 - ez) ltac:(lia)) as Hp.
  assert (Hdiff : Zpos a - Zpos b = (Z.of_nat n - 1) * 2 ^ (0 - ez)) by lia.
  destruct (Zpos a - Zpos b) as [|p|p] eqn:E; try nia.
  cbn [binary_normalize].
  assert (Hup : dle (Zpos p + 1) ez (Z.of_nat n) 0).
  { apply (proj2 (dle_iff ez _ ez _ 0 ltac:(lia) ltac:(lia))).
    rewrite Z.sub_diag. simpl (2 ^ 0). nia. }
  assert (Hlo : dle 1 0 (Zpos p) ez).
  { apply (proj2 (dle_iff ez 1 0 _ ez ltac:(lia) ltac:(lia))).
    rewrite Z.sub_diag. simpl (2 ^ 0). nia. }
  destruct (binary_round_upper false p ez (Z.of_nat n) 0 ltac:(lia) ltac:(lia) ltac:(lia) Hup)
    as [Hz|(m' & e' & Hr & Hle)].
  - destruct (binary_round_lower false p ez 1 0 ltac:(lia) ltac:(lia) Hlo)
      as [Hi|(m' & e' & Hr & _)]; congruence.
  - exists m', e'. split; [exact Hr|exact Hle].
Qed.

(** ** Squares, quotients and square roots *)

(** Both sides multiplied by [2^k], and both sides squared. *)
Lemma dle_scale (m1 e1 m2 e2 k : Z) :
  dle m1 e1 m2 e2 -> dle m1 (e1 + k) m2 (e2 + k).
Proof.
  intro H. set (c := Z.min e1 e2).
  assert (Hc1 : c <= e1) by (unfold c; lia).
  assert (Hc2 : c <= e2) by (unfold c; lia). clearbody c.
  apply (proj1 (dle_iff c m1 e1 m2 e2 Hc1 Hc2)) in H.
  apply (proj2 (dle_iff (c + k) m1 (e1 + k) m2 (e2 + k) ltac:(lia) ltac:(lia))).
  replace (e1 + k - (c + k)) with (e1 - c) by lia.
  replace (e2 + k - (c + k)) with (e2 - c) by lia. exact H.
Qed.

Lemma dle_square (k m e : Z) :
  0 < m -> dle 1 k m e -> dle 1 (2 * k) (m * m) (e + e).
Proof.
  intros Hm H. set (c := Z.min k e).
  assert (Hc1 : c <= k) by (unfold c; lia).
  assert (Hc2 : c <= e) by (unfold c; lia). clearbody c.
  apply (proj1 (dle_iff c 1 k m e Hc1 Hc2)) in H.
  apply (proj2 (dle_iff (2 * c) 1 (2 * k) (m * m) (e + e) ltac:(lia) ltac:(lia))).
  replace (2 * k - 2 * c) with ((k - c) + (k - c)) by lia.
  replace (e + e - 2 * c) with ((e - c) + (e - c)) by lia.
  rewrite !Z.pow_add_r by lia.
  pose proof (pow2_pos (k - c) ltac:(lia)). pose proof (pow2_pos (e - c) ltac:(lia)).
  nia.
Qed.

(** The exponent of a binary64 number is the one its number of bits
    asks for, at least -1074 and at most 971. *)
Lemma valid_exponent (x : float) (s : bool) (m : positive) (e : Z) :
  Prim2SF x = S754_finite s m e ->
  e = Z.max (Zdigits2 (Zpos m) + e - 53) (-1074) /\ e <= 971.
Proof.
  intro H. pose proof (Prim2SF_valid x) as Hv. rewrite H in Hv.
  cbn [valid_binary] in Hv. unfold bounded, canonical_mantissa in Hv.
  apply andb_true_iff in Hv. destruct Hv as [H1 H2].
  apply Z.eqb_eq in H1. apply Z.leb_le in H2. rewrite fexp_eq in H1.
  split; [cbn [Zdigits2]; lia|exact H2].
Qed.

(** A z-score that is missing, zero or at most 2 is not above a threshold
    of 2 or more. *)
Lemma sf_le2_not_flagged (z t : float) :
  sf_le2 (Prim2SF z) -> (2 <=? t)%float = true -> (t <? z)%float = false.
Proof.
  intros Hz Ht. destruct (t <? z)%float eqn:E; [exfalso|reflexivity].
  pose proof (leb_ltb_trans _ _ _ Ht E) as H. rewrite ltb_spec in H.
  change (Prim2SF 2) with (S754_finite false 4503599627370496 (-51)) in H.
  destruct (Prim2SF z) as [s|s| |[] m e] eqn:EZ; cbn [sf_le2] in Hz; try contradiction;
    try discriminate.
  destruct (valid_exponent z false m e EZ) as [He _].
  pose proof (Zdigits2_bounds (Zpos m) ltac:(lia)) as [Hd1 Hd2].
  unfold SFltb, SFcompare in H.
  destruct (Z.compare_spec (-51) e) as [Heq|Hlt|Hgt]; try discriminate.
  - subst e. destruct (Pos.compare_cont Eq 4503599627370496 m) eqn:Ec; try discriminate.
    change (Pos.compare_cont Eq 4503599627370496 m) with (Pos.compare 4503599627370496 m) in Ec.
    apply (proj1 (Pos.compare_lt_iff _ _)) in Ec.
    apply (proj1 (dle_iff (-51) _ (-51) 1 1 ltac:(lia) ltac:(lia))) in Hz.
    change (2 ^ (-51 - -51)) with 1 in Hz.
    change (2 ^ (1 - -51)) with 4503599627370496 in Hz. lia.
  - assert (Hd : Zdigits2 (Zpos m) = 53) by lia. rewrite Hd in Hd1.
    apply (proj1 (dle_iff (-51) _ e 1 1 ltac:(lia) ltac:(lia))) in Hz.
    pose proof (pow2_le 1 (e - -51) ltac:(lia) ltac:(lia)) as Hp.
    change (2 ^ (1 - -51)) with 4503599627370496 in Hz. change (2 ^ 1) with 2 in Hp.
    change (2 ^ (53 - 1)) with 4503599627370496 in Hd1. nia.
Qed.

(** The square of a number is positive, and at least [2^(2k)] when the
    number is at least [2^k] in absolute value. *)
Lemma SFmul_square_eq (s : bool) (m : positive) (e : Z) :
  SF64mul (S754_finite s m e) (S754_finite s m e)
  = binary_round_aux prec emax false (Zpos (m * m)) (e + e) loc_Exact.
Proof. destruct s; reflexivity. Qed.

Lemma SFmul_square_cases (s : bool) (m : positive) (e : Z) :
  let r := SF64mul (S754_finite s m e) (S754_finite s m e) in
  r = S754_zero false \/ r = S754_infinity false \/ exists mq eq, r = S754_finite false mq eq.
Proof.
  intro r. unfold r. rewrite SFmul_square_eq.
  pose proof (binary_round_aux_sign false (Zpos (m * m)) (e + e) loc_Exact ltac:(lia)) as H.
  destruct (binary_round_aux prec emax false (Zpos (m * m)) (e + e) loc_Exact) as [[]|[]| |[] mq eq];
    cbn in H; try discriminate; eauto.
Qed.

Lemma SFmul_square_ge (s : bool) (m : positive) (e k : Z) (mq : positive) (eq : Z) :
  SF64mul (S754_finite s m e) (S754_finite s m e) = S754_finite false mq eq ->
  -1074 <= 2 * k -> dle 1 k (Zpos m) e -> dle 1 (2 * k) (Zpos mq) eq.
Proof.
  rewrite SFmul_square_eq. intros Hr Hk Hle.
  destruct (round_lower false (Zpos (m * m)) (e + e) loc_Exact 1 (2 * k)
              ltac:(lia) ltac:(lia) Hk) as [Hi|(m' & e' & Hf & Hd)].
  - rewrite Pos2Z.inj_mul. apply dle_square; [lia|exact Hle].
  - congruence.
  - rewrite Hr in Hf. injection Hf as -> ->. exact Hd.
Qed.

(** A sum that is at least [n * 2^kk], divided by a divisor that is at most
    [n], is at least [2^kk]. *)
Lemma SFdiv_ge (S D : spec_float) (n kk : Z) (md : positive) (ed : Z) :
  0 < n -> -1074 <= kk -> sf_ge S n kk ->
  D = S754_finite false md ed -> dle (Zpos md) ed n 0 ->
  sf_ge (SF64div S D) 1 kk.
Proof.
  intros Hn Hk HS -> HD.
  destruct S as [s|[]| |[] ms es]; cbn [sf_ge] in HS; try contradiction; [exact I|].
  unfold SF64div, SFdiv.
  assert (Hle : dle (Zpos md) (ed + kk) (Zpos ms) es).
  { eapply dle_trans; [|exact HS].
    apply (dle_scale _ _ _ _ kk) in HD. exact HD. }
  destruct (SFdiv_core_lower (Zpos ms) es (Zpos md) ed kk ltac:(lia) ltac:(lia) Hk Hle)
    as (q & e' & l & Hc & Hq & Hqle).
  rewrite Hc. cbn [xorb].
  destruct (round_lower false q e' l 1 kk Hq ltac:(lia) Hk Hqle) as [Hi|(m' & e'' & Hf & Hd)].
  - rewrite Hi. exact I.
  - rewrite Hf. exact Hd.
Qed.

(** The square root of a number that is at least [2^(2k)] is at least
    [2^k]. *)
Lemma SFsqrt_ge (V : spec_float) (k : Z) :
  -1074 <= k -> sf_ge V 1 (2 * k) -> sf_ge (SF64sqrt V) 1 k.
Proof.
  intros Hk HV.
  destruct V as [s|[]| |[] mv ev]; cbn [sf_ge] in HV; try contradiction; [exact I|].
  unfold SF64sqrt, SFsqrt.
  destruct (SFsqrt_core_lower (Zpos mv) ev k ltac:(lia) HV) as (q & e' & l & Hc & Hq & Hqle).
  rewrite Hc.
  destruct (round_lower false q e' l 1 k Hq ltac:(lia) Hk Hqle) as [Hi|(m' & e'' & Hf & Hd)].
  - rewrite Hi. exact I.
  - rewrite Hf. exact Hd.
Qed.

(** A deviation below [2^(k+1)] over a standard deviation that is at least
    [2^k] is at most 2 in absolute value. *)
Lemma SFdiv_le2 (sn : bool) (md : positive) (ed : Z) (STD : spec_float) (k : Z) :
  sf_ge STD 1 k -> dle (Zpos md + 1) ed 1 (k + 1) ->
  sf_le2 (SFabs (SF64div (S754_finite sn md ed) STD)).
Proof.
  intros HS Hn.
  destruct STD as [s|[]| |[] ms es]; cbn [sf_ge] in HS; try contradiction; [exact I|].
  unfold SF64div, SFdiv.
  destruct (SFdiv_core_upper (Zpos md) ed (Zpos ms) es k ltac:(lia) ltac:(lia) Hn HS)
    as (q & e' & l & Hc & Hq & He' & Hqle).
  rewrite Hc.
  destruct (round_upper (xorb sn false) q e' l 1 1 Hq ltac:(lia) ltac:(lia) He' Hqle)
    as [Hz|(m' & e'' & Hf & Hd)].
  - rewrite Hz. exact I.
  - rewrite Hf. exact Hd.
Qed.

End Rounding.

Import Rounding.

(** * Header normalizer *)

Lemma scan_header_found (n : nat) :
  forall rs idx row,
    idx < n -> nth_error rs idx = Some row -> is_header_row row = true ->
    (forall j r, j < idx -> nth_error rs j = Some r -> is_header_row r = false) ->
    scan_header n rs = Some (row, skipn (S idx) rs).
Proof.
  induction n as [|n IH]; intros rs idx row Hlt Hnth Hrow Hbefore; [lia|].
  destruct rs as [|r0 rs]; [destruct idx; discriminate|].
  destruct idx as [|idx]; simpl in Hnth.
  - inversion Hnth; subst. simpl. rewrite Hrow. reflexivity.
  - simpl scan_header. rewrite (Hbefore 0 r0) by (simpl; auto; lia).
    rewrite (IH rs idx row); auto; [lia|].
    intros j r Hj Hr. apply (Hbefore (S j) r); [lia|exact Hr].
Qed.

Lemma scan_header_none (n : nat) :
  forall rs,
    (forall j r, j < n -> nth_error rs j = Some r -> is_header_row r = false) ->
    scan_header n rs = None.
Proof.
  induction n as [|n IH]; intros rs H; [reflexivity|].
  destruct rs as [|r0 rs]; [reflexivity|]. simpl.
  rewrite (H 0 r0) by (simpl; auto; lia).
  apply IH. intros j r Hj Hr. apply (H (S j) r); [lia|exact Hr].
Qed.

(** C6, as the code has it: the scan covers the first 20 rows from the
    top; a row is a header when the text of its present cells, case-folded
    and joined by single spaces, contains one of trans, date, description,
    debit, credit, narration; the first such row gives the labels and the
    rows below it are kept; without such a row the table is returned as it
    is. *)
Theorem detect_and_skip_header_spec (df : DataFrame) :
  (forall idx row,
      idx < 20 -> nth_error (rows df) idx = Some row -> is_header_row row = true ->
      (forall j r, j < idx -> nth_error (rows df) j = Some r -> is_header_row r = false) ->
      detect_and_skip_header df = {| columns := row; rows := skipn (S idx) (rows df) |})
  /\ ((forall j r, j < 20 -> nth_error (rows df) j = Some r -> is_header_row r = false) ->
      detect_and_skip_header df = df)
  /\ (forall row,
        is_header_row row = true <->
        exists keyword,
          In keyword ["trans"; "date"; "description"; "debit"; "credit"; "narration"]
          /\ PyStr.contains keyword
               (PyStr.join " " (map (fun val => PyStr.lower (py_str val)) (filter notna row)))
             = true).
Proof.
  repeat split.
  - intros idx row Hlt Hnth Hrow Hbefore. unfold detect_and_skip_header.
    rewrite (scan_header_found 20 (rows df) idx row); auto.
  - intro H. unfold detect_and_skip_header. rewrite scan_header_none; auto.
  - unfold is_header_row. rewrite existsb_exists. intros [k [Hk Hc]]. exists k. auto.
  - intros [k [Hk Hc]]. unfold is_header_row. rewrite existsb_exists. exists k. auto.
Qed.

Lemma detect_and_skip_header_spec_witness :
  detect_and_skip_header statement_with_preamble
  = {| columns := [CStr "Trans. Date"; CStr "Description"; CStr "Debit"; CStr "Credit"];
       rows := [ [CStr "01 Jan 2024"; CStr "Uber Trip Lagos"; CStr "1,000.00"; CStr "--"];
                 [CStr "02 Jan 2024"; CStr "Salary"; CStr "--"; CStr "2,500"] ] |}.
Proof.
  apply (proj1 (detect_and_skip_header_spec statement_with_preamble) 6).
  - lia.
  - reflexivity.
  - vm_compute. reflexivity.
  - intros j r Hj Hr.
    do 6 (destruct j as [|j]; [inversion Hr; subst; vm_compute; reflexivity|]). lia.
Defined.

(** C6 as stated fails: with the keyword list of the specification the
    header is the second row, the code takes the first. *)
Lemma detect_and_skip_header_keyword_counterexample :
  spec_detect_and_skip_header transfers_above_header
  = {| columns := [CStr "Date"; CStr "Narration"];
       rows := [ [CStr "01 Jan 2024"; CStr "Salary"] ] |}
  /\ detect_and_skip_header transfers_above_header
     = {| columns := [CStr "Transfers"; missing];
          rows := [ [CStr "Date"; CStr "Narration"]; [CStr "01 Jan 2024"; CStr "Salary"] ] |}
  /\ spec_detect_and_skip_header transfers_above_header
     <> detect_and_skip_header transfers_above_header.
Proof.
  assert (H1 : spec_detect_and_skip_header transfers_above_header
               = {| columns := [CStr "Date"; CStr "Narration"];
                    rows := [ [CStr "01 Jan 2024"; CStr "Salary"] ] |})
    by (vm_compute; reflexivity).
  assert (H2 : detect_and_skip_header transfers_above_header
               = {| columns := [CStr "Transfers"; missing];
                    rows := [ [CStr "Date"; CStr "Narration"];
                              [CStr "01 Jan 2024"; CStr "Salary"] ] |})
    by (vm_compute; reflexivity).
  split; [exact H1|]. split; [exact H2|].
  rewrite H1, H2. intro H. discriminate H.
Qed.

(** * Column mapper: columns of a frame *)

Lemma eqb_in_spec (s : string) (l : list string) : PyStr.eqb_in s l = true <-> In s l.
Proof.
  unfold PyStr.eqb_in. rewrite existsb_exists. split.
  - intros [x [Hx He]]. apply String.eqb_eq in He. subst. exact Hx.
  - intro H. exists s. split; [exact H|apply String.eqb_refl].
Qed.

Lemma count_label_pos (l : string) (ls : list string) :
  0 < count_label l ls -> PyStr.eqb_in l ls = true.
Proof.
  unfold count_label, PyStr.eqb_in. induction ls as [|x ls IH]; simpl; [lia|].
  destruct (String.eqb l x); simpl; intro H; [reflexivity|apply IH, H].
Qed.

Lemma get_column_replaced (l : string) (v : list cell) (cs : list (string * list cell)) :
  PyStr.eqb_in l (map fst cs) = true ->
  get_column l (map (fun c => if String.eqb (fst c) l then (fst c, v) else c) cs) = v.
Proof.
  induction cs as [|[l' c] cs IH]; simpl; [discriminate|].
  rewrite (String.eqb_sym l l').
  destruct (String.eqb l' l) eqn:E; simpl.
  - rewrite E. reflexivity.
  - rewrite E. exact IH.
Qed.

Lemma get_column_appended (l : string) (v : list cell) (cs : list (string * list cell)) :
  PyStr.eqb_in l (map fst cs) = false -> get_column l (cs ++ [(l, v)]) = v.
Proof.
  induction cs as [|[l' c] cs IH]; simpl.
  - rewrite String.eqb_refl. reflexivity.
  - rewrite (String.eqb_sym l l'). destruct (String.eqb l' l); simpl; [discriminate|exact IH].
Qed.

Lemma get_column_set_column (l : string) (v : list cell) (f : Frame) :
  get_column l (cols (set_column l v f)) = v.
Proof.
  unfold set_column, labels. simpl.
  destruct (PyStr.eqb_in l (map fst (cols f))) eqn:E.
  - apply get_column_replaced, E.
  - apply get_column_appended, E.
Qed.

Lemma get_column_drop_columns (l : string) (ls : list string) (f : Frame) :
  PyStr.eqb_in l ls = false ->
  get_column l (cols (drop_columns ls f)) = get_column l (cols f).
Proof.
  intro H. unfold drop_columns. simpl.
  induction (cols f) as [|[l' c] cs IH]; simpl; [reflexivity|].
  destruct (String.eqb l' l) eqn:E.
  - apply String.eqb_eq in E. subst l'. rewrite H. simpl.
    rewrite String.eqb_refl. reflexivity.
  - destruct (PyStr.eqb_in l' ls); simpl; [exact IH|]. rewrite E. exact IH.
Qed.

(** * Lists of labels *)

Lemma unique_spec (l : list string) :
  forall seen,
    NoDup (unique seen l)
    /\ (forall x, In x (unique seen l) <-> In x l /\ ~ In x seen).
Proof.
  induction l as [|a l IH]; intro seen; simpl.
  - split; [constructor|]. intro x. tauto.
  - destruct (PyStr.eqb_in a seen) eqn:E.
    + destruct (IH seen) as [Hnd Hin]. split; [exact Hnd|].
      intro x. rewrite Hin. apply eqb_in_spec in E.
      split; [tauto|]. intros [[Hx|Hx] Hs]; [subst; contradiction|tauto].
    + destruct (IH (a :: seen)) as [Hnd Hin]. split.
      * constructor; [|exact Hnd]. rewrite Hin. simpl. tauto.
      * intro x. simpl. rewrite Hin. simpl.
        assert (Ha : ~ In a seen).
        { intro H. apply eqb_in_spec in H. congruence. }
        split.
        -- intros [Hx|[Hx Hs]]; [subst; tauto|tauto].
        -- intros [[Hx|Hx] Hs]; [left; exact Hx|].
           destruct (string_dec a x) as [e|n]; [left; exact e|right; tauto].
Qed.

(** * Column mapper: text of an amount *)

Lemma remove_commas_cons (c : ascii) (s : string) :
  PyStr.replace "," "" (String c s)
  = if Ascii.eqb c "," then PyStr.replace "," "" s else String c (PyStr.replace "," "" s).
Proof.
  unfold PyStr.replace. cbn [PyStr.replace_from PyStr.startswith String.length Nat.sub].
  rewrite (Ascii.eqb_sym "," c), andb_true_r.
  destruct (Ascii.eqb c ","); reflexivity.
Qed.

Lemma remove_commas_idempotent (s : string) :
  PyStr.replace "," "" (PyStr.replace "," "" s) = PyStr.replace "," "" s.
Proof.
  induction s as [|c s IH]; [reflexivity|].
  rewrite remove_commas_cons. destruct (Ascii.eqb c ",") eqn:E; [exact IH|].
  rewrite remove_commas_cons, E, IH. reflexivity.
Qed.

Lemma map2_map {A B C D E : Type} (h : C -> D -> E) (f : A -> C) (g : B -> D)
    (l1 : list A) (l2 : list B) :
  map2 h (map f l1) (map g l2) = map2 (fun a b => h (f a) (g b)) l1 l2.
Proof.
  revert l2. induction l1 as [|a l1 IH]; intros [|b l2]; simpl; try reflexivity.
  rewrite IH. reflexivity.
Qed.

Lemma parse_amount_text (s : string) :
  parse_amount (CStr s) = amount_of_text (PyStr.replace "," "" s).
Proof.
  unfold parse_amount. simpl isna. cbv iota.
  destruct (String.eqb s "--") eqn:E.
  - apply String.eqb_eq in E. subst s. vm_compute. reflexivity.
  - reflexivity.
Qed.

(** C4: with one debit and one credit column the amount of every row is the
    parsed credit minus the parsed debit; the parse removes the commas and
    gives zero for a missing cell, for empty text and for "--". *)
Theorem reconcile_debit_credit (f : Frame) :
  (count_label "debit" (labels f) = 1 -> count_label "credit" (labels f) = 1 ->
   exists f',
     reconcile_amount f = Ok f'
     /\ get_column "amount" (cols f')
        = map2 (fun credit debit => CNum (parse_amount credit - parse_amount debit)%float)
               (get_column "credit" (cols f)) (get_column "debit" (cols f)))
  /\ (forall c, isna c = true -> parse_amount c = 0%float)
  /\ parse_amount (CStr "") = 0%float
  /\ parse_amount (CStr "--") = 0%float
  /\ (forall s, parse_amount (CStr s) = parse_amount (CStr (PyStr.replace "," "" s)))
  /\ (parse_amount (CStr "0") - parse_amount (CStr "1000") = -1000
      /\ parse_amount (CNum 0) - parse_amount (CNum 1000) = -1000
      /\ parse_amount (CStr "1000") - parse_amount (CStr "0") = 1000
      /\ parse_amount (CNum 1000) - parse_amount (CNum 0) = 1000
      /\ parse_amount (CStr "2,500") - parse_amount (CStr "--") = 2500)%float.
Proof.
  split; [|split; [|split; [|split; [|split]]]].
  - intros Hd Hc. unfold reconcile_amount.
    rewrite (count_label_pos "debit"), (count_label_pos "credit") by lia.
    rewrite Hd, Hc. simpl andb. cbv iota.
    eexists. split; [reflexivity|].
    rewrite get_column_drop_columns by reflexivity.
    rewrite get_column_set_column. apply map2_map.
  - intros c Hc. unfold parse_amount. rewrite Hc. vm_compute. reflexivity.
  - vm_compute. reflexivity.
  - vm_compute. reflexivity.
  - intro s. rewrite !parse_amount_text, remove_commas_idempotent. reflexivity.
  - repeat split; vm_compute; reflexivity.
Qed.

Lemma reconcile_debit_credit_witness :
  exists f',
    reconcile_amount debit_credit_example = Ok f'
    /\ get_column "amount" (cols f') = [CNum (-1000); CNum 1000; CNum 2500].
Proof.
  destruct (proj1 (reconcile_debit_credit debit_credit_example)) as [f' [H1 H2]];
    [reflexivity|reflexivity|].
  exists f'. split; [exact H1|]. rewrite H2. vm_compute. reflexivity.
Defined.

(** * Column mapper: the amount label occurs once

    [select_and_filter] reads the amount column with [get_column], which is
    what [df["amount"]] is when the label is not repeated: it never is. *)

Lemma has_dot_suffix (d s : string) : has_dot (d ++ "." ++ s)%string = true.
Proof.
  induction d as [|c d IH]; simpl in *; [reflexivity|].
  rewrite IH. apply orb_true_r.
Qed.

Lemma numbered_not_amount (d : string) (i : nat) :
  String.eqb "amount" (d ++ "." ++ PyStr.of_nat i)%string = false.
Proof.
  destruct (String.eqb "amount" (d ++ "." ++ PyStr.of_nat i)%string) eqn:E; [|reflexivity].
  apply String.eqb_eq in E.
  pose proof (has_dot_suffix d (PyStr.of_nat i)) as H. rewrite <- E in H. discriminate H.
Qed.

Lemma count_label_cons (a x : string) (l : list string) :
  count_label a (x :: l) = (if String.eqb a x then 1 else 0) + count_label a l.
Proof. unfold count_label. cbn [filter]. destruct (String.eqb a x); reflexivity. Qed.

Lemma count_number_dups_other (dup : string) (l : list string) :
  String.eqb "amount" dup = false ->
  forall i, count_label "amount" (number_dups dup i l) = count_label "amount" l.
Proof.
  intro Hd. induction l as [|x l IH]; intro i; [reflexivity|].
  cbn [number_dups]. destruct (String.eqb x dup) eqn:E.
  - apply String.eqb_eq in E. subst x. rewrite !count_label_cons, Hd, IH.
    destruct (Nat.eqb i 0); [rewrite Hd|rewrite numbered_not_amount]; reflexivity.
  - rewrite !count_label_cons, IH. reflexivity.
Qed.

Lemma count_number_dups_amount (l : list string) :
  forall i, count_label "amount" (number_dups "amount" i l) <= (if Nat.eqb i 0 then 1 else 0).
Proof.
  induction l as [|x l IH]; intro i; cbn [number_dups].
  - unfold count_label. simpl. destruct (Nat.eqb i 0); lia.
  - destruct (String.eqb x "amount") eqn:E.
    + rewrite count_label_cons. specialize (IH (S i)). cbn [Nat.eqb] in IH.
      destruct (Nat.eqb i 0).
      * rewrite String.eqb_refl. lia.
      * rewrite numbered_not_amount. lia.
    + rewrite count_label_cons, String.eqb_sym, E. apply IH.
Qed.

Lemma duplicated_complete (x : string) (l : list string) :
  forall seen,
    (In x seen /\ 1 <= count_label x l) \/ 2 <= count_label x l ->
    In x (duplicated seen l).
Proof.
  induction l as [|a l IH]; intros seen H.
  - unfold count_label in H. simpl in H. destruct H as [[_ H]|H]; lia.
  - rewrite count_label_cons in H. cbn [duplicated].
    destruct (String.eqb x a) eqn:E.
    + apply String.eqb_eq in E. subst a.
      destruct (PyStr.eqb_in x seen) eqn:Es.
      * left. reflexivity.
      * assert (Hs : ~ In x seen) by (intro Hs; apply eqb_in_spec in Hs; congruence).
        apply IH. left. split; [left; reflexivity|].
        destruct H as [[Hin _]|H]; [contradiction|lia].
    + destruct (PyStr.eqb_in a seen).
      * right. apply IH. exact H.
      * apply IH. destruct H as [[Hin Hc]|H];
          [left; split; [right; exact Hin|exact Hc]|right; exact H].
Qed.

Lemma dedup_labels_amount (l : list string) : count_label "amount" (dedup_labels l) <= 1.
Proof.
  unfold dedup_labels.
  assert (Hinit : count_label "amount" l <= 1 \/ In "amount" (unique [] (duplicated [] l))).
  { destruct (le_lt_dec (count_label "amount" l) 1) as [H|H]; [left; exact H|right].
    apply (proj2 (unique_spec (duplicated [] l) [])). split; [|intros []].
    apply duplicated_complete. right. lia. }
  revert Hinit. generalize (unique [] (duplicated [] l)) as dups. generalize l as cs.
  intros cs dups. revert cs. induction dups as [|dup dups IH]; intros cs H; simpl.
  - destruct H as [H|[]]. exact H.
  - apply IH. destruct (String.eqb "amount" dup) eqn:E.
    + apply String.eqb_eq in E. subst dup. left.
      apply (count_number_dups_amount cs 0).
    + rewrite count_number_dups_other by exact E.
      destruct H as [H|[H|H]]; [left; exact H| |right; exact H].
      subst dup. rewrite String.eqb_refl in E. discriminate.
Qed.

Lemma count_label_combine (a : string) (new : list string) :
  forall vs : list (list cell),
    count_label a (map fst (combine new vs)) <= count_label a new.
Proof.
  induction new as [|x new IH]; intros [|v vs]; cbn [combine map fst];
    rewrite ?count_label_cons; try (unfold count_label; simpl; lia).
  specialize (IH vs). lia.
Qed.

Lemma count_label_filter (a : string) (p : string * list cell -> bool)
    (cs : list (string * list cell)) :
  count_label a (map fst (filter p cs)) <= count_label a (map fst cs).
Proof.
  induction cs as [|c cs IH]; [apply le_n|].
  cbn [filter map]. rewrite count_label_cons.
  destruct (p c); cbn [map]; rewrite ?count_label_cons; lia.
Qed.

Lemma column_role_not_amount (l : string) :
  String.eqb "amount" (match column_role l with Some r => r | None => l end)
  = String.eqb "amount" l.
Proof.
  destruct (String.eqb "amount" l) eqn:E.
  - apply String.eqb_eq in E. subst l. reflexivity.
  - unfold column_role.
    repeat match goal with
           | |- context [if ?b then _ else _] => destruct b
           end; try reflexivity; exact E.
Qed.

Lemma count_label_rename (cs : list (string * list cell)) :
  count_label "amount"
    (map fst (map (fun c => (match column_role (fst c) with
                             | Some r => r
                             | None => fst c
                             end, snd c)) cs))
  = count_label "amount" (map fst cs).
Proof.
  induction cs as [|c cs IH]; [reflexivity|].
  cbn [map fst]. rewrite !count_label_cons, column_role_not_amount, IH. reflexivity.
Qed.

Lemma count_label_set_amount (v : list cell) (f : Frame) :
  count_label "amount" (labels f) <= 1 ->
  count_label "amount" (labels (set_column "amount" v f)) <= 1.
Proof.
  intro H. unfold set_column, labels in *. cbn [cols].
  destruct (PyStr.eqb_in "amount" (map fst (cols f))) eqn:E.
  - rewrite map_map.
    rewrite (map_ext (fun c => fst (if String.eqb (fst c) "amount" then (fst c, v) else c)) fst);
      [exact H|].
    intro c. destruct (String.eqb (fst c) "amount"); reflexivity.
  - assert (H0 : count_label "amount" (map fst (cols f)) = 0).
    { destruct (count_label "amount" (map fst (cols f))) eqn:Ec; [reflexivity|].
      rewrite count_label_pos in E by lia. discriminate. }
    rewrite map_app. unfold count_label in *. rewrite filter_app, length_app, H0.
    simpl. lia.
Qed.

Lemma count_label_drop (a : string) (ls : list string) (f : Frame) :
  count_label a (labels (drop_columns ls f)) <= count_label a (labels f).
Proof. unfold drop_columns, labels. cbn [cols]. apply count_label_filter. Qed.

(** After the mapping and the reconciliation at most one column is labelled
    [amount]. *)
Lemma amount_label_once (df : DataFrame) (skip : bool) (mapped reconciled : Frame) :
  map_columns df skip = Ok mapped ->
  reconcile_amount mapped = Ok reconciled ->
  count_label "amount" (labels reconciled) <= 1.
Proof.
  intros Hm Hr.
  assert (H1 : count_label "amount" (labels mapped) <= 1).
  { unfold map_columns in Hm.
    set (f0 := standardize_columns (if skip then df else detect_and_skip_header df)) in Hm.
    set (f1 := drop_empty_columns (relabel (dedup_labels (labels f0)) f0)) in Hm.
    assert (Hf1 : count_label "amount" (labels f1) <= 1).
    { unfold f1, drop_empty_columns, relabel, labels. cbn [cols].
      eapply Nat.le_trans; [apply count_label_filter|].
      eapply Nat.le_trans; [apply count_label_combine|apply dedup_labels_amount]. }
    destruct (unnamed_to_drop f1 (labels f1)) as [ds|]; [|discriminate].
    cbn [bind] in Hm. inversion Hm; subst mapped; clear Hm.
    unfold rename_columns, labels. cbn [cols]. rewrite count_label_rename.
    eapply Nat.le_trans; [|exact Hf1].
    unfold drop_row_counter.
    destruct (cols (drop_columns ds f1)) as [|[first_col c] rest] eqn:Ec.
    - rewrite Ec. fold (labels (drop_columns ds f1)). rewrite <- Ec. apply count_label_drop.
    - destruct (is_unnamed first_col && is_row_counter c).
      + eapply Nat.le_trans; [apply count_label_drop|apply count_label_drop].
      + apply count_label_drop. }
  unfold reconcile_amount in Hr.
  repeat match type of Hr with
         | (if ?b then _ else _) = _ => destruct b
         end; try discriminate; inversion Hr; subst reconciled; clear Hr;
    try exact H1;
    (eapply Nat.le_trans; [apply count_label_drop|apply count_label_set_amount, H1]).
Qed.

(** * Column mapper: the canonical table *)

Section CleaningFacts.

Variable read_csv_path : string -> result DataFrame.
Variable to_datetime : list cell -> list (option Timestamp).

Lemma select_and_filter_missing (f : Frame) :
  (exists c, In c required /\ ~ In c (labels f)) ->
  select_and_filter to_datetime f = Err (MissingColumns required (labels f)).
Proof.
  intros [c [Hc Hn]]. unfold select_and_filter.
  destruct (forallb (fun c0 => PyStr.eqb_in c0 (labels f)) required) eqn:E; [|reflexivity].
  rewrite forallb_forall in E. specialize (E c Hc).
  apply eqb_in_spec in E. contradiction.
Qed.

Lemma select_and_filter_rows (f : Frame) (txs : list Transaction) :
  select_and_filter to_datetime f = Ok txs ->
  Forall (fun t => is_some (date t) = true
                   /\ description t <> []
                   /\ forallb notna (description t) = true
                   /\ notna (amount t) = true
                   /\ cell_ne_zero (amount t) = true) txs.
Proof.
  unfold select_and_filter.
  destruct (forallb (fun c => PyStr.eqb_in c (labels f)) required) eqn:E; [|discriminate].
  destruct (columns_named "date" f) as [|d [|d' ds]]; try discriminate.
  intro H. inversion H; subst; clear H.
  assert (Hdesc : columns_named "description" f <> []).
  { rewrite forallb_forall in E. specialize (E "description" (or_intror (or_introl eq_refl))).
    apply eqb_in_spec in E. unfold labels in E. apply in_map_iff in E.
    destruct E as [[l c] [Hl Hin]]. simpl in Hl. subst l.
    unfold columns_named. intro Hnil.
    assert (Hm : In c (map snd (filter (fun c0 => String.eqb (fst c0) "description") (cols f)))).
    { apply in_map_iff. exists ("description", c). split; [reflexivity|].
      apply filter_In. split; [exact Hin|reflexivity]. }
    rewrite Hnil in Hm. exact Hm. }
  apply Forall_forall. intros t Ht.
  apply filter_In in Ht. destruct Ht as [Ht Hz].
  apply filter_In in Ht. destruct Ht as [Ht Hc].
  unfold row_complete in Hc. apply andb_true_iff in Hc. destruct Hc as [Hc Hd].
  apply andb_true_iff in Hc. destruct Hc as [Hdate Hamt].
  repeat split; auto.
  apply in_map_iff in Ht. destruct Ht as [i [Hi _]]. subst t. simpl.
  destruct (columns_named "description" f); [congruence|discriminate].
Qed.

(** Every row [load_and_clean_expenses] returns has a parsed date,
    descriptions that are present, and an amount that is present and differs
    from 0 as Python compares it: a numeric amount is not zero. *)
Lemma emitted_rows_checked (file_path : option string) (df_override : option DataFrame)
    (skip : bool) (txs : list Transaction) :
  load_and_clean_expenses read_csv_path to_datetime file_path df_override skip = Ok txs ->
  Forall (fun t => (exists ts, date t = Some ts)
                   /\ description t <> []
                   /\ Forall (fun c => isna c = false) (description t)
                   /\ isna (amount t) = false
                   /\ (forall x, amount t = CNum x -> (x =? 0)%float = false)) txs.
Proof.
  unfold load_and_clean_expenses.
  destruct (load_input read_csv_path file_path df_override) as [df|]; [|discriminate].
  simpl. destruct (map_columns df skip) as [mapped|]; [|discriminate].
  simpl. destruct (reconcile_amount mapped) as [reconciled|]; [|discriminate].
  simpl. intro H. apply select_and_filter_rows in H.
  eapply Forall_impl; [|exact H]. clear H.
  intros t (Hd & Hne & Hdesc & Ha & Hz). repeat split; auto.
  - destruct (date t) as [ts|]; [exists ts; reflexivity|discriminate].
  - apply Forall_forall. intros c Hc. rewrite forallb_forall in Hdesc.
    specialize (Hdesc c Hc). unfold notna in Hdesc. apply negb_true_iff in Hdesc. exact Hdesc.
  - unfold notna in Ha. apply negb_true_iff in Ha. exact Ha.
  - intros x Hx. rewrite Hx in Hz. simpl in Hz. apply negb_true_iff in Hz. exact Hz.
Qed.

End CleaningFacts.

(** C2: when, after the mapping of the labels and the reconciliation of the
    amount, one of date, description, amount is not a label of the table,
    [load_and_clean_expenses] ends with the error that carries the required
    labels and the labels found; it returns no table. *)
Theorem missing_columns_raise
    (read_csv_path : string -> result DataFrame)
    (to_datetime : list cell -> list (option Timestamp))
    (file_path : option string) (df_override : option DataFrame) (skip : bool)
    (df : DataFrame) (mapped reconciled : Frame) :
  load_input read_csv_path file_path df_override = Ok df ->
  map_columns df skip = Ok mapped ->
  reconcile_amount mapped = Ok reconciled ->
  (exists c, In c ["date"; "description"; "amount"] /\ ~ In c (labels reconciled)) ->
  load_and_clean_expenses read_csv_path to_datetime file_path df_override skip
  = Err (MissingColumns ["date"; "description"; "amount"] (labels reconciled)).
Proof.
  intros H1 H2 H3 H4. unfold load_and_clean_expenses.
  rewrite H1. simpl. rewrite H2. simpl. rewrite H3. simpl.
  apply select_and_filter_missing, H4.
Qed.

Lemma missing_columns_raise_witness :
  load_and_clean_expenses no_csv iso_to_datetime None (Some statement_without_date) true
  = Err (MissingColumns ["date"; "description"; "amount"] ["description"; "amount"]).
Proof.
  refine (missing_columns_raise no_csv iso_to_datetime None (Some statement_without_date) true
            statement_without_date
            {| cols := [ ("description", [CStr "Uber Trip Lagos"; CStr "Salary"]);
                         ("debit", [CStr "1,000.00"; CStr "--"]);
                         ("credit", [CStr "--"; CStr "2,500"]) ];
               nrows := 2 |}
            {| cols := [ ("description", [CStr "Uber Trip Lagos"; CStr "Salary"]);
                         ("amount", [CNum (-1000); CNum 2500]) ];
               nrows := 2 |} _ _ _ _).
  - reflexivity.
  - vm_compute. reflexivity.
  - vm_compute. reflexivity.
  - exists "date". split; [left; reflexivity|].
    simpl. intros [H|[H|[]]]; discriminate.
Defined.

(** C1 fails on the code: an amount column that is used as it is keeps its
    text, the comparison with 0 holds for any text, and the row whose amount
    reads "0" is returned. *)
Theorem text_zero_amount_is_emitted
    (read_csv_path : string -> result DataFrame)
    (to_datetime : list cell -> list (option Timestamp))
    (t1 t2 : Timestamp) :
  to_datetime [CStr "2024-01-01"; CStr "2024-01-02"] = [Some t1; Some t2] ->
  load_and_clean_expenses read_csv_path to_datetime None (Some text_amount_statement) true
  = Ok [ {| date := Some t1; description := [CStr "Opening"]; amount := CStr "0" |};
         {| date := Some t2; description := [CStr "Salary"]; amount := CStr "1,000" |} ].
Proof.
  intro H. unfold load_and_clean_expenses.
  cbv beta iota delta [bind load_input].
  assert (H1 : map_columns text_amount_statement true
               = Ok {| cols := [ ("date", [CStr "2024-01-01"; CStr "2024-01-02"]);
                                 ("description", [CStr "Opening"; CStr "Salary"]);
                                 ("amount", [CStr "0"; CStr "1,000"]) ];
                       nrows := 2 |}) by (vm_compute; reflexivity).
  rewrite H1. cbv beta iota.
  change (reconcile_amount _) with
    (Ok {| cols := [ ("date", [CStr "2024-01-01"; CStr "2024-01-02"]);
                     ("description", [CStr "Opening"; CStr "Salary"]);
                     ("amount", [CStr "0"; CStr "1,000"]) ];
           nrows := 2 |}).
  cbv beta iota. unfold select_and_filter.
  change (forallb _ required) with true. cbv iota.
  change (columns_named "date" _) with [[CStr "2024-01-01"; CStr "2024-01-02"]].
  cbv iota. rewrite H. reflexivity.
Qed.

Lemma text_zero_amount_is_emitted_witness :
  load_and_clean_expenses no_csv iso_to_datetime None (Some text_amount_statement) true
  = Ok [ {| date := Some 20240101%Z; description := [CStr "Opening"]; amount := CStr "0" |};
         {| date := Some 20240102%Z; description := [CStr "Salary"];
            amount := CStr "1,000" |} ].
Proof.
  apply (text_zero_amount_is_emitted no_csv iso_to_datetime). vm_compute. reflexivity.
Defined.

(** * Transaction classifier *)

Section ClassifierFacts.

Variable partial_ratio : string -> string -> float.
Hypothesis score_not_nan : forall kw desc, F64.notnan (partial_ratio kw desc) = true.

Variable desc : string.

Local Abbreviation pair_score := (pair_score partial_ratio desc).
Local Abbreviation try_pair := (try_pair partial_ratio desc).
Local Abbreviation scan_state := (scan_state partial_ratio desc).

(** The two nested loops visit the pairs of [scored_pairs] in order. *)
Lemma best_match_pairs (catalog : list (string * list string)) :
  forall init,
    fold_left (try_category partial_ratio desc) catalog init
    = fold_left try_pair (scored_pairs catalog) init.
Proof.
  induction catalog as [|entry catalog IH]; intro init; [reflexivity|].
  simpl. unfold scored_pairs in *. rewrite fold_left_app, IH. f_equal.
  unfold try_category. destruct (String.eqb (fst entry) "Other"); [reflexivity|].
  generalize init. induction (snd entry) as [|kw kws IHk]; intro b; [reflexivity|].
  simpl. apply IHk.
Qed.

Lemma scan_state_step (seen : list (string * string)) (best : string * float) (x : string * string) :
  scan_state seen best -> scan_state (seen ++ [x]) (try_pair best x).
Proof.
  intros [[Hnone Hbest]|(i & p & Hi & Hbest & Hp & Hmax & Hfirst)]; subst best;
    unfold try_pair, try_keyword; fold (pair_score x); simpl snd; simpl fst.
  - destruct (70 <? pair_score x)%float eqn:H70.
    + assert (H0 : (0 <? pair_score x)%float = true).
      { eapply ltb_trans; [|exact H70]. reflexivity. }
      rewrite H0. simpl. right. exists (List.length seen), x.
      assert (Hlow : forall q, In q seen -> (pair_score q <? pair_score x)%float = true).
      { intros q Hq. eapply leb_ltb_trans; [|exact H70].
        apply ltb_false_leb; [reflexivity|apply score_not_nan|apply Hnone, Hq]. }
      repeat split.
      * rewrite nth_error_app2, Nat.sub_diag; [reflexivity|lia].
      * exact H70.
      * intros q Hq. apply in_app_or in Hq. destruct Hq as [Hq|[Hq|[]]].
        -- apply ltb_leb, Hlow, Hq.
        -- subst q. apply leb_refl, score_not_nan.
      * intros j q Hj Hq. rewrite nth_error_app1 in Hq by exact Hj.
        apply Hlow. eapply nth_error_In, Hq.
    + rewrite andb_false_r. left. split; [|reflexivity].
      intros q Hq. apply in_app_or in Hq. destruct Hq as [Hq|[Hq|[]]]; [auto|subst; exact H70].
  - destruct (pair_score p <? pair_score x)%float eqn:Hlt.
    + assert (H70 : (70 <? pair_score x)%float = true) by (eapply ltb_trans; eassumption).
      rewrite H70. simpl. right. exists (List.length seen), x.
      assert (Hlow : forall q, In q seen -> (pair_score q <? pair_score x)%float = true).
      { intros q Hq. eapply leb_ltb_trans; [apply Hmax, Hq|exact Hlt]. }
      repeat split.
      * rewrite nth_error_app2, Nat.sub_diag; [reflexivity|lia].
      * exact H70.
      * intros q Hq. apply in_app_or in Hq. destruct Hq as [Hq|[Hq|[]]].
        -- apply ltb_leb, Hlow, Hq.
        -- subst q. apply leb_refl, score_not_nan.
      * intros j q Hj Hq. rewrite nth_error_app1 in Hq by exact Hj.
        apply Hlow. eapply nth_error_In, Hq.
    + simpl. right. exists i, p.
      assert (Hi' : i < List.length seen) by (apply nth_error_Some; congruence).
      repeat split; auto.
      * rewrite nth_error_app1 by exact Hi'. exact Hi.
      * intros q Hq. apply in_app_or in Hq. destruct Hq as [Hq|[Hq|[]]]; [auto|subst q].
        apply ltb_false_leb; [apply score_not_nan|apply score_not_nan|exact Hlt].
      * intros j q Hj Hq. rewrite nth_error_app1 in Hq by lia. eapply Hfirst; eassumption.
Qed.

Lemma scan_state_fold (ps : list (string * string)) :
  scan_state ps (fold_left try_pair ps ("Other", 0%float)).
Proof.
  induction ps as [|x ps IH] using rev_ind.
  - left. split; [intros p []|reflexivity].
  - rewrite fold_left_app. simpl. apply scan_state_step, IH.
Qed.

End ClassifierFacts.

(** C7: [categorize_transaction] returns the category of the first pair, in
    the iteration order of the catalog, whose score is the highest and
    exceeds 70 (every earlier pair scores strictly less, no pair scores
    more); when no pair scores above 70 it returns "Other".  Pairs of the
    "Other" category are not in [scored_pairs]. *)
Theorem categorize_transaction_first_best
    (partial_ratio : string -> string -> float)
    (score_not_nan : forall kw desc, F64.notnan (partial_ratio kw desc) = true)
    (description : cell) :
  let desc := PyStr.lower (py_str description) in
  let score := fun p : string * string => partial_ratio (PyStr.lower (snd p)) desc in
  let pairs := scored_pairs CATEGORIES in
  ((forall p, In p pairs -> (70 <? score p)%float = false)
   /\ categorize_transaction partial_ratio description = "Other")
  \/ exists i p,
       nth_error pairs i = Some p
       /\ categorize_transaction partial_ratio description = fst p
       /\ fst p <> "Other"
       /\ (70 <? score p)%float = true
       /\ (forall q, In q pairs -> (score q <=? score p)%float = true)
       /\ (forall j q, j < i -> nth_error pairs j = Some q -> (score q <? score p)%float = true).
Proof.
  intros desc score pairs.
  pose proof (scan_state_fold partial_ratio score_not_nan desc pairs) as H.
  unfold categorize_transaction, best_match. fold desc.
  rewrite (best_match_pairs partial_ratio desc CATEGORIES). fold pairs.
  destruct H as [[Hnone Hbest]|(i & p & Hi & Hbest & Hp & Hmax & Hfirst)].
  - left. split; [exact Hnone|]. rewrite Hbest. reflexivity.
  - right. exists i, p. rewrite Hbest. repeat split; auto.
    apply nth_error_In in Hi. revert Hi. clear.
    subst pairs. intros Hi Heq.
    assert (Hall : forallb (fun q => negb (String.eqb (fst q) "Other")) (scored_pairs CATEGORIES) = true)
      by (vm_compute; reflexivity).
    rewrite forallb_forall in Hall. specialize (Hall p Hi).
    rewrite Heq in Hall. discriminate.
Qed.

Lemma categorize_transaction_first_best_witness :
  let description := CStr "Uber Trip Lagos" in
  let desc := PyStr.lower (py_str description) in
  let score := fun p : string * string => substring_ratio (PyStr.lower (snd p)) desc in
  let pairs := scored_pairs CATEGORIES in
  categorize_transaction substring_ratio description = "Transport"
  /\ (((forall p, In p pairs -> (70 <? score p)%float = false)
       /\ categorize_transaction substring_ratio description = "Other")
      \/ exists i p,
           nth_error pairs i = Some p
           /\ categorize_transaction substring_ratio description = fst p
           /\ fst p <> "Other"
           /\ (70 <? score p)%float = true
           /\ (forall q, In q pairs -> (score q <=? score p)%float = true)
           /\ (forall j q, j < i -> nth_error pairs j = Some q ->
                 (score q <? score p)%float = true)).
Proof.
  split; [vm_compute; reflexivity|].
  apply (categorize_transaction_first_best substring_ratio).
  intros kw desc. unfold substring_ratio.
  destruct (PyStr.contains kw desc); reflexivity.
Defined.

(** * Anomaly detector *)

Lemma detect_anomalies_nth (amounts : list float) (threshold : float) (i : nat) :
  nth_error (detect_anomalies amounts threshold) i
  = option_map (fun a => negb (F64.std amounts =? 0)%float
                         && (threshold <? PrimFloat.abs ((a - F64.mean amounts)
                                                         / F64.std amounts))%float)
               (nth_error amounts i).
Proof.
  unfold detect_anomalies.
  destruct (F64.std amounts =? 0)%float; rewrite nth_error_map; reflexivity.
Qed.

Lemma detect_anomalies_zero_std (amounts : list float) (threshold : float) :
  (F64.std amounts =? 0)%float = true ->
  detect_anomalies amounts threshold = map (fun _ => false) amounts.
Proof. intro H. unfold detect_anomalies. rewrite H. reflexivity. Qed.

Lemma detect_anomalies_nan_std (amounts : list float) (threshold : float) :
  F64.std amounts = nan ->
  detect_anomalies amounts threshold = map (fun _ => false) amounts.
Proof.
  intro H. unfold detect_anomalies. rewrite H.
  change (nan =? 0)%float with false. cbv iota.
  apply map_ext. intro a. rewrite div_nan_r.
  change (PrimFloat.abs nan) with nan. apply ltb_nan_r.
Qed.

Lemma count_all_present (l : list float) :
  (forall a, In a l -> F64.notnan a = true) -> F64.count l = List.length l.
Proof.
  intro H. unfold F64.count. induction l as [|a l IH]; [reflexivity|].
  simpl. rewrite (H a) by (left; reflexivity). simpl. rewrite IH; [reflexivity|].
  intros b Hb. apply H. right. exact Hb.
Qed.

Lemma std_is_sample_std (l : list float) :
  (forall a, In a l -> F64.notnan a = true) -> 2 <= List.length l ->
  F64.std l = sample_std l.
Proof.
  intros Hp Hn. unfold F64.std, sample_std, F64.var, squared_deviations, F64.mean.
  rewrite (count_all_present l Hp).
  destruct (Nat.leb (List.length l) 1) eqn:E1; [apply Nat.leb_le in E1; lia|].
  destruct (Nat.ltb 0 (List.length l)) eqn:E2; [|apply Nat.ltb_ge in E2; lia].
  change (F64.of_nat 1) with 1%float.
  do 3 f_equal. apply map_ext_in. intros a Ha.
  specialize (Hp a Ha). unfold F64.notnan in Hp. apply negb_true_iff in Hp.
  rewrite Hp. reflexivity.
Qed.

Lemma sub_self (x : float) : pzero_or_nan (x - x)%float.
Proof.
  unfold pzero_or_nan. rewrite sub_spec.
  destruct (Prim2SF x) as [[]|[]| |s m e]; simpl; auto.
  left. unfold SF64sub, SFsub. rewrite Z.sub_diag. reflexivity.
Qed.

Lemma mul_self_pzero (y : float) : pzero_or_nan y -> pzero_or_nan (y * y)%float.
Proof.
  unfold pzero_or_nan. rewrite mul_spec. intros [H|H]; rewrite H; simpl; auto.
Qed.

Lemma add_pzero (a q : float) : pzero_or_nan a -> pzero_or_nan q -> pzero_or_nan (a + q)%float.
Proof.
  unfold pzero_or_nan. rewrite add_spec. intros [H|H] [H'|H']; rewrite H, H'; simpl; auto.
Qed.

Lemma float_sum_pzero (l : list float) (v : float) :
  float_sum l v -> (forall x, In x l -> pzero_or_nan x) -> pzero_or_nan v.
Proof.
  induction 1 as [|x|l1 l2 a b _ IH1 _ IH2|l l' a Hp _ IH]; intros H.
  - left. reflexivity.
  - apply H. left. reflexivity.
  - apply add_pzero; [apply IH1|apply IH2]; intros x Hx; apply H, in_or_app; auto.
  - apply IH. intros x Hx. apply H. exact (Permutation_in _ Hp Hx).
Qed.

Lemma fsum_pzero (l : list float) :
  (forall x, In x l -> pzero_or_nan x) -> pzero_or_nan (F64.fsum l).
Proof. apply float_sum_pzero, fsum_float_sum. Qed.

Lemma div_pzero (z d : float) : pzero_or_nan z -> zero_or_nan (z / d)%float.
Proof.
  unfold pzero_or_nan, zero_or_nan. rewrite div_spec. intros [H|H]; rewrite H.
  - destruct (Prim2SF d) as [s|s| |s m e]; simpl; eauto.
  - destruct (Prim2SF d); simpl; auto.
Qed.

Lemma sqrt_zero_or_nan (v : float) : zero_or_nan v -> zero_or_nan (PrimFloat.sqrt v).
Proof.
  unfold zero_or_nan. rewrite sqrt_spec. intros [[s H]|H]; rewrite H; simpl; eauto.
Qed.

Lemma detect_anomalies_degenerate_std (amounts : list float) (threshold : float) :
  zero_or_nan (F64.std amounts) ->
  detect_anomalies amounts threshold = map (fun _ => false) amounts.
Proof.
  intros [[s H]|H].
  - apply detect_anomalies_zero_std. rewrite eqb_spec, H. reflexivity.
  - apply detect_anomalies_nan_std. apply Prim2SF_inj. rewrite H. reflexivity.
Qed.

Lemma count_repeat (x : float) (n : nat) :
  F64.count (repeat x n) = if F64.notnan x then n else 0.
Proof.
  unfold F64.count. induction n as [|n IH]; simpl.
  - destruct (F64.notnan x); reflexivity.
  - destruct (F64.notnan x) eqn:E; simpl; rewrite IH; reflexivity.
Qed.

Lemma map_repeat {A B : Type} (f : A -> B) (x : A) (n : nat) :
  map f (repeat x n) = repeat (f x) n.
Proof. induction n as [|n IH]; simpl; [reflexivity|rewrite IH; reflexivity]. Qed.

(** Equal amounts whose mean comes out as that amount are never flagged. *)
Lemma detect_anomalies_equal_amounts (x : float) (n : nat) (threshold : float) :
  F64.mean (repeat x n) = x ->
  detect_anomalies (repeat x n) threshold = repeat false n.
Proof.
  intro Hmean. rewrite <- (map_repeat (fun _ => false) x n).
  apply detect_anomalies_degenerate_std.
  unfold F64.std. apply sqrt_zero_or_nan.
  unfold F64.var. rewrite count_repeat.
  destruct (F64.notnan x) eqn:Hx.
  - destruct (Nat.leb n 1) eqn:E.
    + right. apply is_nan_spec. rewrite div_nan_r. reflexivity.
    + apply Nat.leb_gt in E. apply div_pzero.
      unfold F64.mean in Hmean. rewrite count_repeat, Hx in Hmean.
      destruct (Nat.ltb 0 n) eqn:E0; [|apply Nat.ltb_ge in E0; lia].
      rewrite Hmean. rewrite map_repeat.
      unfold F64.notnan in Hx. apply negb_true_iff in Hx. rewrite Hx.
      apply fsum_pzero. intros y Hy. apply repeat_spec in Hy. subst y.
      apply mul_self_pzero, sub_self.
  - simpl. right. apply is_nan_spec. rewrite div_nan_r. reflexivity.
Qed.

(** ** Equal amounts under rounding

    The mean pandas computes for equal amounts need not be that amount, and
    then the standard deviation is not zero.  The z-score stays small all
    the same: the deviation [d] lies below some [2^(k+1)], its square is
    at least [2^(2k)], so is the sum of the [n] squares over [n - 1], and
    the standard deviation is at least [2^k]. *)

Section EqualAmounts.
Local Open Scope Z_scope.

Lemma abs_sub_comm (x y : float) :
  SFabs (Prim2SF (x - y)) = SFabs (Prim2SF (y - x)).
Proof. rewrite !sub_spec. apply SFabs_sub_comm. Qed.

(** The z-score of an amount among [n] equal amounts, from the mean [a] the
    code computed, the sum [S] of the squared deviations and the divisor
    [den]: either the standard deviation is zero or missing, or the z-score
    is missing, zero or at most 2. *)
Lemma zscore_equal_amounts (a x S den : float) (n : nat) :
  2 <= Z.of_nat n < 2 ^ 53 ->
  float_sum (repeat ((a - x) * (a - x))%float n) S ->
  (exists md ed, Prim2SF den = S754_finite false md ed
                 /\ dle (Zpos md) ed (Z.of_nat n) 0) ->
  zero_or_nan (PrimFloat.sqrt (S / den))
  \/ sf_le2 (Prim2SF (PrimFloat.abs ((x - a) / PrimFloat.sqrt (S / den)))).
Proof.
  intros Hn HS (md & ed & Hden & Hdle).
  assert (Hne : repeat ((a - x) * (a - x))%float n <> []).
  { destruct n; [simpl in Hn; lia|discriminate]. }
  assert (Hlen : Z.of_nat (List.length (repeat ((a - x) * (a - x))%float n)) = Z.of_nat n)
    by (rewrite repeat_length; reflexivity).
  pose proof (abs_sub_comm x a) as Habs.
  rewrite abs_spec, div_spec.
  destruct (Prim2SF (a - x)%float) as [sd|sd| |sd m e] eqn:ED.
  - (* the mean is the amount *)
    right. destruct (Prim2SF (x - a)%float) as [s'|s'| |s' m' e']; try discriminate.
    destruct (Prim2SF (PrimFloat.sqrt (S / den))) as [s|s| |s ms es]; exact I.
  - (* the mean is infinite *)
    right. destruct (Prim2SF (x - a)%float) as [s'|s'| |s' m' e']; try discriminate.
    assert (Hq : Prim2SF ((a - x) * (a - x))%float = S754_infinity false).
    { rewrite mul_spec, ED. destruct sd; reflexivity. }
    assert (HSinf : Prim2SF S = S754_infinity false).
    { apply (float_sum_pinf _ _ HS); [|exact Hne].
      intros y Hy. apply repeat_spec in Hy. subst y. exact Hq. }
    rewrite sqrt_spec, div_spec, HSinf, Hden. destruct s'; exact I.
  - right. destruct (Prim2SF (x - a)%float) as [s'|s'| |s' m' e']; try discriminate. exact I.
  - destruct (Prim2SF (x - a)%float) as [s'|s'| |s' m' e'] eqn:EN; try discriminate.
    cbn [SFabs] in Habs. injection Habs as -> ->.
    pose proof (SFmul_square_cases sd m e) as Hcases. cbv zeta in Hcases.
    assert (Hq : Prim2SF ((a - x) * (a - x))%float
                 = SF64mul (S754_finite sd m e) (S754_finite sd m e))
      by (rewrite mul_spec, ED; reflexivity).
    rewrite <- Hq in Hcases.
    destruct Hcases as [Hz|[Hi|(mq & eq & Hf)]].
    + (* the squares vanish *)
      left. apply sqrt_zero_or_nan, div_pzero.
      apply (float_sum_pzero _ _ HS). intros y Hy. apply repeat_spec in Hy. subst y.
      left. exact Hz.
    + (* the squares overflow *)
      right.
      assert (HSinf : Prim2SF S = S754_infinity false).
      { apply (float_sum_pinf _ _ HS); [|exact Hne].
        intros y Hy. apply repeat_spec in Hy. subst y. exact Hi. }
      rewrite sqrt_spec, div_spec, HSinf, Hden. destruct s'; exact I.
    + right.
      set (k := Z.max (Zdigits2 (Zpos m) + e - 1) (-537)).
      assert (Hk : -1074 <= 2 * k) by (unfold k; lia).
      assert (Hqle : dle 1 (2 * k) (Zpos mq) eq).
      { destruct (Z_le_gt_dec (-537) (Zdigits2 (Zpos m) + e - 1)) as [Hge|Hlt].
        - rewrite Hq in Hf. apply (SFmul_square_ge sd m e k mq eq Hf Hk).
          replace k with (Zdigits2 (Zpos m) + e - 1) by (unfold k; lia).
          apply dle_digits_lower. lia.
        - replace (2 * k) with (-1074) by (unfold k; lia).
          destruct (valid_exponent _ _ _ _ Hf) as [He _].
          apply (proj2 (dle_iff (-1074) 1 (-1074) (Zpos mq) eq ltac:(lia) ltac:(lia))).
          rewrite Z.sub_diag. simpl (2 ^ 0).
          pose proof (pow2_pos (eq - -1074) ltac:(lia)). nia. }
      assert (HSge : sf_ge (Prim2SF S) (Z.of_nat n) (2 * k)).
      { rewrite <- Hlen. apply (float_sum_lower _ _ _ HS Hk); [|exact Hne|lia].
        intros y Hy. apply repeat_spec in Hy. subst y. rewrite Hf. exact Hqle. }
      assert (HV : sf_ge (Prim2SF (S / den)) 1 (2 * k)).
      { rewrite div_spec. apply (SFdiv_ge _ _ (Z.of_nat n) (2 * k) md ed); try assumption. lia. }
      assert (Hstd : sf_ge (Prim2SF (PrimFloat.sqrt (S / den))) 1 k).
      { rewrite sqrt_spec. apply SFsqrt_ge; [unfold k; lia|exact HV]. }
      apply (SFdiv_le2 s' m e _ k Hstd).
      eapply dle_trans; [apply dle_digits_upper; lia|].
      apply dle_pow_mono. unfold k. lia.
Qed.

(** Equal amounts are never flagged at a threshold of 2 or more, whatever
    the rounding of the mean. *)
Lemma equal_amounts_not_flagged (x : float) (n : nat) (threshold : float) :
  Z.of_nat n < 2 ^ 53 -> (2 <=? threshold)%float = true ->
  detect_anomalies (repeat x n) threshold = repeat false n.
Proof.
  intros Hn Ht. rewrite <- (map_repeat (fun _ => false) x n).
  destruct (F64.notnan x) eqn:Hx.
  - destruct (Nat.leb n 1) eqn:E.
    + apply detect_anomalies_degenerate_std.
      unfold F64.std. apply sqrt_zero_or_nan. unfold F64.var.
      rewrite count_repeat, Hx, E. right. apply is_nan_spec.
      rewrite div_nan_r. reflexivity.
    + apply Nat.leb_gt in E.
      assert (Hmean : F64.mean (repeat x n)
                      = (F64.fsum (map F64.nan_to_zero (repeat x n)) / F64.of_nat n)%float).
      { unfold F64.mean. rewrite count_repeat, Hx.
        destruct (Nat.ltb 0 n) eqn:E0; [reflexivity|apply Nat.ltb_ge in E0; lia]. }
      set (a := (F64.fsum (map F64.nan_to_zero (repeat x n)) / F64.of_nat n)%float) in *.
      assert (Hstd : F64.std (repeat x n)
                     = PrimFloat.sqrt (F64.fsum (repeat ((a - x) * (a - x))%float n)
                                       / (F64.of_nat n - 1))).
      { unfold F64.std, F64.var. rewrite count_repeat, Hx.
        destruct (Nat.leb n 1) eqn:E1; [apply Nat.leb_le in E1; lia|].
        fold a. rewrite map_repeat.
        unfold F64.notnan in Hx. apply negb_true_iff in Hx. rewrite Hx.
        reflexivity. }
      destruct (zscore_equal_amounts a x (F64.fsum (repeat ((a - x) * (a - x))%float n))
                  (F64.of_nat n - 1)%float n ltac:(lia) (fsum_float_sum _)
                  (sample_divisor_spec n ltac:(lia))) as [Hd|Hs].
      * apply detect_anomalies_degenerate_std. rewrite Hstd. exact Hd.
      * unfold detect_anomalies. rewrite Hstd, Hmean.
        destruct (_ =? 0)%float; [reflexivity|].
        rewrite !map_repeat. f_equal.
        apply sf_le2_not_flagged; assumption.
  - apply detect_anomalies_degenerate_std.
    unfold F64.std. apply sqrt_zero_or_nan. unfold F64.var.
    rewrite count_repeat, Hx. simpl. right. apply is_nan_spec.
    rewrite div_nan_r. reflexivity.
Qed.

End EqualAmounts.

(** C3 as stated fails: with the population standard deviation the amount
    130 would be flagged, the code does not flag it; three equal amounts of
    0.1, whose computed mean is not 0.1, are all flagged under the threshold
    0.5; and 99 equal amounts of about 8.6e-147 have the z-score 1.06 and
    are all flagged under the threshold 1. *)
Lemma detect_anomalies_population_counterexample :
  spec_detect_anomalies near_threshold_amounts 3
  = [false; false; false; false; false; false; false; false; false; false; true]
  /\ detect_anomalies near_threshold_amounts 3
     = [false; false; false; false; false; false; false; false; false; false; false]
  /\ detect_anomalies three_tenths 0.5 = [true; true; true]
  /\ detect_anomalies tiny_equal_amounts 1 = repeat true 99.
Proof. repeat split; vm_compute; reflexivity. Qed.

(** C3, as the code has it: a transaction is flagged exactly when the
    standard deviation pandas computes, the sample one (divisor n - 1), is
    not zero and |amount - mean| / std exceeds the threshold; when that
    standard deviation is zero nothing is flagged whatever the threshold,
    and so it is for equal amounts whose computed mean is that amount;
    under a threshold of 2 or more, so under the default 3.0, equal amounts
    are never flagged, however the mean is rounded. *)
Theorem detect_anomalies_sample_std (amounts : list float) (threshold : float) :
  List.length (detect_anomalies amounts threshold) = List.length amounts
  /\ (forall i,
        nth_error (detect_anomalies amounts threshold) i
        = option_map (fun a => negb (F64.std amounts =? 0)%float
                               && (threshold <? PrimFloat.abs ((a - F64.mean amounts)
                                                               / F64.std amounts))%float)
                     (nth_error amounts i))
  /\ ((forall a, In a amounts -> F64.notnan a = true) -> 2 <= List.length amounts ->
      F64.std amounts = sample_std amounts)
  /\ ((F64.std amounts =? 0)%float = true ->
      detect_anomalies amounts threshold = map (fun _ => false) amounts)
  /\ (forall x n, amounts = repeat x n -> F64.mean amounts = x ->
      detect_anomalies amounts threshold = repeat false n)
  /\ (forall x n, amounts = repeat x n -> (Z.of_nat n < 2 ^ 53)%Z ->
      (2 <=? threshold)%float = true ->
      detect_anomalies amounts threshold = repeat false n).
Proof.
  split; [|split; [|split; [|split; [|split]]]].
  - unfold detect_anomalies. destruct (F64.std amounts =? 0)%float; apply length_map.
  - apply detect_anomalies_nth.
  - apply std_is_sample_std.
  - apply detect_anomalies_zero_std.
  - intros x n Heq Hmean. subst amounts. apply detect_anomalies_equal_amounts, Hmean.
  - intros x n Heq Hn Ht. subst amounts. apply equal_amounts_not_flagged; assumption.
Qed.

Lemma detect_anomalies_sample_std_witness :
  F64.std [2; 2; 2]%float = sample_std [2; 2; 2]%float
  /\ detect_anomalies [2; 2; 2]%float 0.5 = [false; false; false]
  /\ detect_anomalies three_tenths 3 = [false; false; false]
  /\ detect_anomalies [10; 10; 10; 10; 10; 10; 10; 10; 10; 10; 10; 100000]%float 3
     = [false; false; false; false; false; false; false; false; false; false; false; true].
Proof.
  destruct (detect_anomalies_sample_std [2; 2; 2]%float 0.5) as (_ & _ & Hstd & _ & Heq & _).
  destruct (detect_anomalies_sample_std three_tenths 3) as (_ & _ & _ & _ & _ & Hthree).
  split; [|split; [|split]].
  - apply Hstd; [|simpl; lia].
    intros a [H|[H|[H|[]]]]; subst a; reflexivity.
  - apply (Heq 2%float 3); reflexivity.
  - apply (Hthree 0x1.999999999999ap-4%float 3); reflexivity.
  - vm_compute. reflexivity.
Defined.

(** C10: a set of one transaction is never flagged: its standard deviation
    is NaN, which does not equal zero, so the guard is not taken; and no
    threshold is below the NaN z-score. *)
Theorem single_transaction_not_anomalous (x threshold : float) :
  F64.std [x] = nan /\ (F64.std [x] =? 0)%float = false /\
  detect_anomalies [x] threshold = [false].
Proof.
  assert (Hstd : F64.std [x] = nan).
  { unfold F64.std, F64.var, F64.count. simpl filter.
    destruct (F64.notnan x); simpl List.length; simpl Nat.leb; cbv iota;
      rewrite F64Facts.div_nan_r; reflexivity. }
  split; [exact Hstd|]. split; [rewrite Hstd; reflexivity|].
  unfold detect_anomalies. rewrite Hstd.
  change (nan =? 0)%float with false. cbv iota. simpl map.
  rewrite F64Facts.div_nan_r. change (PrimFloat.abs nan) with nan.
  rewrite F64Facts.ltb_nan_r. reflexivity.
Qed.

(** * Aggregator: net flow *)







(** * Aggregator: category statistics *)

Lemma insert_key_perm (k : string) (l : list string) : Permutation (insert_key k l) (k :: l).
Proof.
  induction l as [|k' l IH]; simpl; [reflexivity|].
  destruct (String.leb k k'); [reflexivity|].
  rewrite IH. apply perm_swap.
Qed.

Lemma group_keys_perm (ks : list string) : Permutation (group_keys ks) (unique [] ks).
Proof.
  unfold group_keys. induction (unique [] ks) as [|k l IH]; simpl; [reflexivity|].
  rewrite insert_key_perm, IH. reflexivity.
Qed.

Lemma insert_desc_perm (x : CategoryStat) (l : list CategoryStat) :
  Permutation (insert_desc x l) (x :: l).
Proof.
  induction l as [|y l IH]; simpl; [reflexivity|].
  destruct (Total x <? Total y)%float; [|reflexivity].
  rewrite IH. apply perm_swap.
Qed.

Lemma sort_desc_perm (l : list CategoryStat) : Permutation (fold_right insert_desc [] l) l.
Proof.
  induction l as [|x l IH]; simpl; [reflexivity|].
  rewrite insert_desc_perm, IH. reflexivity.
Qed.

Lemma filter_partition_perm {A : Type} (p : A -> bool) (l : list A) :
  Permutation (filter (fun a => negb (p a)) l ++ filter p l) l.
Proof.
  induction l as [|a l IH]; simpl; [reflexivity|].
  destruct (p a); simpl.
  - rewrite <- Permutation_middle. constructor. exact IH.
  - constructor. exact IH.
Qed.

Lemma insertion_sort_desc_perm (l : list CategoryStat) :
  Permutation (insertion_sort_desc l) l.
Proof.
  unfold insertion_sort_desc. rewrite sort_desc_perm.
  apply (filter_partition_perm (fun r => PrimFloat.is_nan (Total r))).
Qed.

Lemma insert_desc_sorted (x : CategoryStat) (l : list CategoryStat) :
  F64.notnan (Total x) = true ->
  Forall (fun r => F64.notnan (Total r) = true) l ->
  Sorted total_ge l -> Sorted total_ge (insert_desc x l).
Proof.
  intros Hx Hall Hs. induction l as [|y l IH]; simpl.
  - constructor; constructor.
  - inversion Hall as [|y' l' Hy Hl]; subst. inversion Hs as [|y' l' Hs' Hhd]; subst.
    destruct (Total x <? Total y)%float eqn:E.
    + constructor; [apply IH; assumption|].
      destruct l as [|z l]; simpl.
      * constructor. apply ltb_leb, E.
      * destruct (Total x <? Total z)%float.
        -- inversion Hhd; subst. constructor. assumption.
        -- constructor. apply ltb_leb, E.
    + constructor; [exact Hs|]. constructor.
      unfold total_ge. apply ltb_false_leb; assumption.
Qed.

Lemma sort_desc_sorted (l : list CategoryStat) :
  Forall (fun r => F64.notnan (Total r) = true) l ->
  Sorted total_ge (fold_right insert_desc [] l).
Proof.
  intro H. induction l as [|x l IH]; simpl; [constructor|].
  inversion H; subst. apply insert_desc_sorted; auto.
  eapply Permutation_Forall; [|eassumption].
  symmetry. apply sort_desc_perm.
Qed.

Lemma total_ge_trans (a b c : CategoryStat) : total_ge a b -> total_ge b c -> total_ge a c.
Proof. unfold total_ge. intros H1 H2. eapply leb_trans; eassumption. Qed.

(** The insertion sort is a sorting algorithm. *)
Lemma insertion_sort_sorts : sorts_by_total insertion_sort_desc.
Proof.
  intros l. split; [apply insertion_sort_desc_perm|].
  eexists. eexists. split; [reflexivity|]. split; [|split].
  - apply Sorted_StronglySorted; [exact total_ge_trans|].
    apply sort_desc_sorted. apply Forall_forall.
    intros r Hr. apply filter_In in Hr. apply Hr.
  - eapply Permutation_Forall; [symmetry; apply sort_desc_perm|].
    apply Forall_forall. intros r Hr. apply filter_In in Hr. apply Hr.
  - apply Forall_forall. intros r Hr. apply filter_In in Hr. apply Hr.
Qed.

(** Three rows with the totals of the example have one decreasing order,
    whatever the sorting algorithm. *)
Lemma three_totals_order (sort_values : list CategoryStat -> list CategoryStat)
    (food income transport : CategoryStat) :
  sorts_by_total sort_values ->
  Total food = (-12000)%float -> Total income = 50000%float ->
  Total transport = (-8000)%float ->
  sort_values [food; income; transport] = [income; transport; food].
Proof.
  intros Hsort Hf Hi Ht.
  destruct (Hsort [food; income; transport])
    as (Hperm & present & absent & Heq & Hsorted & _ & Habsent).
  assert (Hin : forall r, In r (sort_values [food; income; transport]) ->
                          r = food \/ r = income \/ r = transport).
  { intros r Hr. apply (Permutation_in _ Hperm) in Hr. cbn [In] in Hr.
    destruct Hr as [H|[H|[H|[]]]]; auto. }
  assert (Hnan : forall r, r = food \/ r = income \/ r = transport ->
                           PrimFloat.is_nan (Total r) = false).
  { intros r [->|[->| ->]]; [rewrite Hf|rewrite Hi|rewrite Ht]; reflexivity. }
  assert (Habs : absent = []).
  { destruct absent as [|r absent]; [reflexivity|]. exfalso.
    inversion Habsent as [|? ? Hr _]; subst.
    rewrite (Hnan r) in Hr; [discriminate|].
    apply Hin. rewrite Heq. apply in_or_app. right. left. reflexivity. }
  subst absent. rewrite app_nil_r in Heq. rewrite Heq in *. clear Heq.
  assert (Hfi : food <> income).
  { intros E. rewrite E, Hi in Hf. apply (f_equal Prim2SF) in Hf.
    vm_compute in Hf. discriminate. }
  assert (Hft : food <> transport).
  { intros E. rewrite E, Ht in Hf. apply (f_equal Prim2SF) in Hf.
    vm_compute in Hf. discriminate. }
  assert (Hit : income <> transport).
  { intros E. rewrite E, Ht in Hi. apply (f_equal Prim2SF) in Hi.
    vm_compute in Hi. discriminate. }
  assert (Hnd : NoDup present).
  { apply (Permutation_NoDup (Permutation_sym Hperm)).
    repeat constructor; cbn [In]; intuition congruence. }
  pose proof (Permutation_length Hperm) as Hlen.
  destruct present as [|x [|y [|z [|w present]]]]; try discriminate Hlen.
  pose proof (Hin x (or_introl eq_refl)) as Hx.
  pose proof (Hin y (or_intror (or_introl eq_refl))) as Hy.
  pose proof (Hin z (or_intror (or_intror (or_introl eq_refl)))) as Hz.
  inversion Hsorted as [|? ? Hs1 Hall1]; subst.
  inversion Hs1 as [|? ? Hs2 Hall2]; subst.
  inversion Hall1 as [|? ? Hxy Hall1']; subst. inversion Hall1' as [|? ? Hxz _]; subst.
  inversion Hall2 as [|? ? Hyz _]; subst.
  inversion Hnd as [|? ? Hn1 Hnd1]; subst. inversion Hnd1 as [|? ? Hn2 _]; subst.
  unfold total_ge in Hxy, Hxz, Hyz. cbn [In] in Hn1, Hn2.
  destruct Hx as [->|[->| ->]]; destruct Hy as [->|[->| ->]];
    destruct Hz as [->|[->| ->]];
    try reflexivity; try (exfalso; tauto);
    rewrite ?Hf, ?Hi, ?Ht in Hxy; rewrite ?Hf, ?Hi, ?Ht in Hxz;
    rewrite ?Hf, ?Hi, ?Ht in Hyz;
    first [discriminate Hxy | discriminate Hxz | discriminate Hyz].
Qed.

(** C8 as stated fails on its example: in decreasing order of the signed
    totals Transport (-8000) stands before Food (-12000). *)
Lemma category_order_counterexample :
  let stats := calculate_category_stats plain_sum plain_mean insertion_sort_desc
                 three_categories in
  map stat_category stats = ["Income"; "Transport"; "Food"]
  /\ map Total stats = [50000; -8000; -12000]%float
  /\ (if list_eq_dec string_dec (map stat_category stats) ["Income"; "Food"; "Transport"]
      then true else false) = false.
Proof. repeat split; vm_compute; reflexivity. Qed.

(** C8, as the code has it: one row per category, with the sum, the mean and
    the count of its amounts, sum and mean rounded to 2 decimals; the rows
    are in decreasing order of the signed total, rows without a total last;
    categories with the totals 50000 for Income, -12000 for Food and -8000
    for Transport come out as Income, Transport, Food.  This holds for the
    grouped sum and mean of the library and for every sorting algorithm. *)
Theorem calculate_category_stats_spec
    (group_sum group_mean : list float -> float)
    (sort_values : list CategoryStat -> list CategoryStat)
    (df : list (string * float)) :
  sorts_by_total sort_values ->
  let stats := calculate_category_stats group_sum group_mean sort_values df in
  NoDup (map stat_category stats)
  /\ (forall c, In c (map stat_category stats) <-> In c (map fst df))
  /\ (forall r, In r stats ->
        let g := group_amounts (stat_category r) df in
        Total r = round2 (group_sum g)
        /\ Average r = round2 (group_mean g)
        /\ Transactions r = F64.count g)
  /\ (exists present absent,
        stats = present ++ absent
        /\ StronglySorted (fun a b => (Total b <=? Total a)%float = true) present
        /\ Forall (fun r => F64.notnan (Total r) = true) present
        /\ Forall (fun r => PrimFloat.is_nan (Total r) = true) absent)
  /\ (group_sum [50000%float] = 50000%float ->
      group_sum [(-12000)%float] = (-12000)%float ->
      group_sum [(-8000)%float] = (-8000)%float ->
      map stat_category
        (calculate_category_stats group_sum group_mean sort_values three_categories)
      = ["Income"; "Transport"; "Food"])
  /\ (round2 12345.678 = 12345.68 /\ round2 0.125 = 0.12 /\ round2 (-8000) = -8000)%float.
Proof.
  intros Hsort stats.
  assert (Hperm : Permutation stats
                    (map (aggregate group_sum group_mean df) (group_keys (map fst df)))).
  { apply Hsort. }
  assert (Hcats : Permutation (map stat_category stats) (unique [] (map fst df))).
  { rewrite Hperm, map_map. simpl. rewrite map_id. apply group_keys_perm. }
  destruct (unique_spec (map fst df) []) as [Hnd Hin].
  split; [|split; [|split; [|split; [|split]]]].
  - eapply Permutation_NoDup; [symmetry; exact Hcats|exact Hnd].
  - intro c. split; intro H.
    + apply (Permutation_in _ Hcats) in H. apply Hin in H. tauto.
    + apply (Permutation_in _ (Permutation_sym Hcats)). apply Hin. simpl. tauto.
  - intros r Hr. apply (Permutation_in _ Hperm) in Hr.
    apply in_map_iff in Hr. destruct Hr as [k [Hk _]]. subst r. simpl. auto.
  - destruct (Hsort (map (aggregate group_sum group_mean df) (group_keys (map fst df))))
      as (_ & present & absent & H1 & H2 & H3 & H4).
    exists present, absent. repeat split; assumption.
  - intros Hi Hf Ht. unfold calculate_category_stats.
    change (group_keys (map fst three_categories)) with ["Food"; "Income"; "Transport"].
    cbn [map].
    rewrite (three_totals_order sort_values _ _ _ Hsort); [reflexivity| | |];
      cbn [Total aggregate].
    + change (group_amounts "Food" three_categories) with [(-12000)%float].
      rewrite Hf. vm_compute. reflexivity.
    + change (group_amounts "Income" three_categories) with [50000%float].
      rewrite Hi. vm_compute. reflexivity.
    + change (group_amounts "Transport" three_categories) with [(-8000)%float].
      rewrite Ht. vm_compute. reflexivity.
  - repeat split; vm_compute; reflexivity.
Qed.

Lemma calculate_category_stats_spec_witness :
  let stats := calculate_category_stats plain_sum plain_mean insertion_sort_desc
                 three_categories in
  (map stat_category stats = ["Income"; "Transport"; "Food"]
   /\ map Total stats = [50000; -8000; -12000]%float
   /\ map Transactions stats = [1; 1; 1])
  /\ NoDup (map stat_category stats)
  /\ (forall c, In c (map stat_category stats) <-> In c (map fst three_categories))
  /\ (forall r, In r stats ->
        let g := group_amounts (stat_category r) three_categories in
        Total r = round2 (plain_sum g)
        /\ Average r = round2 (plain_mean g)
        /\ Transactions r = F64.count g)
  /\ (exists present absent,
        stats = present ++ absent
        /\ StronglySorted (fun a b => (Total b <=? Total a)%float = true) present
        /\ Forall (fun r => F64.notnan (Total r) = true) present
        /\ Forall (fun r => PrimFloat.is_nan (Total r) = true) absent)
  /\ (plain_sum [50000%float] = 50000%float ->
      plain_sum [(-12000)%float] = (-12000)%float ->
      plain_sum [(-8000)%float] = (-8000)%float ->
      map stat_category
        (calculate_category_stats plain_sum plain_mean insertion_sort_desc three_categories)
      = ["Income"; "Transport"; "Food"])
  /\ (round2 12345.678 = 12345.68 /\ round2 0.125 = 0.12 /\ round2 (-8000) = -8000)%float.
Proof.
  intros stats. split; [repeat split; vm_compute; reflexivity|].
  exact (calculate_category_stats_spec plain_sum plain_mean insertion_sort_desc
           three_categories insertion_sort_sorts).
Defined.

(** * The pipeline of [app.py] *)

(** C9: the result of [process_data] depends on the bytes of the file and on
    the two settings only: not on where an earlier read left the file, so
    that a second run, on the file as the first run left it, returns the same
    table (rows, categories, anomaly flags, months) or the same error. *)
Theorem process_data_deterministic
    (read_csv : string -> nat -> result DataFrame)
    (read_csv_path : string -> result DataFrame)
    (to_datetime : list cell -> list (option Timestamp))
    (partial_ratio : string -> string -> float)
    (period_month : option Timestamp -> string)
    (header_row_idx : option nat) (manual_mode : bool) :
  let run := fun file => process_data read_csv read_csv_path to_datetime partial_ratio
                           period_month file header_row_idx manual_mode in
  (forall bytes pos1 pos2,
      fst (run {| content := bytes; position := pos1 |})
      = fst (run {| content := bytes; position := pos2 |}))
  /\ (forall file, fst (run (snd (run file))) = fst (run file))
  /\ (forall file, content (snd (run file)) = content file).
Proof.
  intro run.
  assert (Hpos : forall bytes pos1 pos2,
             fst (run {| content := bytes; position := pos1 |})
             = fst (run {| content := bytes; position := pos2 |})).
  { intros bytes pos1 pos2. unfold run, process_data, read_file, seek. simpl.
    destruct manual_mode; destruct header_row_idx; reflexivity. }
  assert (Hcontent : forall file, content (snd (run file)) = content file).
  { intro file. unfold run, process_data, read_file, seek. simpl.
    destruct manual_mode; destruct header_row_idx; reflexivity. }
  split; [exact Hpos|]. split; [|exact Hcontent].
  intro file. specialize (Hcontent file).
  destruct file as [bytes pos0].
  destruct (run {| content := bytes; position := pos0 |}) as [out [bytes' pos]] eqn:E.
  simpl in Hcontent. subst bytes'. simpl.
  rewrite (Hpos bytes pos pos0), E. reflexivity.
Qed.

Lemma process_data_deterministic_witness :
  let run := fun file => process_data sample_read_csv no_csv iso_to_datetime substring_ratio
                           sample_month file None false in
  let file := {| content := "statement bytes"; position := 0 |} in
  let table :=
    Ok [ {| transaction := {| date := Some 20240101%Z;
                              description := [CStr "Uber Trip Lagos"];
                              amount := CNum (-1000) |};
            category := "Transport"; is_anomaly := false; month := "202401" |};
         {| transaction := {| date := Some 20240102%Z;
                              description := [CStr "Salary"];
                              amount := CNum 2500 |};
            category := "Income"; is_anomaly := false; month := "202401" |} ] in
  fst (run file) = table
  /\ position (snd (run file)) = 15
  /\ fst (run (snd (run file))) = table.
Proof.
  intros run file table.
  assert (H : fst (run file) = table) by (vm_compute; reflexivity).
  split; [exact H|]. split; [vm_compute; reflexivity|].
  rewrite <- H.
  apply (proj1 (proj2 (process_data_deterministic sample_read_csv no_csv iso_to_datetime
                         substring_ratio sample_month None false))).
Defined.

(** * Header normalizer: what the detection returns *)

Lemma scan_header_shape (n : nat) :
  forall rs row below,
    scan_header n rs = Some (row, below) ->
    exists idx,
      idx < n /\ nth_error rs idx = Some row /\ below = skipn (S idx) rs
      /\ is_header_row row = true.
Proof.
  induction n as [|n IH]; intros rs row below H; [discriminate|].
  destruct rs as [|r rs]; [discriminate|].
  cbn [scan_header] in H. destruct (is_header_row r) eqn:E.
  - injection H as <- <-. exists 0. repeat split; [lia|exact E].
  - destruct (IH _ _ _ H) as (idx & Hlt & Hnth & Hbelow & Hrow).
    exists (S idx). repeat split; [lia|exact Hnth|exact Hbelow|exact Hrow].
Qed.

(** X1.  The header detection never edits or reorders the data: its rows
    are the rows of the input from some position on, at most 20 rows are
    cut off, and when rows are cut off the last of them is a header row and
    becomes the labels; when none is cut off the table is returned as it
    is. *)
Theorem detect_and_skip_header_suffix (df : DataFrame) :
  exists k,
    k <= 20
    /\ rows (detect_and_skip_header df) = skipn k (rows df)
    /\ List.length (rows (detect_and_skip_header df)) = List.length (rows df) - k
    /\ (k = 0 -> detect_and_skip_header df = df)
    /\ (0 < k ->
        nth_error (rows df) (k - 1) = Some (columns (detect_and_skip_header df))
        /\ is_header_row (columns (detect_and_skip_header df)) = true).
Proof.
  unfold detect_and_skip_header.
  destruct (scan_header 20 (rows df)) as [[row below]|] eqn:E.
  - destruct (scan_header_shape _ _ _ _ E) as (idx & Hlt & Hnth & Hbelow & Hrow).
    exists (S idx). cbn [rows columns]. subst below.
    split; [lia|]. split; [reflexivity|]. split; [apply length_skipn|].
    split; [discriminate|]. intros _.
    replace (S idx - 1) with idx by lia. split; assumption.
  - exists 0. cbn [skipn]. split; [lia|]. split; [reflexivity|].
    split; [lia|]. split; [reflexivity|]. intros H. lia.
Qed.

(** * Header normalizer: rows of numbers *)

Lemma all_chars_app (p : ascii -> bool) (s t : string) :
  all_chars p (s ++ t)%string = all_chars p s && all_chars p t.
Proof.
  induction s as [|c s IH]; [reflexivity|].
  cbn [String.append all_chars]. rewrite IH. apply andb_assoc.
Qed.

Lemma all_chars_substring (p : ascii -> bool) (s : string) :
  forall n m, all_chars p s = true -> all_chars p (String.substring n m s) = true.
Proof.
  induction s as [|c s IH]; intros n m H.
  - destruct n, m; reflexivity.
  - cbn [all_chars] in H. apply andb_true_iff in H. destruct H as [Hc Hs].
    destruct n as [|n]; [destruct m as [|m]|]; cbn [String.substring all_chars].
    + reflexivity.
    + rewrite Hc. apply IH, Hs.
    + apply IH, Hs.
Qed.

Lemma all_chars_uint (d : Decimal.uint) :
  all_chars number_char (NilEmpty.string_of_uint d) = true.
Proof. induction d; cbn [NilEmpty.string_of_uint all_chars]; try rewrite IHd; reflexivity. Qed.

Lemma all_chars_strip_zeros (p : ascii -> bool) (s : string) :
  all_chars p s = true -> all_chars p (PyNum.strip_zeros_r s) = true.
Proof.
  induction s as [|c s IH]; intros H; [reflexivity|].
  cbn [all_chars] in H. apply andb_true_iff in H. destruct H as [Hc Hs].
  cbn [PyNum.strip_zeros_r]. specialize (IH Hs).
  destruct (PyNum.strip_zeros_r s) as [|c' r].
  - destruct (Ascii.eqb c "0"); [reflexivity|]. cbn [all_chars]. rewrite Hc. reflexivity.
  - cbn [all_chars] in *. rewrite Hc. exact IH.
Qed.

Lemma all_chars_zeros (n : nat) : all_chars number_char (PyNum.zeros n) = true.
Proof. induction n as [|n IH]; [reflexivity|exact IH]. Qed.

Lemma all_chars_format_repr (digits : string) (pt : Z) :
  all_chars number_char digits = true ->
  all_chars number_char (PyNum.format_repr digits pt) = true.
Proof.
  intros H. unfold PyNum.format_repr.
  destruct (_ || _).
  - rewrite !all_chars_app.
    assert (Hm : all_chars number_char
                   match digits with
                   | EmptyString => EmptyString
                   | String d EmptyString => String d EmptyString
                   | String d rest => String d ("." ++ rest)
                   end = true).
    { destruct digits as [|d [|d' rest]]; [reflexivity|exact H|].
      cbn [all_chars] in H. apply andb_true_iff in H. destruct H as [Hd Hr].
      change ("." ++ String d' rest)%string with (String "." (String d' rest)).
      cbn [all_chars]. cbn [all_chars] in Hr. rewrite Hd, Hr. reflexivity. }
    rewrite Hm. cbn [andb].
    assert (He : forall z, all_chars number_char (PyNum.dec_string z) = true)
      by (intros z; apply all_chars_uint).
    destruct (_ <? _)%Z, (Nat.ltb _ _); rewrite ?all_chars_app, He; reflexivity.
  - destruct (_ <=? _)%Z.
    + rewrite !all_chars_app, all_chars_zeros, H. reflexivity.
    + destruct (_ <=? _)%Z.
      * rewrite !all_chars_app, all_chars_zeros, H. reflexivity.
      * rewrite !all_chars_app, !all_chars_substring by exact H. reflexivity.
Qed.

Lemma all_chars_str_of_float (x : float) :
  all_chars number_char (PyNum.str_of_float x) = true.
Proof.
  unfold PyNum.str_of_float.
  destruct (Prim2SF x) as [[]|[]| |sg m e]; try reflexivity.
  cbv zeta.
  match goal with
  | |- context [PyNum.shortest ?a ?b ?c ?d ?e ?f ?g] =>
      destruct (PyNum.shortest a b c d e f g) as [cc ss]
  end.
  rewrite all_chars_app, all_chars_format_repr.
  - destruct sg; reflexivity.
  - apply all_chars_strip_zeros, all_chars_uint.
Qed.

Lemma lower_number_char (c : ascii) : number_char c = true -> PyStr.lower_ascii c = c.
Proof. destruct c as [[] [] [] [] [] [] [] []]; intros H; try reflexivity; discriminate H. Qed.

Lemma lower_number (s : string) : all_chars number_char s = true -> PyStr.lower s = s.
Proof.
  induction s as [|c s IH]; intros H; [reflexivity|].
  cbn [all_chars] in H. apply andb_true_iff in H. destruct H as [Hc Hs].
  cbn [PyStr.lower]. rewrite (lower_number_char c Hc), (IH Hs). reflexivity.
Qed.

Lemma all_chars_join (l : list string) :
  Forall (fun s => all_chars number_char s = true) l ->
  all_chars number_char (PyStr.join " " l) = true.
Proof.
  induction 1 as [|s l Hs Hl IH]; [reflexivity|].
  cbn [PyStr.join]. destruct l as [|s' l']; [exact Hs|].
  rewrite !all_chars_app, Hs, IH. reflexivity.
Qed.

Lemma startswith_chars (q : ascii -> bool) (p : string) :
  forall s, PyStr.startswith p s = true -> all_chars q s = true -> all_chars q p = true.
Proof.
  induction p as [|a p IH]; intros s Hp Hs; [reflexivity|].
  destruct s as [|b s]; [discriminate|].
  cbn [PyStr.startswith] in Hp. apply andb_true_iff in Hp. destruct Hp as [Hab Hp].
  apply Ascii.eqb_eq in Hab. subst b.
  cbn [all_chars] in *. apply andb_true_iff in Hs. destruct Hs as [Ha Hs].
  rewrite Ha. exact (IH s Hp Hs).
Qed.

Lemma contains_chars (q : ascii -> bool) (p s : string) :
  PyStr.contains p s = true -> all_chars q s = true -> all_chars q p = true.
Proof.
  induction s as [|b s IH]; intros Hp Hs; cbn [PyStr.contains] in Hp;
    apply orb_true_iff in Hp; destruct Hp as [Hp|Hp];
    try discriminate; try exact (startswith_chars q p _ Hp Hs).
  cbn [all_chars] in Hs. apply andb_true_iff in Hs. exact (IH Hp (proj2 Hs)).
Qed.

Lemma row_str_number_chars (row : list cell) :
  (forall c, In c row -> exists x, c = CNum x) ->
  all_chars number_char (row_str row) = true.
Proof.
  intros H. unfold row_str. apply all_chars_join.
  apply Forall_forall. intros s Hs. apply in_map_iff in Hs.
  destruct Hs as [c [<- Hc]]. apply filter_In in Hc. destruct Hc as [Hc _].
  destruct (H c Hc) as [x ->]. cbn [py_str].
  rewrite (lower_number _ (all_chars_str_of_float x)). apply all_chars_str_of_float.
Qed.

Lemma numeric_row_not_header (row : list cell) :
  (forall c, In c row -> exists x, c = CNum x) -> is_header_row row = false.
Proof.
  intros H. pose proof (row_str_number_chars row H) as Hchars.
  unfold is_header_row. destruct (existsb _ header_keywords) eqn:E; [|reflexivity].
  apply existsb_exists in E. destruct E as [kw [Hkw Hc]].
  pose proof (contains_chars number_char _ _ Hc Hchars) as Hk.
  cbn [header_keywords In] in Hkw.
  repeat (destruct Hkw as [<-|Hkw]; [discriminate Hk|]). destruct Hkw.
Qed.

(** X2.  A row that holds only numbers and missing cells is never taken
    for the header row, and a table of such rows comes back from the header
    detection as it went in. *)
Theorem numeric_rows_not_header (df : DataFrame) :
  (forall row, In row (rows df) -> forall c, In c row -> exists x, c = CNum x) ->
  (forall row, In row (rows df) -> is_header_row row = false)
  /\ detect_and_skip_header df = df.
Proof.
  intros H.
  assert (Hrow : forall row, In row (rows df) -> is_header_row row = false).
  { intros row Hr. apply numeric_row_not_header, H, Hr. }
  split; [exact Hrow|].
  unfold detect_and_skip_header. rewrite scan_header_none; [reflexivity|].
  intros j r _ Hj. apply Hrow. eapply nth_error_In, Hj.
Qed.

Lemma numeric_rows_not_header_witness :
  let df := {| columns := [CStr "Unnamed: 0"; CStr "Unnamed: 1"; CStr "Unnamed: 2"];
               rows := [ [CNum 1500; missing; CNum (-2.5)];
                         [CNum 0x1p70; CNum infinity; CNum 1e-7] ] |} in
  (forall row, In row (rows df) -> is_header_row row = false)
  /\ detect_and_skip_header df = df.
Proof.
  intros df. apply (numeric_rows_not_header df).
  intros row Hr c Hc. cbn [rows df In] in Hr.
  destruct Hr as [<-|[<-|[]]]; cbn [In] in Hc;
    repeat (destruct Hc as [<-|Hc]; [eexists; reflexivity|]); destruct Hc.
Defined.

(** * Lists of labels: numbering the repeated ones *)

Lemma startswith_refl (s : string) : PyStr.startswith s s = true.
Proof.
  induction s as [|c s IH]; [reflexivity|].
  cbn [PyStr.startswith]. rewrite Ascii.eqb_refl, IH. reflexivity.
Qed.

Lemma startswith_app (s t : string) : PyStr.startswith s (s ++ t)%string = true.
Proof.
  induction s as [|c s IH]; [reflexivity|].
  cbn [PyStr.startswith String.append]. rewrite Ascii.eqb_refl, IH. reflexivity.
Qed.

Lemma startswith_trans (a : string) :
  forall b c, PyStr.startswith a b = true -> PyStr.startswith b c = true ->
              PyStr.startswith a c = true.
Proof.
  induction a as [|x a IH]; intros b c Hab Hbc; [reflexivity|].
  destruct b as [|y b]; [discriminate|]. destruct c as [|z c]; [discriminate|].
  cbn [PyStr.startswith] in *.
  apply andb_true_iff in Hab. destruct Hab as [Hxy Hab].
  apply andb_true_iff in Hbc. destruct Hbc as [Hyz Hbc].
  apply Ascii.eqb_eq in Hxy. apply Ascii.eqb_eq in Hyz. subst.
  rewrite Ascii.eqb_refl, (IH b c Hab Hbc). reflexivity.
Qed.

Lemma number_dups_length (dup : string) (l : list string) :
  forall i, List.length (number_dups dup i l) = List.length l.
Proof.
  induction l as [|x r IH]; intros i; [reflexivity|].
  cbn [number_dups]. destruct (String.eqb x dup); cbn [List.length]; rewrite IH; reflexivity.
Qed.

Lemma number_dups_prefix (dup : string) (l : list string) :
  forall i, Forall2 (fun old new => PyStr.startswith old new = true) l (number_dups dup i l).
Proof.
  induction l as [|x r IH]; intros i; [constructor|].
  cbn [number_dups]. destruct (String.eqb x dup) eqn:E.
  - apply String.eqb_eq in E. subst x. constructor; [|apply IH].
    destruct (Nat.eqb i 0); [apply startswith_refl|apply startswith_app].
  - constructor; [apply startswith_refl|apply IH].
Qed.

Lemma number_dups_hd (dup : string) (l : list string) :
  hd_error (number_dups dup 0 l) = hd_error l.
Proof.
  destruct l as [|x r]; [reflexivity|].
  cbn [number_dups]. destruct (String.eqb x dup) eqn:E; [|reflexivity].
  apply String.eqb_eq in E. subst x. reflexivity.
Qed.

Lemma prefix_chain (l1 l2 : list string) :
  Forall2 (fun old new => PyStr.startswith old new = true) l1 l2 ->
  forall l3, Forall2 (fun old new => PyStr.startswith old new = true) l2 l3 ->
             Forall2 (fun old new => PyStr.startswith old new = true) l1 l3.
Proof.
  induction 1 as [|a b l1 l2 Hab _ IH]; intros l3 H23; inversion H23; subst; constructor.
  - eapply startswith_trans; eauto.
  - apply IH. assumption.
Qed.

Lemma prefix_same (l : list string) :
  Forall2 (fun old new => PyStr.startswith old new = true) l l.
Proof. induction l; constructor; [apply startswith_refl|assumption]. Qed.

Lemma duplicated_nodup (l : list string) :
  forall seen, NoDup l -> (forall x, In x l -> ~ In x seen) -> duplicated seen l = [].
Proof.
  induction l as [|x r IH]; intros seen Hnd Hs; [reflexivity|].
  inversion Hnd as [|? ? Hx Hr]; subst.
  cbn [duplicated].
  destruct (PyStr.eqb_in x seen) eqn:E.
  - apply eqb_in_spec in E. exfalso. apply (Hs x); [left; reflexivity|exact E].
  - apply IH; [exact Hr|].
    intros y Hy [Hin|Hin]; [subst; contradiction|].
    apply (Hs y); [right; exact Hy|exact Hin].
Qed.

(** X3.  Numbering the repeated labels keeps the number of labels, only
    ever appends a suffix to a label (every new label starts with the old
    one), never renames the first label, and changes nothing when no label
    is repeated. *)
Theorem dedup_labels_spec (l : list string) :
  List.length (dedup_labels l) = List.length l
  /\ Forall2 (fun old new => PyStr.startswith old new = true) l (dedup_labels l)
  /\ hd_error (dedup_labels l) = hd_error l
  /\ (NoDup l -> dedup_labels l = l).
Proof.
  unfold dedup_labels.
  assert (G : forall dups cs,
             List.length (fold_left (fun cs dup => number_dups dup 0 cs) dups cs)
             = List.length cs
             /\ Forall2 (fun old new => PyStr.startswith old new = true) cs
                  (fold_left (fun cs dup => number_dups dup 0 cs) dups cs)
             /\ hd_error (fold_left (fun cs dup => number_dups dup 0 cs) dups cs)
                = hd_error cs).
  { induction dups as [|d dups IH]; intros cs; cbn [fold_left].
    - repeat split. apply prefix_same.
    - destruct (IH (number_dups d 0 cs)) as (H1 & H2 & H3).
      rewrite H1, H3, number_dups_length, number_dups_hd.
      repeat split.
      eapply prefix_chain; [apply number_dups_prefix|exact H2]. }
  destruct (G (unique [] (duplicated [] l)) l) as (H1 & H2 & H3).
  repeat split; auto.
  intros Hnd. rewrite duplicated_nodup; auto.
Qed.

(** * Column mapper: the columns the mapping keeps *)

Lemma unnamed_to_drop_unnamed (f : Frame) (ls : list string) :
  forall dropped, unnamed_to_drop f ls = Ok dropped ->
                  forall x, In x dropped -> is_unnamed x = true.
Proof.
  induction ls as [|col r IH]; intros dropped H x Hx; cbn [unnamed_to_drop] in H.
  - injection H as <-. destruct Hx.
  - destruct (is_unnamed col) eqn:E; [|exact (IH _ H x Hx)].
    destruct (Nat.ltb 1 _); [discriminate|].
    destruct (unnamed_to_drop f r) as [rest|]; [|discriminate].
    cbn [bind] in H. injection H as <-.
    destruct (Nat.ltb _ _); [destruct Hx as [<-|Hx]; [exact E|]|]; exact (IH _ eq_refl x Hx).
Qed.

Lemma drop_columns_keeps (ls : list string) (f : Frame) (l : string) (c : list cell) :
  In (l, c) (cols f) -> ~ In l ls -> In (l, c) (cols (drop_columns ls f)).
Proof.
  intros Hin Hn. unfold drop_columns. cbn [cols]. apply filter_In. split; [exact Hin|].
  cbn [fst]. destruct (PyStr.eqb_in l ls) eqn:E; [|reflexivity].
  apply eqb_in_spec in E. contradiction.
Qed.

Lemma drop_row_counter_keeps (f : Frame) (l : string) (c : list cell) :
  In (l, c) (cols f) -> is_unnamed l = false -> In (l, c) (cols (drop_row_counter f)).
Proof.
  intros Hin Hu. unfold drop_row_counter.
  destruct (cols f) as [|[first_col c0] r] eqn:E; [rewrite E; exact Hin|].
  destruct (is_unnamed first_col) eqn:E1; cbn [andb]; [|rewrite E; exact Hin].
  destruct (is_row_counter c0); [|rewrite E; exact Hin].
  apply drop_columns_keeps; [rewrite E; exact Hin|].
  cbn [In]. intros [H|[]]. subst. congruence.
Qed.

(** X4.  The mapping of the labels loses no named column that has data:
    a column of the table whose standardised label does not contain
    [unnamed] and that has a present cell is a column of the mapped table,
    with the same cells, under its role or, when it has none, under its
    label. *)
Theorem map_columns_keeps_named (df : DataFrame) (skip : bool) (mapped : Frame)
    (l : string) (c : list cell) :
  let table := if skip then df else detect_and_skip_header df in
  let standard := standardize_columns table in
  map_columns df skip = Ok mapped ->
  In (l, c) (cols (relabel (dedup_labels (labels standard)) standard)) ->
  is_unnamed l = false ->
  existsb notna c = true ->
  In (match column_role l with Some role => role | None => l end, c) (cols mapped).
Proof.
  cbv zeta. unfold map_columns.
  set (f0 := relabel _ _). intros H Hin Hu Hdata.
  assert (H1 : In (l, c) (cols (drop_empty_columns f0))).
  { unfold drop_empty_columns. cbn [cols]. apply filter_In. split; [exact Hin|exact Hdata]. }
  destruct (unnamed_to_drop (drop_empty_columns f0) (labels (drop_empty_columns f0)))
    as [dropped|] eqn:E; [|discriminate].
  cbn [bind] in H. injection H as <-.
  unfold rename_columns. cbn [cols].
  apply in_map_iff. exists (l, c). split; [reflexivity|].
  apply drop_row_counter_keeps; [|exact Hu].
  apply drop_columns_keeps; [exact H1|].
  intros Hd. rewrite (unnamed_to_drop_unnamed _ _ _ E l Hd) in Hu. discriminate.
Qed.

Lemma map_columns_keeps_named_witness :
  let mapped := {| cols := [ ("date", [CStr "2024-01-01"; CStr "2024-01-02"]);
                             ("description", [CStr "Opening"; CStr "Salary"]);
                             ("amount", [CStr "0"; CStr "1,000"]) ];
                   nrows := 2 |} in
  map_columns text_amount_statement true = Ok mapped
  /\ In ("date", [CStr "2024-01-01"; CStr "2024-01-02"]) (cols mapped).
Proof.
  intros mapped. split; [vm_compute; reflexivity|].
  apply (map_columns_keeps_named text_amount_statement true mapped "trans date"
           [CStr "2024-01-01"; CStr "2024-01-02"]).
  - vm_compute. reflexivity.
  - vm_compute. left. reflexivity.
  - reflexivity.
  - reflexivity.
Defined.

(** * Column mapper: the three cell parsers *)

Lemma replace_absent (old new s : string) :
  PyStr.contains old s = false -> PyStr.replace old new s = s.
Proof.
  unfold PyStr.replace.
  induction s as [|c s IH]; intros H; [reflexivity|].
  cbn [PyStr.contains] in H. apply orb_false_iff in H. destruct H as [H1 H2].
  cbn [PyStr.replace_from]. rewrite H1, (IH H2). reflexivity.
Qed.

Lemma parse_credit_only_amount (c : cell) : parse_credit_only c = parse_amount c.
Proof.
  unfold parse_credit_only, parse_amount.
  destruct (isna c) eqn:Hna; [reflexivity|].
  assert (G : forall v : string,
             (if String.eqb (PyStr.strip (PyStr.replace "--" "0" (PyStr.replace "," "" v))) ""
              then 0%float
              else float_or_zero (PyStr.strip (PyStr.replace "--" "0" (PyStr.replace "," "" v))))
             = (if String.eqb (PyStr.strip (PyStr.replace "--" "0" (PyStr.replace "," "" v))) ""
                   || String.eqb (PyStr.strip (PyStr.replace "--" "0"
                                                 (PyStr.replace "," "" v))) "--"
                then 0%float
                else float_or_zero (PyStr.strip (PyStr.replace "--" "0"
                                                   (PyStr.replace "," "" v))))).
  { intros v.
    set (t := PyStr.strip (PyStr.replace "--" "0" (PyStr.replace "," "" v))).
    destruct (String.eqb t "") eqn:E1; [reflexivity|].
    destruct (String.eqb t "--") eqn:E2; [|reflexivity].
    apply String.eqb_eq in E2. rewrite E2. reflexivity. }
  destruct c as [s|x].
  - destruct (String.eqb s "--") eqn:E.
    + apply String.eqb_eq in E. subst s. reflexivity.
    + apply G.
  - apply G.
Qed.

Lemma parse_debit_only_amount (c : cell) :
  PyStr.contains "--" (PyStr.replace "," "" (py_str c)) = false ->
  parse_debit_only c = parse_amount c.
Proof.
  intros H. unfold parse_debit_only, parse_amount.
  destruct (isna c) eqn:Hna; [reflexivity|].
  assert (G : forall v : string,
             PyStr.contains "--" (PyStr.replace "," "" v) = false ->
             (if String.eqb (PyStr.strip (PyStr.replace "--" "" (PyStr.replace "," "" v))) ""
                 || String.eqb (PyStr.strip (PyStr.replace "--" ""
                                               (PyStr.replace "," "" v))) "0"
              then 0%float
              else float_or_zero (PyStr.strip (PyStr.replace "--" "" (PyStr.replace "," "" v))))
             = (if String.eqb (PyStr.strip (PyStr.replace "--" "0" (PyStr.replace "," "" v))) ""
                   || String.eqb (PyStr.strip (PyStr.replace "--" "0"
                                                 (PyStr.replace "," "" v))) "--"
                then 0%float
                else float_or_zero (PyStr.strip (PyStr.replace "--" "0"
                                                   (PyStr.replace "," "" v))))).
  { intros v Hv. rewrite !(replace_absent "--" _ _ Hv).
    set (t := PyStr.strip (PyStr.replace "," "" v)).
    destruct (String.eqb t "") eqn:E1; [reflexivity|].
    destruct (String.eqb t "0") eqn:E2, (String.eqb t "--") eqn:E3; cbn [orb];
      try reflexivity.
    - apply String.eqb_eq in E2. rewrite E2. reflexivity.
    - apply String.eqb_eq in E3. rewrite E3. reflexivity. }
  destruct c as [s|x].
  - destruct (String.eqb s "--") eqn:E.
    + apply String.eqb_eq in E. subst s. discriminate H.
    + apply G, H.
  - apply G, H.
Qed.

(** X5.  The three copies of the cell parser agree: the one of the
    credit-only path gives, for every cell, the number the parser of the
    two-column path gives; the one of the debit-only path does so for every
    cell whose text, commas removed, does not contain [--].  (Inside other
    text the debit-only path deletes a [--] and the other two put a [0] in
    its place.) *)
Theorem cell_parsers_agree :
  (forall c, parse_credit_only c = parse_amount c)
  /\ (forall c, PyStr.contains "--" (PyStr.replace "," "" (py_str c)) = false ->
                parse_debit_only c = parse_amount c)
  /\ parse_debit_only (CStr "1--5") = 15%float
  /\ parse_amount (CStr "1--5") = 105%float.
Proof.
  split; [exact parse_credit_only_amount|].
  split; [exact parse_debit_only_amount|].
  split; reflexivity.
Qed.

(** * Column mapper: statements with one amount column *)

Lemma iterate_column_once (l : string) (f : Frame) :
  count_label l (labels f) = 1 -> iterate_column l f = get_column l (cols f).
Proof. intros H. unfold iterate_column. rewrite H. reflexivity. Qed.

(** X6.  A statement with one debit column and no credit column: when the
    column has a cell for every row, the amount of a row is the negated
    number of its debit cell. *)
Theorem reconcile_debit_only (f : Frame) :
  PyStr.eqb_in "credit" (labels f) = false ->
  count_label "debit" (labels f) = 1 ->
  List.length (get_column "debit" (cols f)) = nrows f ->
  exists f',
    reconcile_amount f = Ok f'
    /\ get_column "amount" (cols f')
       = map (fun debit => CNum (- parse_debit_only debit)%float) (get_column "debit" (cols f)).
Proof.
  intros Hc Hd Hlen.
  assert (Hin : PyStr.eqb_in "debit" (labels f) = true)
    by (apply count_label_pos; rewrite Hd; lia).
  unfold reconcile_amount. rewrite Hin, Hc. cbn [andb].
  rewrite (iterate_column_once _ _ Hd), length_map, Hlen, Nat.eqb_refl.
  eexists. split; [reflexivity|].
  rewrite get_column_drop_columns by reflexivity.
  rewrite get_column_set_column, map_map. reflexivity.
Qed.

Lemma reconcile_debit_only_witness :
  exists f',
    reconcile_amount {| cols := [ ("date", [CStr "2024-01-01"; CStr "2024-01-02"]);
                                  ("description", [CStr "Uber Trip Lagos"; CStr "Fuel"]);
                                  ("debit", [CStr "1,000.00"; CNum 250]) ];
                        nrows := 2 |} = Ok f'
    /\ get_column "amount" (cols f') = [CNum (-1000); CNum (-250)].
Proof.
  apply (reconcile_debit_only
           {| cols := [ ("date", [CStr "2024-01-01"; CStr "2024-01-02"]);
                        ("description", [CStr "Uber Trip Lagos"; CStr "Fuel"]);
                        ("debit", [CStr "1,000.00"; CNum 250]) ];
              nrows := 2 |}); reflexivity.
Defined.

(** X7.  A statement with one credit column and no debit column: when the
    column has a cell for every row, the amount of a row is the number of
    its credit cell, the same number the two-column path reads from that
    cell. *)
Theorem reconcile_credit_only (f : Frame) :
  PyStr.eqb_in "debit" (labels f) = false ->
  count_label "credit" (labels f) = 1 ->
  List.length (get_column "credit" (cols f)) = nrows f ->
  exists f',
    reconcile_amount f = Ok f'
    /\ get_column "amount" (cols f')
       = map (fun credit => CNum (parse_credit_only credit)) (get_column "credit" (cols f))
    /\ get_column "amount" (cols f')
       = map (fun credit => CNum (parse_amount credit)) (get_column "credit" (cols f)).
Proof.
  intros Hd Hc Hlen.
  assert (Hin : PyStr.eqb_in "credit" (labels f) = true)
    by (apply count_label_pos; rewrite Hc; lia).
  unfold reconcile_amount. rewrite Hin, Hd. cbn [andb].
  rewrite (iterate_column_once _ _ Hc), length_map, Hlen, Nat.eqb_refl.
  eexists. split; [reflexivity|].
  rewrite get_column_drop_columns by reflexivity.
  rewrite get_column_set_column, map_map.
  split; [reflexivity|].
  apply map_ext. intros c. rewrite parse_credit_only_amount. reflexivity.
Qed.

Lemma reconcile_credit_only_witness :
  exists f',
    reconcile_amount {| cols := [ ("date", [CStr "2024-01-01"; CStr "2024-01-02"]);
                                  ("description", [CStr "Salary"; CStr "Reversal"]);
                                  ("credit", [CStr "2,500"; CStr "--"]) ];
                        nrows := 2 |} = Ok f'
    /\ get_column "amount" (cols f') = [CNum 2500; CNum 0]
    /\ get_column "amount" (cols f') = [CNum 2500; CNum 0].
Proof.
  apply (reconcile_credit_only
           {| cols := [ ("date", [CStr "2024-01-01"; CStr "2024-01-02"]);
                        ("description", [CStr "Salary"; CStr "Reversal"]);
                        ("credit", [CStr "2,500"; CStr "--"]) ];
              nrows := 2 |}); reflexivity.
Defined.

(** * Column mapper: what the reconciliation leaves alone *)

Lemma labels_drop_columns (l : string) (ls : list string) (f : Frame) :
  In l (labels (drop_columns ls f)) <-> In l (labels f) /\ ~ In l ls.
Proof.
  unfold labels, drop_columns. cbn [cols].
  rewrite !in_map_iff. split.
  - intros [c [Hc Hin]]. apply filter_In in Hin. destruct Hin as [Hin Hb].
    split; [exists c; auto|].
    intros Hl. apply eqb_in_spec in Hl. rewrite Hc, Hl in Hb. discriminate.
  - intros [[c [Hc Hin]] Hl]. exists c. split; [exact Hc|].
    apply filter_In. split; [exact Hin|].
    rewrite Hc. destruct (PyStr.eqb_in l ls) eqn:E; [|reflexivity].
    apply eqb_in_spec in E. contradiction.
Qed.

Lemma labels_set_column (l' l : string) (v : list cell) (f : Frame) :
  In l' (labels (set_column l v f)) <-> In l' (labels f) \/ l' = l.
Proof.
  unfold set_column, labels. cbn [cols].
  destruct (PyStr.eqb_in l (map fst (cols f))) eqn:E.
  - rewrite map_map.
    assert (Hm : map (fun c : string * list cell =>
                        fst (if String.eqb (fst c) l then (fst c, v) else c)) (cols f)
                 = map fst (cols f)).
    { apply map_ext. intros c. destruct (String.eqb (fst c) l); reflexivity. }
    rewrite Hm. apply eqb_in_spec in E. split; [auto|].
    intros [H|H]; [exact H|subst; exact E].
  - rewrite map_app, in_app_iff. cbn [map fst In]. split.
    + intros [H|[H|[]]]; auto.
    + intros [H|H]; auto.
Qed.

Lemma columns_named_set_other (l' l : string) (v : list cell) (f : Frame) :
  l' <> l -> columns_named l' (set_column l v f) = columns_named l' f.
Proof.
  intros Hne. unfold columns_named, set_column. cbn [cols].
  assert (Hl : String.eqb l l' = false) by (apply String.eqb_neq; congruence).
  destruct (PyStr.eqb_in l (labels f)).
  - induction (cols f) as [|[a c] r IH]; [reflexivity|].
    cbn [map filter fst snd]. destruct (String.eqb a l) eqn:E.
    + apply String.eqb_eq in E. subst a. cbn [fst]. rewrite Hl. exact IH.
    + cbn [fst]. destruct (String.eqb a l'); cbn [map snd]; rewrite IH; reflexivity.
  - rewrite filter_app. cbn [filter fst]. rewrite Hl, app_nil_r. reflexivity.
Qed.

Lemma columns_named_drop_other (l' : string) (ls : list string) (f : Frame) :
  ~ In l' ls -> columns_named l' (drop_columns ls f) = columns_named l' f.
Proof.
  intros Hn. unfold columns_named, drop_columns. cbn [cols].
  induction (cols f) as [|[a c] r IH]; [reflexivity|].
  cbn [filter fst]. destruct (String.eqb a l') eqn:E.
  - apply String.eqb_eq in E. subst a.
    destruct (PyStr.eqb_in l' ls) eqn:E2; [apply eqb_in_spec in E2; contradiction|].
    cbn [negb filter fst map snd]. rewrite String.eqb_refl. cbn [map snd]. rewrite IH.
    reflexivity.
  - destruct (negb (PyStr.eqb_in a ls)); [|exact IH].
    cbn [filter fst]. rewrite E. exact IH.
Qed.

Ltac label_facts :=
  repeat match goal with
         | H : In _ (labels (drop_columns _ _)) |- _ => apply labels_drop_columns in H
         | H : In _ (labels (set_column _ _ _)) |- _ => apply labels_set_column in H
         | H : _ /\ _ |- _ => destruct H
         | H : PyStr.eqb_in _ _ = true |- _ => apply eqb_in_spec in H
         end.

(** X8.  The reconciliation of the amount touches nothing but the columns
    [debit], [credit] and [amount]: it keeps the number of rows, its result
    has no debit and no credit column, has an amount column exactly when
    one of the three was there, and every column under another label (the
    dates and the descriptions among them) is returned as it came. *)
Theorem reconcile_amount_frame (f f' : Frame) :
  reconcile_amount f = Ok f' ->
  nrows f' = nrows f
  /\ ~ In "debit" (labels f')
  /\ ~ In "credit" (labels f')
  /\ (In "amount" (labels f')
      <-> In "amount" (labels f) \/ In "debit" (labels f) \/ In "credit" (labels f))
  /\ (forall l, l <> "amount" -> l <> "debit" -> l <> "credit" ->
        columns_named l f' = columns_named l f).
Proof.
  unfold reconcile_amount.
  destruct (PyStr.eqb_in "debit" (labels f)) eqn:Hd;
  destruct (PyStr.eqb_in "credit" (labels f)) eqn:Hc; cbn [andb].
  - destruct (Nat.eqb (count_label "debit" (labels f)) 1
              && Nat.eqb (count_label "credit" (labels f)) 1); [|discriminate].
    intros H. injection H as <-. label_facts.
    split; [reflexivity|].
    split; [intros H; label_facts; cbn [In] in *; tauto|].
    split; [intros H; label_facts; cbn [In] in *; tauto|].
    split.
    + split; [tauto|]. intros _. apply labels_drop_columns.
      split; [apply labels_set_column; auto|].
      cbn [In]. intros [H|[H|[]]]; discriminate.
    + intros l H1 H2 H3. rewrite columns_named_drop_other.
      * apply columns_named_set_other, H1.
      * cbn [In]. intros [H|[H|[]]]; congruence.
  - destruct (Nat.eqb _ _); [|discriminate].
    intros H. injection H as <-. label_facts.
    assert (Hnc : ~ In "credit" (labels f))
      by (intros H; apply eqb_in_spec in H; congruence).
    split; [reflexivity|].
    split; [intros H; label_facts; cbn [In] in *; tauto|].
    split; [intros H; label_facts; destruct H as [H|H]; [tauto|discriminate]|].
    split.
    + split; [tauto|]. intros _. apply labels_drop_columns.
      split; [apply labels_set_column; auto|].
      cbn [In]. intros [H|[]]; discriminate.
    + intros l H1 H2 H3. rewrite columns_named_drop_other.
      * apply columns_named_set_other, H1.
      * cbn [In]. intros [H|[]]; congruence.
  - destruct (Nat.eqb _ _); [|discriminate].
    intros H. injection H as <-. label_facts.
    assert (Hnd : ~ In "debit" (labels f))
      by (intros H; apply eqb_in_spec in H; congruence).
    split; [reflexivity|].
    split; [intros H; label_facts; destruct H as [H|H]; [tauto|discriminate]|].
    split; [intros H; label_facts; cbn [In] in *; tauto|].
    split.
    + split; [tauto|]. intros _. apply labels_drop_columns.
      split; [apply labels_set_column; auto|].
      cbn [In]. intros [H|[]]; discriminate.
    + intros l H1 H2 H3. rewrite columns_named_drop_other.
      * apply columns_named_set_other, H1.
      * cbn [In]. intros [H|[]]; congruence.
  - intros H. injection H as <-.
    assert (Hnd : ~ In "debit" (labels f))
      by (intros H; apply eqb_in_spec in H; congruence).
    assert (Hnc : ~ In "credit" (labels f))
      by (intros H; apply eqb_in_spec in H; congruence).
    repeat split; auto; tauto.
Qed.

Lemma reconcile_amount_frame_witness :
  let f' := {| cols := [ ("date", [CStr "01 Jan 2024"; CStr "02 Jan 2024"; CStr "03 Jan 2024"]);
                         ("description", [CStr "Uber Trip Lagos"; CStr "Salary"; CStr "Bonus"]);
                         ("amount", [CNum (-1000); CNum 1000; CNum 2500]) ];
                nrows := 3 |} in
  reconcile_amount debit_credit_example = Ok f'
  /\ nrows f' = nrows debit_credit_example
  /\ ~ In "debit" (labels f')
  /\ ~ In "credit" (labels f')
  /\ (In "amount" (labels f')
      <-> In "amount" (labels debit_credit_example) \/ In "debit" (labels debit_credit_example)
          \/ In "credit" (labels debit_credit_example))
  /\ (forall l, l <> "amount" -> l <> "debit" -> l <> "credit" ->
        columns_named l f' = columns_named l debit_credit_example).
Proof.
  intros f'. split; [reflexivity|].
  apply (reconcile_amount_frame debit_credit_example f'). reflexivity.
Defined.

(** * Column mapper: when the reconciliation fails *)

Lemma well_formed_filter (p : string * list cell -> bool) (f : Frame) :
  well_formed f -> well_formed {| cols := filter p (cols f); nrows := nrows f |}.
Proof.
  unfold well_formed. cbn [cols nrows]. intros H.
  apply Forall_forall. intros c Hc. apply filter_In in Hc.
  rewrite Forall_forall in H. apply H, Hc.
Qed.

Lemma standardize_columns_well_formed (df : DataFrame) : well_formed (standardize_columns df).
Proof.
  unfold well_formed, standardize_columns. cbn [cols nrows].
  apply Forall_forall. intros c Hc. apply in_map_iff in Hc.
  destruct Hc as [ic [<- _]]. cbn [snd]. unfold column_at. apply length_map.
Qed.

Lemma relabel_well_formed (new : list string) (f : Frame) :
  well_formed f -> well_formed (relabel new f).
Proof.
  unfold well_formed, relabel. cbn [cols nrows]. intros H.
  apply Forall_forall. intros [l c] Hc. apply in_combine_r in Hc.
  apply in_map_iff in Hc. destruct Hc as [c' [<- Hc']].
  rewrite Forall_forall in H. apply (H c' Hc').
Qed.

Lemma drop_columns_well_formed (ls : list string) (f : Frame) :
  well_formed f -> well_formed (drop_columns ls f).
Proof. apply well_formed_filter. Qed.

Lemma drop_row_counter_well_formed (f : Frame) :
  well_formed f -> well_formed (drop_row_counter f).
Proof.
  intros H. unfold drop_row_counter. destruct (cols f) as [|[l c] r]; [exact H|].
  destruct (_ && _); [apply drop_columns_well_formed, H|exact H].
Qed.

Lemma rename_columns_well_formed (f : Frame) : well_formed f -> well_formed (rename_columns f).
Proof.
  unfold well_formed, rename_columns. cbn [cols nrows]. intros H.
  apply Forall_forall. intros c Hc. apply in_map_iff in Hc.
  destruct Hc as [c' [<- Hc']]. cbn [snd]. rewrite Forall_forall in H. apply (H c' Hc').
Qed.

Lemma map_columns_well_formed (df : DataFrame) (skip : bool) (mapped : Frame) :
  map_columns df skip = Ok mapped -> well_formed mapped.
Proof.
  unfold map_columns.
  set (f0 := drop_empty_columns _).
  assert (H0 : well_formed f0).
  { apply well_formed_filter, relabel_well_formed, standardize_columns_well_formed. }
  destruct (unnamed_to_drop f0 (labels f0)) as [ls|]; [|discriminate].
  cbn [bind]. intros H. injection H as <-.
  apply rename_columns_well_formed, drop_row_counter_well_formed,
    drop_columns_well_formed, H0.
Qed.

Lemma get_column_length (l : string) (f : Frame) :
  well_formed f -> PyStr.eqb_in l (labels f) = true ->
  List.length (get_column l (cols f)) = nrows f.
Proof.
  unfold well_formed, labels. generalize (nrows f) as n.
  induction (cols f) as [|[l' c] r IH]; intros n Hwf Hin; [discriminate|].
  apply Forall_cons_iff in Hwf. destruct Hwf as [Hc Hr]. cbn [get_column].
  cbn [map fst PyStr.eqb_in existsb] in Hin.
  destruct (String.eqb l' l) eqn:E; [exact Hc|].
  rewrite String.eqb_sym, E in Hin. apply IH; [exact Hr|exact Hin].
Qed.

Lemma count_label_present (l : string) (ls : list string) :
  PyStr.eqb_in l ls = true -> 1 <= count_label l ls.
Proof.
  induction ls as [|x r IH]; [discriminate|].
  cbn [PyStr.eqb_in existsb]. rewrite count_label_cons.
  destruct (String.eqb l x); [lia|]. intros H. specialize (IH H). lia.
Qed.

(** X9.  On a table that went through the mapping of the labels, the
    reconciliation of the amount fails only when two columns were mapped to
    [debit] or two to [credit]: with at most one of each it returns a
    table, and the length check of the debit-only path cannot fail. *)
Theorem reconcile_fails_on_repeats (df : DataFrame) (skip : bool) (mapped : Frame) :
  map_columns df skip = Ok mapped ->
  (count_label "debit" (labels mapped) <= 1 ->
   count_label "credit" (labels mapped) <= 1 ->
   exists reconciled, reconcile_amount mapped = Ok reconciled)
  /\ (forall e, reconcile_amount mapped = Err e ->
        (e = DebitCreditError \/ e = DebitError \/ e = CreditError)
        /\ (2 <= count_label "debit" (labels mapped)
            \/ 2 <= count_label "credit" (labels mapped))).
Proof.
  intros Hmap. pose proof (map_columns_well_formed _ _ _ Hmap) as Hwf.
  unfold reconcile_amount.
  destruct (PyStr.eqb_in "debit" (labels mapped)) eqn:Hd;
  destruct (PyStr.eqb_in "credit" (labels mapped)) eqn:Hc; cbn [andb].
  - pose proof (count_label_present _ _ Hd). pose proof (count_label_present _ _ Hc).
    destruct (Nat.eqb_spec (count_label "debit" (labels mapped)) 1) as [E1|E1];
    destruct (Nat.eqb_spec (count_label "credit" (labels mapped)) 1) as [E2|E2]; cbn [andb];
      (split; [intros; first [eexists; reflexivity | lia]
              |intros e He; first [discriminate He
                                  |injection He as <-; split; [auto|lia]]]).
  - pose proof (count_label_present _ _ Hd).
    unfold iterate_column.
    destruct (Nat.eqb_spec (count_label "debit" (labels mapped)) 1) as [E1|E1].
    + rewrite length_map, (get_column_length _ _ Hwf Hd), Nat.eqb_refl.
      split; [intros; eexists; reflexivity|intros e He; discriminate He].
    + destruct (Nat.eqb _ _);
        (split; [intros; first [eexists; reflexivity | lia]
                |intros e He; first [discriminate He
                                    |injection He as <-; split; [auto|lia]]]).
  - pose proof (count_label_present _ _ Hc).
    unfold iterate_column.
    destruct (Nat.eqb_spec (count_label "credit" (labels mapped)) 1) as [E1|E1].
    + rewrite length_map, (get_column_length _ _ Hwf Hc), Nat.eqb_refl.
      split; [intros; eexists; reflexivity|intros e He; discriminate He].
    + destruct (Nat.eqb _ _);
        (split; [intros; first [eexists; reflexivity | lia]
                |intros e He; first [discriminate He
                                    |injection He as <-; split; [auto|lia]]]).
  - split; [intros; eexists; reflexivity|intros e He; discriminate He].
Qed.

Lemma reconcile_fails_on_repeats_witness :
  let df := {| columns := [CStr "Trans Date"; CStr "Narration"; CStr "Debit";
                           CStr "Debit Amount"; CStr "Credit"];
               rows := [ [CStr "2024-01-01"; CStr "Fuel"; CNum 500; CNum 500; CNum 0] ] |} in
  let mapped := {| cols := [ ("date", [CStr "2024-01-01"]); ("description", [CStr "Fuel"]);
                             ("debit", [CNum 500]); ("debit", [CNum 500]);
                             ("credit", [CNum 0]) ];
                   nrows := 1 |} in
  map_columns df true = Ok mapped
  /\ reconcile_amount mapped = Err DebitCreditError
  /\ (count_label "debit" (labels mapped) <= 1 ->
      count_label "credit" (labels mapped) <= 1 ->
      exists reconciled, reconcile_amount mapped = Ok reconciled)
  /\ (forall e, reconcile_amount mapped = Err e ->
        (e = DebitCreditError \/ e = DebitError \/ e = CreditError)
        /\ (2 <= count_label "debit" (labels mapped)
            \/ 2 <= count_label "credit" (labels mapped))).
Proof.
  intros df mapped. split; [vm_compute; reflexivity|]. split; [reflexivity|].
  apply (reconcile_fails_on_repeats df true mapped). vm_compute. reflexivity.
Defined.

(** * Column mapper: the rows of the cleaned table *)

Section CleanedRows.

Variable read_csv_path : string -> result DataFrame.
Variable to_datetime : list cell -> list (option Timestamp).

Lemma select_and_filter_description_count (f : Frame) (txs : list Transaction) :
  select_and_filter to_datetime f = Ok txs ->
  Forall (fun t => List.length (description t)
                   = List.length (columns_named "description" f)) txs.
Proof.
  unfold select_and_filter.
  destruct (forallb (fun c => PyStr.eqb_in c (labels f)) required); [|discriminate].
  destruct (columns_named "date" f) as [|d [|d' ds]]; try discriminate.
  intro H. inversion H; subst; clear H.
  apply Forall_forall. intros t Ht.
  apply filter_In in Ht. destruct Ht as [Ht _].
  apply filter_In in Ht. destruct Ht as [Ht _].
  apply in_map_iff in Ht. destruct Ht as [i [Hi _]]. subst t.
  cbn [description canonical_row]. apply length_map.
Qed.

Lemma cleaned_rows_description_count (file_path : option string)
    (df_override : option DataFrame) (skip : bool) (txs : list Transaction) :
  load_and_clean_expenses read_csv_path to_datetime file_path df_override skip = Ok txs ->
  exists k, 0 < k /\ Forall (fun t => List.length (description t) = k) txs.
Proof.
  intros H. pose proof (emitted_rows_checked _ _ _ _ _ _ H) as Hrows.
  unfold load_and_clean_expenses in H.
  destruct (load_input read_csv_path file_path df_override) as [df|]; [|discriminate].
  cbn [bind] in H. destruct (map_columns df skip) as [mapped|]; [|discriminate].
  cbn [bind] in H. destruct (reconcile_amount mapped) as [reconciled|]; [|discriminate].
  cbn [bind] in H. apply select_and_filter_description_count in H.
  destruct txs as [|t txs]; [exists 1; split; [lia|constructor]|].
  exists (List.length (columns_named "description" reconciled)). split; [|exact H].
  inversion H as [|? ? Ht _]; subst. inversion Hrows as [|? ? (_ & Hne & _) _]; subst.
  rewrite <- Ht. destruct (description t); [congruence|cbn; lia].
Qed.

End CleanedRows.

(** X10.  Every row of the table [load_and_clean_expenses] returns has a
    parsed date, present descriptions, and a present amount that, when it is
    a number, is not zero; and all rows have the same number of description
    cells, at least one. *)
Theorem cleaned_rows_valid
    (read_csv_path : string -> result DataFrame)
    (to_datetime : list cell -> list (option Timestamp))
    (file_path : option string) (df_override : option DataFrame) (skip : bool)
    (txs : list Transaction) :
  load_and_clean_expenses read_csv_path to_datetime file_path df_override skip = Ok txs ->
  Forall (fun t => (exists ts, date t = Some ts)
                   /\ Forall (fun c => isna c = false) (description t)
                   /\ isna (amount t) = false
                   /\ (forall x, amount t = CNum x -> (x =? 0)%float = false)) txs
  /\ exists k, 0 < k /\ Forall (fun t => List.length (description t) = k) txs.
Proof.
  intros H. split.
  - eapply Forall_impl; [|exact (emitted_rows_checked _ _ _ _ _ _ H)].
    cbv beta. intros t (H1 & _ & H2 & H3 & H4). auto.
  - exact (cleaned_rows_description_count _ _ _ _ _ _ H).
Qed.

Lemma cleaned_rows_valid_witness :
  let txs := [ {| date := Some 20240101%Z; description := [CStr "Uber Trip Lagos"];
                  amount := CNum (-1000) |};
               {| date := Some 20240102%Z; description := [CStr "Salary"];
                  amount := CNum 2500 |} ] in
  load_and_clean_expenses no_csv iso_to_datetime None (Some iso_statement) false = Ok txs
  /\ Forall (fun t => (exists ts, date t = Some ts)
                      /\ Forall (fun c => isna c = false) (description t)
                      /\ isna (amount t) = false
                      /\ (forall x, amount t = CNum x -> (x =? 0)%float = false)) txs
  /\ exists k, 0 < k /\ Forall (fun t => List.length (description t) = k) txs.
Proof.
  intros txs. split; [vm_compute; reflexivity|].
  apply (cleaned_rows_valid no_csv iso_to_datetime None (Some iso_statement) false txs).
  vm_compute. reflexivity.
Defined.

(** * Transaction classifier: the range of the result *)

Lemma lower_ascii_idempotent (c : ascii) :
  PyStr.lower_ascii (PyStr.lower_ascii c) = PyStr.lower_ascii c.
Proof. destruct c as [[] [] [] [] [] [] [] []]; reflexivity. Qed.

Lemma lower_idempotent (s : string) : PyStr.lower (PyStr.lower s) = PyStr.lower s.
Proof.
  induction s as [|c s IH]; [reflexivity|].
  cbn [PyStr.lower]. rewrite lower_ascii_idempotent, IH. reflexivity.
Qed.

Section ClassifierRange.

Variable partial_ratio : string -> string -> float.

Lemma fold_try_pair_category (desc : string) (ps : list (string * string)) :
  forall best,
    fst (fold_left (try_pair partial_ratio desc) ps best) = fst best
    \/ In (fst (fold_left (try_pair partial_ratio desc) ps best)) (map fst ps).
Proof.
  induction ps as [|p ps IH]; intros best; cbn [fold_left]; [left; reflexivity|].
  destruct (IH (try_pair partial_ratio desc best p)) as [H|H].
  - rewrite H. unfold try_pair, try_keyword.
    destruct (_ && _); [right; left; reflexivity|left; reflexivity].
  - right. right. exact H.
Qed.

Lemma scored_pairs_categories (catalog : list (string * list string)) (c : string) :
  In c (map fst (scored_pairs catalog)) -> In c (map fst catalog).
Proof.
  induction catalog as [|[cat kws] r IH]; [intros []|].
  unfold scored_pairs. cbn [flat_map fst snd]. rewrite map_app, in_app_iff.
  intros [H|H]; [|right; apply IH, H].
  left. destruct (String.eqb cat "Other"); [destruct H|].
  rewrite map_map in H. cbn [fst] in H. apply in_map_iff in H.
  destruct H as [kw [H _]]. exact H.
Qed.

Lemma categorize_in_catalog (description : cell) :
  In (categorize_transaction partial_ratio description) (map fst CATEGORIES).
Proof.
  unfold categorize_transaction, best_match. rewrite best_match_pairs.
  destruct (fold_try_pair_category (PyStr.lower (py_str description))
              (scored_pairs CATEGORIES) ("Other", 0%float)) as [H|H].
  - rewrite H. cbn. auto 10.
  - apply scored_pairs_categories, H.
Qed.

End ClassifierRange.

(** X11.  Whatever the fuzzy scores are, the classifier returns one of the
    nine names of the catalog, and it does not see the case of the letters:
    two descriptions with the same lower-case text get the same category,
    so a description and its lower-case text do. *)
Theorem categorize_transaction_range (partial_ratio : string -> string -> float) :
  (forall description,
      In (categorize_transaction partial_ratio description)
         ["Food & Dining"; "Transport"; "Utilities"; "Shopping"; "Income"; "Savings";
          "Entertainment"; "Healthcare"; "Other"])
  /\ (forall d1 d2,
        PyStr.lower (py_str d1) = PyStr.lower (py_str d2) ->
        categorize_transaction partial_ratio d1 = categorize_transaction partial_ratio d2)
  /\ (forall s,
        categorize_transaction partial_ratio (CStr (PyStr.lower s))
        = categorize_transaction partial_ratio (CStr s)).
Proof.
  split; [intros d; exact (categorize_in_catalog partial_ratio d)|].
  split.
  - intros d1 d2 H. unfold categorize_transaction. rewrite H. reflexivity.
  - intros s. unfold categorize_transaction. cbn [py_str].
    rewrite lower_idempotent. reflexivity.
Qed.

(** * Anomaly detector: thresholds and missing amounts *)

Lemma sub_nan_l (x m : float) : PrimFloat.is_nan x = true -> PrimFloat.is_nan (x - m) = true.
Proof.
  rewrite !is_nan_spec, sub_spec. intros H. rewrite H. reflexivity.
Qed.

Lemma div_nan_l (x d : float) : PrimFloat.is_nan x = true -> PrimFloat.is_nan (x / d) = true.
Proof.
  rewrite !is_nan_spec, div_spec. intros H. rewrite H. reflexivity.
Qed.

Lemma abs_nan (x : float) : PrimFloat.is_nan x = true -> PrimFloat.is_nan (PrimFloat.abs x) = true.
Proof.
  rewrite !is_nan_spec, abs_spec. intros H. rewrite H. reflexivity.
Qed.

Lemma ltb_is_nan_r (t z : float) : PrimFloat.is_nan z = true -> (t <? z)%float = false.
Proof.
  rewrite is_nan_spec, ltb_spec. intros H. rewrite H.
  destruct (Prim2SF t) as [s|[]| |[] m e]; reflexivity.
Qed.

(** X12.  Lowering the threshold never clears a flag: a transaction flagged
    at a threshold is flagged at every smaller threshold. *)
Theorem detect_anomalies_threshold_monotone (amounts : list float) (t1 t2 : float) (i : nat) :
  (t1 <=? t2)%float = true ->
  nth_error (detect_anomalies amounts t2) i = Some true ->
  nth_error (detect_anomalies amounts t1) i = Some true.
Proof.
  intros Hle. rewrite !detect_anomalies_nth.
  destruct (nth_error amounts i) as [a|]; [|discriminate].
  cbn [option_map]. intros H. injection H as H.
  apply andb_true_iff in H. destruct H as [H1 H2].
  rewrite H1, (leb_ltb_trans _ _ _ Hle H2). reflexivity.
Qed.

Lemma detect_anomalies_threshold_monotone_witness :
  (2 <=? 3)%float = true
  /\ nth_error (detect_anomalies
                  [10; 10; 10; 10; 10; 10; 10; 10; 10; 10; 10; 100000]%float 3) 11 = Some true
  /\ nth_error (detect_anomalies
                  [10; 10; 10; 10; 10; 10; 10; 10; 10; 10; 10; 100000]%float 2) 11 = Some true.
Proof.
  split; [reflexivity|]. split; [reflexivity|].
  apply (detect_anomalies_threshold_monotone
           [10; 10; 10; 10; 10; 10; 10; 10; 10; 10; 10; 100000]%float 2 3 11); reflexivity.
Defined.

(** X13.  A missing amount is never flagged, whatever the other amounts and
    the threshold are. *)
Theorem missing_amount_not_anomalous (amounts : list float) (threshold : float)
    (i : nat) (x : float) :
  nth_error amounts i = Some x ->
  PrimFloat.is_nan x = true ->
  nth_error (detect_anomalies amounts threshold) i = Some false.
Proof.
  intros Hi Hx. rewrite detect_anomalies_nth, Hi. cbn [option_map].
  rewrite (ltb_is_nan_r _ _ (abs_nan _ (div_nan_l _ _ (sub_nan_l _ _ Hx)))).
  rewrite andb_false_r. reflexivity.
Qed.

Lemma missing_amount_not_anomalous_witness :
  nth_error (detect_anomalies [1; nan; 1; 1; 1; 1; 1; 1; 1; 1; 1; 1000]%float 3) 1 = Some false
  /\ detect_anomalies [1; nan; 1; 1; 1; 1; 1; 1; 1; 1; 1; 1000]%float 3
     = [false; false; false; false; false; false; false; false; false; false; false; true].
Proof.
  split; [|reflexivity].
  apply (missing_amount_not_anomalous
           [1; nan; 1; 1; 1; 1; 1; 1; 1; 1; 1; 1000]%float 3 1 nan); reflexivity.
Defined.

(** * Aggregator: every transaction is counted once *)

Lemma list_sum_cons (n : nat) (l : list nat) : list_sum (n :: l) = n + list_sum l.
Proof. reflexivity. Qed.

Lemma list_sum_zeros {A : Type} (l : list A) : list_sum (map (fun _ => 0) l) = 0.
Proof. induction l as [|a l IH]; [reflexivity|exact IH]. Qed.

Lemma list_sum_map_add {A : Type} (f g : A -> nat) (l : list A) :
  list_sum (map (fun a => f a + g a) l) = list_sum (map f l) + list_sum (map g l).
Proof.
  induction l as [|a l IH]; [reflexivity|].
  cbn [map]. rewrite !list_sum_cons, IH. lia.
Qed.

Lemma list_sum_permutation (l l' : list nat) : Permutation l l' -> list_sum l = list_sum l'.
Proof. induction 1; rewrite ?list_sum_cons; lia. Qed.

(** Rows are dealt to groups by [sel]; a row that [hits r] of the keys
    select is counted that many times over the groups when its value is
    present. *)
Lemma count_by_group {K R : Type} (sel : K -> R -> bool) (val : R -> float)
    (keys : list K) (hits : R -> nat) (rows : list R) :
  (forall r, In r rows ->
     list_sum (map (fun k => if sel k r then 1 else 0) keys) = hits r) ->
  list_sum (map (fun k => F64.count (map val (filter (sel k) rows))) keys)
  = list_sum (map (fun r => if F64.notnan (val r) then hits r else 0) rows).
Proof.
  induction rows as [|r rows IH]; intros Hh.
  - cbn [filter map]. apply list_sum_zeros.
  - assert (E : map (fun k => F64.count (map val (filter (sel k) (r :: rows)))) keys
              = map (fun k => (if F64.notnan (val r) then (if sel k r then 1 else 0) else 0)
                              + F64.count (map val (filter (sel k) rows))) keys).
    { apply map_ext. intros k. cbn [filter]. unfold F64.count.
      destruct (sel k r); cbn [map filter].
      - destruct (F64.notnan (val r)); reflexivity.
      - destruct (F64.notnan (val r)); reflexivity. }
    rewrite E, list_sum_map_add, IH by (intros r' Hr'; apply Hh; right; exact Hr').
    cbn [map]. rewrite list_sum_cons. f_equal.
    destruct (F64.notnan (val r)).
    + apply Hh. left. reflexivity.
    + apply list_sum_zeros.
Qed.

Lemma count_present (l : list float) :
  list_sum (map (fun x => if F64.notnan x then 1 else 0) l) = F64.count l.
Proof.
  unfold F64.count. induction l as [|x l IH]; [reflexivity|].
  cbn [map filter]. rewrite list_sum_cons.
  destruct (F64.notnan x); cbn [List.length]; rewrite IH; reflexivity.
Qed.

Lemma one_key_selected (c : string) (keys : list string) :
  NoDup keys -> In c keys ->
  list_sum (map (fun k => if String.eqb c k then 1 else 0) keys) = 1.
Proof.
  induction keys as [|k keys IH]; intros Hnd Hin; [destruct Hin|].
  inversion Hnd as [|? ? Hk Hr]; subst. cbn [map]. rewrite list_sum_cons.
  destruct (String.eqb c k) eqn:E.
  - apply String.eqb_eq in E. subst k.
    assert (Hz : list_sum (map (fun k => if String.eqb c k then 1 else 0) keys) = 0).
    { clear IH Hnd Hr Hin. induction keys as [|k keys IH]; [reflexivity|].
      cbn [map]. rewrite list_sum_cons. destruct (String.eqb c k) eqn:E.
      - apply String.eqb_eq in E. subst k. exfalso. apply Hk. left. reflexivity.
      - apply IH. intros H. apply Hk. right. exact H. }
    rewrite Hz. reflexivity.
  - destruct Hin as [Hin|Hin]; [subst; rewrite String.eqb_refl in E; discriminate|].
    rewrite (IH Hr Hin). reflexivity.
Qed.

(** X14.  The category statistics count every transaction with a present
    amount exactly once: the transaction counts of the rows add up to the
    number of present amounts of the table, whatever the grouped sum and
    mean are and for every sorting that returns the rows it was given. *)
Theorem category_counts_partition
    (group_sum group_mean : list float -> float)
    (sort_values : list CategoryStat -> list CategoryStat)
    (df : list (string * float)) :
  (forall l, Permutation (sort_values l) l) ->
  list_sum (map Transactions (calculate_category_stats group_sum group_mean sort_values df))
  = F64.count (map snd df).
Proof.
  intros Hsort. unfold calculate_category_stats.
  rewrite (list_sum_permutation _ _ (Permutation_map Transactions (Hsort _))).
  rewrite map_map. cbn [Transactions aggregate].
  rewrite (list_sum_permutation _ _
             (Permutation_map (fun k => F64.count (group_amounts k df))
                (group_keys_perm (map fst df)))).
  destruct (unique_spec (map fst df) []) as [Hnd Hin].
  unfold group_amounts.
  rewrite (count_by_group (fun k r => String.eqb (fst r) k) snd
             (unique [] (map fst df)) (fun _ => 1) df).
  - rewrite <- count_present, map_map. reflexivity.
  - intros r Hr. apply one_key_selected; [exact Hnd|].
    apply Hin. split; [apply in_map, Hr|intros []].
Qed.

Lemma category_counts_partition_witness :
  let df := [("Food", -1200); ("Income", 50000); ("Food", nan); ("Food", -800);
             ("Transport", -300)]%float in
  map Transactions (calculate_category_stats plain_sum plain_mean insertion_sort_desc df)
  = [1; 1; 2]
  /\ list_sum (map Transactions
                 (calculate_category_stats plain_sum plain_mean insertion_sort_desc df))
     = F64.count (map snd df).
Proof.
  intros df. split; [vm_compute; reflexivity|].
  exact (category_counts_partition plain_sum plain_mean insertion_sort_desc df
           insertion_sort_desc_perm).
Defined.

(** * Aggregator: a table with one kind of amount *)

Lemma filter_none {A : Type} (p : A -> bool) (l : list A) :
  (forall a, In a l -> p a = false) -> filter p l = [].
Proof.
  induction l as [|a l IH]; intros H; [reflexivity|].
  cbn [filter]. rewrite (H a (or_introl eq_refl)). apply IH.
  intros b Hb. apply H. right. exact Hb.
Qed.

Lemma sub_zero_r (x : float) : (x - 0)%float = x.
Proof.
  apply Prim2SF_inj. rewrite sub_spec.
  change (Prim2SF 0) with (S754_zero false).
  destruct (Prim2SF x) as [[]|[]| |[] m e]; reflexivity.
Qed.

(** X15.  A table without a positive amount has income 0 and savings rate
    0 (nothing is divided by the zero income); a table without a negative
    amount has expenses 0 and a net flow equal to its income.  The empty
    table has both. *)
Theorem calculate_net_flow_one_sided (amounts : list float) :
  ((forall a, In a amounts -> (0 <? a)%float = false) ->
     income (calculate_net_flow amounts) = 0%float
     /\ savings_rate (calculate_net_flow amounts) = 0%float)
  /\ ((forall a, In a amounts -> (a <? 0)%float = false) ->
        expenses (calculate_net_flow amounts) = 0%float
        /\ net (calculate_net_flow amounts) = income (calculate_net_flow amounts))
  /\ calculate_net_flow []
     = {| income := 0; expenses := 0; net := 0; savings_rate := 0 |}.
Proof.
  split; [|split; [|reflexivity]].
  - intros H. unfold calculate_net_flow. cbn [income savings_rate].
    rewrite (filter_none (fun a => (0 <? a)%float) _ H). split; reflexivity.
  - intros H. unfold calculate_net_flow. cbn [income expenses net].
    rewrite (filter_none (fun a => (a <? 0)%float) _ H).
    change (PrimFloat.abs (F64.fsum [])) with 0%float.
    split; [reflexivity|apply sub_zero_r].
Qed.

(** * Aggregator: monthly statistics *)

Lemma insert_period_in (k : Z) (l : list Z) (x : Z) :
  In x (insert_period k l) <-> x = k \/ In x l.
Proof.
  induction l as [|k' r IH]; cbn [insert_period In].
  - split; [intros [H|[]]; auto|intros [H|[]]; auto].
  - destruct (Z.ltb_spec k k'); [cbn [In]; intuition auto|].
    destruct (Z.eqb_spec k k'); cbn [In].
    + subst. intuition auto.
    + rewrite IH. intuition auto.
Qed.

Lemma insert_period_sorted (k : Z) (l : list Z) :
  Sorted Z.lt l -> Sorted Z.lt (insert_period k l).
Proof.
  induction l as [|k' r IH]; intros Hs; cbn [insert_period].
  - repeat constructor.
  - destruct (Z.ltb_spec k k'); [constructor; [exact Hs|constructor; exact H]|].
    destruct (Z.eqb_spec k k'); [exact Hs|].
    inversion Hs as [|? ? Hr Hhd]; subst.
    constructor; [apply IH, Hr|].
    destruct r as [|k'' r]; cbn [insert_period].
    + constructor. lia.
    + inversion Hhd; subst.
      destruct (Z.ltb_spec k k''); [constructor; lia|].
      destruct (Z.eqb_spec k k''); constructor; assumption.
Qed.

Lemma period_keys_spec (ks : list Z) :
  StronglySorted Z.lt (period_keys ks) /\ (forall x, In x (period_keys ks) <-> In x ks).
Proof.
  split.
  - apply Sorted_StronglySorted; [intros a b c; apply Z.lt_trans|].
    unfold period_keys. induction ks as [|k ks IH]; cbn [fold_right]; [constructor|].
    apply insert_period_sorted, IH.
  - intros x. unfold period_keys. induction ks as [|k ks IH]; cbn [fold_right In]; [tauto|].
    rewrite insert_period_in, IH. intuition auto.
Qed.

Lemma strongly_sorted_nodup (l : list Z) : StronglySorted Z.lt l -> NoDup l.
Proof.
  induction 1 as [|a l Hs IH Hall]; constructor; [|exact IH].
  intros Hin. rewrite Forall_forall in Hall. specialize (Hall a Hin). lia.
Qed.

Lemma one_period_selected (c : Z) (keys : list Z) :
  NoDup keys -> In c keys ->
  list_sum (map (fun k => if Z.eqb c k then 1 else 0) keys) = 1.
Proof.
  induction keys as [|k keys IH]; intros Hnd Hin; [destruct Hin|].
  inversion Hnd as [|? ? Hk Hr]; subst. cbn [map]. rewrite list_sum_cons.
  destruct (Z.eqb_spec c k) as [E|E].
  - subst k.
    assert (Hz : list_sum (map (fun k => if Z.eqb c k then 1 else 0) keys) = 0).
    { clear IH Hnd Hr Hin. induction keys as [|k keys IH]; [reflexivity|].
      cbn [map]. rewrite list_sum_cons. destruct (Z.eqb_spec c k) as [E|E].
      - subst k. exfalso. apply Hk. left. reflexivity.
      - apply IH. intros H. apply Hk. right. exact H. }
    rewrite Hz. reflexivity.
  - destruct Hin as [Hin|Hin]; [congruence|].
    rewrite (IH Hr Hin). reflexivity.
Qed.

Section MonthlyFacts.

Variable to_period : Timestamp -> Z.
Variable period_str : Z -> string.
Variable group_sum : list float -> float.
Variable group_mean : list float -> float.

Lemma row_periods_in (df : list (option Timestamp * float)) (k : Z) :
  In k (row_periods to_period df) <-> exists t a, In (Some t, a) df /\ to_period t = k.
Proof.
  unfold row_periods. rewrite in_flat_map. split.
  - intros [[[t|] a] [Hr Hk]]; [|destruct Hk].
    destruct Hk as [Hk|[]]. exists t, a. split; assumption.
  - intros (t & a & Hr & Hk). exists (Some t, a). split; [exact Hr|left; exact Hk].
Qed.

Lemma monthly_stats_rows (df : list (option Timestamp * float)) :
  exists periods,
    StronglySorted Z.lt periods
    /\ (forall k, In k periods <-> exists t a, In (Some t, a) df /\ to_period t = k)
    /\ calculate_monthly_stats to_period period_str group_sum group_mean df
       = map (fun k => {| Monthly.year_month := period_str k;
                          Monthly.Total := round2 (group_sum (period_amounts to_period k df));
                          Monthly.Average := round2 (group_mean (period_amounts to_period k df));
                          Monthly.Count := F64.count (period_amounts to_period k df) |})
             periods.
Proof.
  exists (period_keys (row_periods to_period df)).
  destruct (period_keys_spec (row_periods to_period df)) as [Hs Hin].
  split; [exact Hs|]. split; [|reflexivity].
  intros k. rewrite Hin. apply row_periods_in.
Qed.

Lemma monthly_counts (df : list (option Timestamp * float)) :
  list_sum (map Monthly.Count
              (calculate_monthly_stats to_period period_str group_sum group_mean df))
  = F64.count (map snd (filter (fun r => is_some (fst r)) df)).
Proof.
  unfold calculate_monthly_stats. rewrite map_map. cbn [Monthly.Count].
  destruct (period_keys_spec (row_periods to_period df)) as [Hs Hin].
  unfold period_amounts.
  rewrite (count_by_group (in_period to_period) snd
             (period_keys (row_periods to_period df))
             (fun r => if is_some (fst r) then 1 else 0) df).
  - rewrite <- count_present. clear Hs Hin.
    induction df as [|[[t|] a] df IH]; [reflexivity| |]; cbn [map filter fst snd is_some].
    + rewrite !list_sum_cons. f_equal. apply IH.
    + rewrite list_sum_cons. destruct (F64.notnan a); apply IH.
  - intros [[t|] a] Hr; unfold in_period; cbn [fst is_some].
    + apply one_period_selected; [apply strongly_sorted_nodup, Hs|].
      apply Hin, row_periods_in. exists t, a. split; [exact Hr|reflexivity].
    + apply list_sum_zeros.
Qed.

End MonthlyFacts.

(** X16.  The monthly statistics have one row for every month in which a
    dated transaction falls and no other row, in increasing order of the
    months; a row carries the text of its month, the rounded sum and mean
    and the number of the present amounts of the month; and the counts of
    the rows add up to the number of dated transactions with a present
    amount. *)
Theorem calculate_monthly_stats_spec
    (to_period : Timestamp -> Z) (period_str : Z -> string)
    (group_sum group_mean : list float -> float)
    (df : list (option Timestamp * float)) :
  let stats := calculate_monthly_stats to_period period_str group_sum group_mean df in
  (exists periods,
      StronglySorted Z.lt periods
      /\ (forall k, In k periods <-> exists t a, In (Some t, a) df /\ to_period t = k)
      /\ stats
         = map (fun k =>
                  {| Monthly.year_month := period_str k;
                     Monthly.Total := round2 (group_sum (period_amounts to_period k df));
                     Monthly.Average := round2 (group_mean (period_amounts to_period k df));
                     Monthly.Count := F64.count (period_amounts to_period k df) |})
               periods)
  /\ list_sum (map Monthly.Count stats)
     = F64.count (map snd (filter (fun r => is_some (fst r)) df)).
Proof.
  cbv zeta. split; [apply monthly_stats_rows|apply monthly_counts].
Qed.

(** * The pipeline of [app.py]: the rows of the annotated table *)

Lemma numeric_amounts_spec (cs : list cell) :
  forall amounts, numeric_amounts cs = Some amounts -> cs = map CNum amounts.
Proof.
  induction cs as [|c r IH]; intros amounts H.
  - injection H as <-. reflexivity.
  - destruct c as [s|x]; [discriminate|].
    cbn [numeric_amounts] in H. destruct (numeric_amounts r) as [l|]; [|discriminate].
    injection H as <-. cbn [map]. rewrite (IH l eq_refl). reflexivity.
Qed.

Lemma map2_fst {A B C : Type} (f : A -> B -> C) (g : C -> A) :
  (forall a b, g (f a b) = a) ->
  forall l1 l2, List.length l1 = List.length l2 -> map g (map2 f l1 l2) = l1.
Proof.
  intros Hg. induction l1 as [|a l1 IH]; intros [|b l2] Hlen; try discriminate;
    [reflexivity|].
  cbn [map2 map]. rewrite Hg, IH; [reflexivity|]. injection Hlen as Hlen. exact Hlen.
Qed.

Lemma map2_snd {A B C : Type} (f : A -> B -> C) (g : C -> B) :
  (forall a b, g (f a b) = b) ->
  forall l1 l2, List.length l1 = List.length l2 -> map g (map2 f l1 l2) = l2.
Proof.
  intros Hg. induction l1 as [|a l1 IH]; intros [|b l2] Hlen; try discriminate;
    [reflexivity|].
  cbn [map2 map]. rewrite Hg, IH; [reflexivity|]. injection Hlen as Hlen. exact Hlen.
Qed.

Lemma map2_in {A B C : Type} (f : A -> B -> C) (c : C) :
  forall l1 l2, In c (map2 f l1 l2) -> exists a b, In a l1 /\ In b l2 /\ c = f a b.
Proof.
  induction l1 as [|a l1 IH]; intros [|b l2] H; try contradiction.
  destruct H as [H|H].
  - exists a, b. repeat split; [left; reflexivity|left; reflexivity|symmetry; exact H].
  - destruct (IH l2 H) as (a' & b' & Ha & Hb & Hc).
    exists a', b'. repeat split; [right; exact Ha|right; exact Hb|exact Hc].
Qed.

Lemma detect_anomalies_length (amounts : list float) (threshold : float) :
  List.length (detect_anomalies amounts threshold) = List.length amounts.
Proof. unfold detect_anomalies. destruct (_ =? _)%float; apply length_map. Qed.

Section AnnotatedRows.

Variable read_csv : string -> nat -> result DataFrame.
Variable read_csv_path : string -> result DataFrame.
Variable to_datetime : list cell -> list (option Timestamp).
Variable partial_ratio : string -> string -> float.
Variable period_month : option Timestamp -> string.

(** What [annotate] returns for a cleaned table: the table itself under
    [transaction], numeric amounts, and the three columns computed from
    it. *)
Lemma annotate_rows (df_clean : list Transaction) (table : list Annotated) :
  annotate partial_ratio period_month df_clean = Ok table ->
  map transaction table = df_clean
  /\ (exists amounts,
        map amount df_clean = map CNum amounts
        /\ map is_anomaly table = detect_anomalies amounts default_threshold)
  /\ Forall (fun r => category r
                      = categorize_transaction partial_ratio
                          (hd missing (description (transaction r)))
                      /\ month r = period_month (date (transaction r))) table
  /\ (forall first, hd_error df_clean = Some first ->
        List.length (description first) = 1).
Proof.
  unfold annotate. destruct df_clean as [|first rest].
  - intros H. injection H as <-. repeat split; [|constructor|discriminate].
    exists []. split; reflexivity.
  - destruct (Nat.eqb (List.length (description first)) 1) eqn:E; [|discriminate].
    remember (first :: rest) as l eqn:El.
    destruct (numeric_amounts (map amount l)) as [amounts|] eqn:Ha; [|discriminate].
    intros H. injection H as <-.
    pose proof (numeric_amounts_spec _ _ Ha) as Hnum.
    assert (Hlen : List.length l
                   = List.length (detect_anomalies amounts default_threshold)).
    { rewrite detect_anomalies_length.
      rewrite <- (length_map amount l), Hnum, length_map. reflexivity. }
    split; [apply map2_fst; [reflexivity|exact Hlen]|].
    split; [exists amounts; split; [exact Hnum|apply map2_snd; [reflexivity|exact Hlen]]|].
    split.
    + apply Forall_forall. intros r Hr. apply map2_in in Hr.
      destruct Hr as (t & flag & _ & _ & ->). split; reflexivity.
    + intros f Hf. rewrite El in Hf. injection Hf as <-. apply Nat.eqb_eq, E.
Qed.

Lemma process_data_stages (file : UploadedFile) (header_row_idx : option nat)
    (manual_mode : bool) (table : list Annotated) :
  fst (process_data read_csv read_csv_path to_datetime partial_ratio period_month
         file header_row_idx manual_mode) = Ok table ->
  exists df df_clean,
    load_and_clean_expenses read_csv_path to_datetime None (Some df) manual_mode = Ok df_clean
    /\ annotate partial_ratio period_month df_clean = Ok table.
Proof.
  unfold process_data.
  assert (G : forall (r : result DataFrame),
             (df <- r ;;
              df_clean <- load_and_clean_expenses read_csv_path to_datetime
                            None (Some df) manual_mode ;;
              annotate partial_ratio period_month df_clean) = Ok table ->
             exists df df_clean,
               load_and_clean_expenses read_csv_path to_datetime None (Some df) manual_mode
               = Ok df_clean
               /\ annotate partial_ratio period_month df_clean = Ok table).
  { intros [df|e] H; [|discriminate]. cbn [bind] in H.
    destruct (load_and_clean_expenses read_csv_path to_datetime None (Some df) manual_mode)
      as [df_clean|e] eqn:E; [|discriminate].
    exists df, df_clean. split; [exact E|exact H]. }
  destruct manual_mode, header_row_idx as [idx|]; cbn [fst read_file]; apply G.
Qed.

End AnnotatedRows.

(** X17.  Every row of the table [process_data] returns has a parsed date,
    one description that is present, and a numeric amount that is present
    and not zero; its category is the classifier's answer for its
    description and one of the names of the catalog, its month is the month
    of its date, and the anomaly flags are those of the detector on the
    amounts of the whole table with the threshold 3.  (A table with a text
    amount or with several description columns is never returned: the
    annotation fails on it.) *)
Theorem process_data_rows
    (read_csv : string -> nat -> result DataFrame)
    (read_csv_path : string -> result DataFrame)
    (to_datetime : list cell -> list (option Timestamp))
    (partial_ratio : string -> string -> float)
    (period_month : option Timestamp -> string)
    (file : UploadedFile) (header_row_idx : option nat) (manual_mode : bool)
    (table : list Annotated) :
  fst (process_data read_csv read_csv_path to_datetime partial_ratio period_month
         file header_row_idx manual_mode) = Ok table ->
  Forall (fun r =>
            (exists ts, date (transaction r) = Some ts)
            /\ (exists d, description (transaction r) = [d] /\ isna d = false
                          /\ category r = categorize_transaction partial_ratio d)
            /\ (exists x, amount (transaction r) = CNum x
                          /\ PrimFloat.is_nan x = false /\ (x =? 0)%float = false)
            /\ In (category r) (map fst CATEGORIES)
            /\ month r = period_month (date (transaction r))) table
  /\ exists amounts,
       map (fun r => amount (transaction r)) table = map CNum amounts
       /\ map is_anomaly table = detect_anomalies amounts 3.
Proof.
  intros H. apply process_data_stages in H. destruct H as (df & df_clean & Hclean & Hann).
  apply annotate_rows in Hann. destruct Hann as (Htx & (amounts & Hnum & Hflags) & Hcols & Hfirst).
  pose proof (emitted_rows_checked _ _ _ _ _ _ Hclean) as Hrows.
  pose proof (cleaned_rows_description_count _ _ _ _ _ _ Hclean) as (k & _ & Hk).
  assert (Hk1 : Forall (fun t => List.length (description t) = 1) df_clean).
  { destruct df_clean as [|first rest]; [constructor|].
    specialize (Hfirst first eq_refl). inversion Hk as [|? ? Hf _]; subst.
    rewrite Hfirst in Hk. exact Hk. }
  split.
  - rewrite Forall_forall in Hcols, Hrows, Hk1. apply Forall_forall. intros r Hr.
    assert (Ht : In (transaction r) df_clean) by (rewrite <- Htx; apply in_map, Hr).
    destruct (Hcols r Hr) as [Hcat Hmonth].
    destruct (Hrows _ Ht) as (Hd & _ & Hdesc & Hna & Hz).
    specialize (Hk1 _ Ht).
    destruct (description (transaction r)) as [|d [|d' ds]] eqn:Ed; try discriminate.
    cbn [hd] in Hcat.
    split; [exact Hd|].
    split; [exists d; repeat split; [inversion Hdesc; assumption|exact Hcat]|].
    split.
    + assert (Hin : In (amount (transaction r)) (map CNum amounts)).
      { rewrite <- Hnum. apply in_map, Ht. }
      apply in_map_iff in Hin. destruct Hin as [x [Hx _]].
      exists x. split; [symmetry; exact Hx|].
      rewrite <- Hx in Hna. split; [exact Hna|apply Hz; symmetry; exact Hx].
    + split; [rewrite Hcat; apply categorize_in_catalog|exact Hmonth].
  - exists amounts. split; [|exact Hflags].
    rewrite <- Hnum, <- Htx, map_map. reflexivity.
Qed.

Lemma process_data_rows_witness :
  let table :=
    [ {| transaction := {| date := Some 20240101%Z;
                           description := [CStr "Uber Trip Lagos"];
                           amount := CNum (-1000) |};
         category := "Transport"; is_anomaly := false; month := "202401" |};
      {| transaction := {| date := Some 20240102%Z;
                           description := [CStr "Salary"];
                           amount := CNum 2500 |};
         category := "Income"; is_anomaly := false; month := "202401" |} ] in
  fst (process_data sample_read_csv no_csv iso_to_datetime substring_ratio sample_month
         {| content := "statement bytes"; position := 0 |} None false) = Ok table
  /\ Forall (fun r =>
               (exists ts, date (transaction r) = Some ts)
               /\ (exists d, description (transaction r) = [d] /\ isna d = false
                             /\ category r = categorize_transaction substring_ratio d)
               /\ (exists x, amount (transaction r) = CNum x
                             /\ PrimFloat.is_nan x = false /\ (x =? 0)%float = false)
               /\ In (category r) (map fst CATEGORIES)
               /\ month r = sample_month (date (transaction r))) table
  /\ exists amounts,
       map (fun r => amount (transaction r)) table = map CNum amounts
       /\ map is_anomaly table = detect_anomalies amounts 3.
Proof.
  intros table. split; [vm_compute; reflexivity|].
  apply (process_data_rows sample_read_csv no_csv iso_to_datetime substring_ratio sample_month
           {| content := "statement bytes"; position := 0 |} None false table).
  vm_compute. reflexivity.
Defined.

Lemma numeric_amounts_text (cs : list cell) (s : string) :
  In (CStr s) cs -> numeric_amounts cs = None.
Proof.
  induction cs as [|c r IH]; intros H; [destruct H|].
  destruct H as [->|H]; [reflexivity|].
  destruct c as [s'|x]; [reflexivity|].
  cbn [numeric_amounts]. rewrite (IH H). reflexivity.
Qed.

(** X18.  A text amount anywhere in the cleaned table makes the annotation
    fail: the anomaly detector cannot take the mean of the column, and
    [process_data] returns no table. *)
Theorem annotate_text_amount_fails
    (partial_ratio : string -> string -> float)
    (period_month : option Timestamp -> string)
    (df_clean : list Transaction) (t : Transaction) (s : string) :
  In t df_clean ->
  amount t = CStr s ->
  annotate partial_ratio period_month df_clean = Err PandasError.
Proof.
  intros Hin Ht. unfold annotate.
  destruct df_clean as [|first rest] eqn:E; [destruct Hin|].
  destruct (Nat.eqb _ 1); [|reflexivity].
  rewrite (numeric_amounts_text _ s); [reflexivity|].
  rewrite <- Ht. apply in_map. exact Hin.
Qed.

Lemma annotate_text_amount_fails_witness :
  let df_clean :=
    [ {| date := Some 20240101%Z; description := [CStr "Opening"]; amount := CStr "0" |};
      {| date := Some 20240102%Z; description := [CStr "Salary"]; amount := CStr "1,000" |} ] in
  load_and_clean_expenses no_csv iso_to_datetime None (Some text_amount_statement) true
  = Ok df_clean
  /\ annotate substring_ratio sample_month df_clean = Err PandasError.
Proof.
  intros df_clean. split; [vm_compute; reflexivity|].
  apply (annotate_text_amount_fails substring_ratio sample_month df_clean
           {| date := Some 20240101%Z; description := [CStr "Opening"]; amount := CStr "0" |}
           "0").
  - left. reflexivity.
  - reflexivity.
Defined.

(** * The key statistics: the top category *)





(** * The budget tracker *)






Section BudgetFacts.

Variable period_month : option Timestamp -> string.
Variable minus_one_month : option Timestamp -> option Timestamp.




End BudgetFacts.

